(** * Agora buzzer: a shallow embedding of the session core

    The development follows [backend/models.py] and [backend/main.py]:
    the rate limiter, the connection manager, the administrative
    endpoints and one iteration of the WebSocket receive loop.

    Conventions.
    - Python [int] is [Z]; Python [float] is Rocq's primitive [float], the
      same IEEE 754 binary64: [now - t] rounds and [<] compares as they do
      in the source.
    - [time.time()] is an input: every function that reads the clock takes
      the reading as an argument, one argument per call in the source.
    - A Python [dict] whose iteration order is observable ([teams_db], the
      per-session connection table) is an insertion-ordered association
      list, [PyDict.t]; the others are [gmap]s.
    - A [WebSocket] object is a channel identifier; what was done to it is
      recorded in a table of channels, the [World].
    - Exceptions do not roll the state back: a computation returns the
      state it reached together with either a value or the exception.
    - The handlers are coroutines on one event loop.  A handler is followed
      here from its first statement to its last as if no other coroutine
      ran during its [await]s.  What the event loop may do in between is
      looked at in two places: the interleaved buzz handlers
      ([run_schedule]) and the loop of [broadcast] ([broadcast_live]). *)

From Stdlib Require Import ZArith Lia.
From Stdlib Require Import Floats.PrimFloat.
From stdpp Require Import base option list gmap strings.

Set Warnings "-register-all".

Local Open Scope Z_scope.
Local Open Scope string_scope.

(** ** Insertion-ordered dictionaries with string keys *)

Module PyDict.
Section Dict.
Context {V : Type}.

Definition t := list (string * V).

(** [d.get(k)] *)
Fixpoint get (k : string) (d : t) : option V :=
  match d with
  | [] => None
  | (k', v) :: d' => if String.eqb k k' then Some v else get k d'
  end.

(** [k in d] *)
Definition contains (k : string) (d : t) : bool :=
  match get k d with Some _ => true | None => false end.

(** [d[k] = v]: an existing key keeps its position, a new key goes last. *)
Fixpoint set (k : string) (v : V) (d : t) : t :=
  match d with
  | [] => [(k, v)]
  | (k', v') :: d' =>
      if String.eqb k k' then (k, v) :: d' else (k', v') :: set k v d'
  end.

(** [d.pop(k, None)] *)
Fixpoint pop (k : string) (d : t) : t :=
  match d with
  | [] => []
  | (k', v') :: d' =>
      if String.eqb k k' then d' else (k', v') :: pop k d'
  end.

Definition keys (d : t) : list string := map fst d.
Definition values (d : t) : list V := map snd d.
Definition items (d : t) : list (string * V) := d.


(** A table built by [set] and [pop] from the empty one never repeats a
    key. *)
Definition wf (d : t) : Prop := NoDup (keys d).

End Dict.
Arguments t : clear implicits.
End PyDict.

(** ** models.py *)

Inductive BuzzerState := DISABLED | ENABLED | LOCKED.

Definition BuzzerState_value (b : BuzzerState) : string :=
  match b with
  | DISABLED => "disabled"
  | ENABLED => "enabled"
  | LOCKED => "locked"
  end.

Definition BuzzerState_eqb (a b : BuzzerState) : bool :=
  match a, b with
  | DISABLED, DISABLED | ENABLED, ENABLED | LOCKED, LOCKED => true
  | _, _ => false
  end.

Record TeamInfo := mkTeamInfo {
  team_id : string;
  team_name : string;
  score : Z;
  is_connected : bool;
  joined_at : option float
}.

Record SessionState := mkSessionState {
  session_id : string;
  buzzer_state : BuzzerState;
  buzzer_winner : option string;
  buzzer_timestamp : option float;
  question_number : Z
}.

(** *** Rate limiter *)

Record RateLimiter := mkRateLimiter {
  max_events : Z;
  window : float;
  _log : gmap string (list float)
}.

(** [RateLimiter()] with the default arguments. *)
Definition RateLimiter_default : RateLimiter :=
  {| max_events := 3; window := 5; _log := ∅ |}.

Definition rl_events (rl : RateLimiter) (client_id : string) : list float :=
  default [] (_log rl !! client_id).

(** [RateLimiter.record], the clock reading [now] made explicit. *)
Definition record (now : float) (client_id : string) (rl : RateLimiter)
  : RateLimiter :=
  {| max_events := max_events rl;
     window := window rl;
     _log := <[client_id := (rl_events rl client_id ++ [now])%list]> (_log rl) |}.

(** [[t for t in events if now - t < self.window]] *)
Definition recent_events (rl : RateLimiter) (now : float) (events : list float)
  : list float :=
  List.filter (fun t => (now - t <? window rl)%float) events.

(** [RateLimiter.is_limited]: the answer and the limiter with the pruned
    ledger written back. *)
Definition is_limited (now : float) (client_id : string) (rl : RateLimiter)
  : bool * RateLimiter :=
  let recent := recent_events rl now (rl_events rl client_id) in
  (Z.of_nat (length recent) >=? max_events rl,
   {| max_events := max_events rl;
      window := window rl;
      _log := <[client_id := recent]> (_log rl) |}).

(** Lines 340-343 of the receive loop, on the limiter alone: check, and
    record when admitted.  [true] means the attempt was refused. *)
Definition rl_attempt (t_check t_rec : float) (client_id : string)
    (rl : RateLimiter) : bool * RateLimiter :=
  let (limited, rl') := is_limited t_check client_id rl in
  if limited then (true, rl') else (false, record t_rec client_id rl').

(** *** JSON values, as [json.loads] returns them and [send_json] takes them *)

Inductive json :=
| JNull
| JBool (b : bool)
| JInt (n : Z)
| JFloat (q : float)
| JStr (s : string)
| JList (items : list json)
| JObj (fields : list (string * json)).

Definition json_opt {A} (f : A -> json) (o : option A) : json :=
  match o with Some a => f a | None => JNull end.

(** Field [k] of a message that is known to be an object. *)
Definition field (k : string) (j : json) : option json :=
  match j with JObj fields => PyDict.get k fields | _ => None end.

(** *** Channels

    A channel is what the source holds as a [WebSocket] object.  The
    framework behind it is not part of the repository; its behaviour is
    taken as follows: an operation on a channel raises when the channel is
    unknown, when its peer is gone ([broken]) or when it has been closed,
    and sending also requires the channel to have been accepted. *)

Record Channel := mkChannel {
  accepted : bool;
  closed : option (Z * string);
  broken : bool;
  sent : list json
}.

Abbreviation World := (gmap nat Channel).

Definition can_io (ch : Channel) : bool :=
  negb (broken ch) && match closed ch with None => true | Some _ => false end.

Definition can_send (ch : Channel) : bool := accepted ch && can_io ch.

Definition ws_accept (c : nat) (w : World) : option World :=
  match w !! c with
  | Some ch =>
      if can_io ch
      then Some (<[c := mkChannel true (closed ch) (broken ch) (sent ch)]> w)
      else None
  | None => None
  end.

Definition ws_close (c : nat) (code : Z) (reason : string) (w : World)
  : option World :=
  match w !! c with
  | Some ch =>
      if can_io ch
      then Some (<[c := mkChannel (accepted ch) (Some (code, reason))
                                  (broken ch) (sent ch)]> w)
      else None
  | None => None
  end.

Definition ws_send_json (c : nat) (message : json) (w : World)
  : option World :=
  match w !! c with
  | Some ch =>
      if can_send ch
      then Some (<[c := mkChannel (accepted ch) (closed ch) (broken ch)
                                  (sent ch ++ [message])]> w)
      else None
  | None => None
  end.

(** A channel on which [send_json] succeeds. *)
Definition sendable (w : World) (c : nat) : bool :=
  match w !! c with Some ch => can_send ch | None => false end.

(** What channel [c] has been sent so far. *)
Definition received (w : World) (c : nat) : list json :=
  match w !! c with Some ch => sent ch | None => [] end.

(** *** Connection manager *)

Record ConnInfo := mkConnInfo { ws : nat; role : string }.

(** [ConnectionManager._connections] *)
Abbreviation Connections := (gmap string (PyDict.t ConnInfo)).

Definition session_table (conns : Connections) (session_id : string)
  : PyDict.t ConnInfo :=
  default [] (conns !! session_id).

(** Outcome of a statement: normal completion with a value, or an
    exception on its way up. *)
Inductive Exn :=
| HTTPException (status_code : Z) (detail : string)
| KeyError (key : string)
| AttributeError
| ChannelError (c : nat)
| RuntimeError (message : string).

Inductive Result (A : Type) :=
| Ok (a : A)
| Raise (e : Exn).
Arguments Ok {A} a.
Arguments Raise {A} e.

(** [ConnectionManager.connect].  The close of the replaced channel is
    inside [try ... except Exception: pass]. *)
Definition connect (new_ws : nat) (session_id client_id role : string)
    (conns : Connections) (w : World)
  : Result unit * Connections * World :=
  match ws_accept new_ws w with
  | None => (Raise (ChannelError new_ws), conns, w)
  | Some w1 =>
      let table := session_table conns session_id in
      let w2 :=
        match PyDict.get client_id table with
        | Some old =>
            match ws_close (ws old) 4009 "New connection from same client" w1 with
            | Some w' => w'
            | None => w1
            end
        | None => w1
        end in
      (Ok tt,
       <[session_id := PyDict.set client_id (mkConnInfo new_ws role) table]> conns,
       w2)
  end.

(** [ConnectionManager.disconnect] *)
Definition disconnect (session_id client_id : string) (conns : Connections)
  : Connections :=
  match conns !! session_id with
  | Some table => <[session_id := PyDict.pop client_id table]> conns
  | None => conns
  end.

Definition is_excluded (client_id : string) (exclude : option string) : bool :=
  match exclude with
  | Some e => String.eqb client_id e
  | None => false
  end.

(** The [for client_id, info in ... .items()] loop of [broadcast]: the
    world after the sends and the [dead] list. *)
Fixpoint broadcast_loop (items : list (string * ConnInfo)) (message : json)
    (exclude : option string) (w : World) (dead : list string)
  : World * list string :=
  match items with
  | [] => (w, dead)
  | (client_id, info) :: rest =>
      if is_excluded client_id exclude
      then broadcast_loop rest message exclude w dead
      else
        match ws_send_json (ws info) message w with
        | Some w' => broadcast_loop rest message exclude w' dead
        | None => broadcast_loop rest message exclude w (dead ++ [client_id])
        end
  end.

Definition pop_all (dead : list string) (table : PyDict.t ConnInfo)
  : PyDict.t ConnInfo :=
  fold_left (fun t d => PyDict.pop d t) dead table.

(** [ConnectionManager.broadcast], taken in one piece: no other coroutine
    registers or unregisters a client while the loop waits on a send.
    Then the loop walks the table it began with and nothing raises, the
    only statement that can being under [except Exception].  What the loop
    does when the table does change under it is [broadcast_live] below,
    of which this is the undisturbed case. *)
Definition broadcast (session_id : string) (message : json)
    (exclude : option string) (conns : Connections) (w : World)
  : Connections * World :=
  match conns !! session_id with
  | None => (conns, w)
  | Some table =>
      let '(w', dead) :=
        broadcast_loop (PyDict.items table) message exclude w [] in
      (<[session_id := pop_all dead table]> conns, w')
  end.

(** [ConnectionManager.send_to] *)
Definition send_to (session_id client_id : string) (message : json)
    (conns : Connections) (w : World) : World :=
  match PyDict.get client_id (session_table conns session_id) with
  | Some conn =>
      match ws_send_json (ws conn) message w with
      | Some w' => w'
      | None => w
      end
  | None => w
  end.

Definition get_connected_teams (session_id : string) (conns : Connections)
  : list string :=
  PyDict.keys (session_table conns session_id).

Definition count (session_id : string) (conns : Connections) : Z :=
  Z.of_nat (length (session_table conns session_id)).

(** ** main.py *)

(** The module-level state of [main.py], together with the channels. *)
Record App := mkApp {
  manager : Connections;
  rate_limiter : RateLimiter;
  sessions : gmap string SessionState;
  teams_db : PyDict.t TeamInfo;
  world : World
}.

Definition with_manager (c : Connections) (a : App) : App :=
  mkApp c (rate_limiter a) (sessions a) (teams_db a) (world a).
Definition with_rate_limiter (r : RateLimiter) (a : App) : App :=
  mkApp (manager a) r (sessions a) (teams_db a) (world a).
Definition with_sessions (s : gmap string SessionState) (a : App) : App :=
  mkApp (manager a) (rate_limiter a) s (teams_db a) (world a).
Definition with_teams_db (t : PyDict.t TeamInfo) (a : App) : App :=
  mkApp (manager a) (rate_limiter a) (sessions a) t (world a).
Definition with_world (w : World) (a : App) : App :=
  mkApp (manager a) (rate_limiter a) (sessions a) (teams_db a) w.

(** Statements of [main.py]: state in, outcome and state out. *)
Definition M (A : Type) : Type := App -> Result A * App.

Definition ret {A} (a : A) : M A := fun st => (Ok a, st).
Definition raise {A} (e : Exn) : M A := fun st => (Raise e, st).
Definition bind {A B} (m : M A) (k : A -> M B) : M B :=
  fun st =>
    match m st with
    | (Ok a, st') => k a st'
    | (Raise e, st') => (Raise e, st')
    end.
Definition gets {A} (f : App -> A) : M A := fun st => (Ok (f st), st).
Definition modify (f : App -> App) : M unit := fun st => (Ok tt, f st).

Notation "x <- c ;; k" := (bind c (fun x => k))
  (at level 100, c at next level, right associativity).
Notation "c ;; k" := (bind c (fun _ => k))
  (at level 100, right associativity).

(** [d[k]] on a [gmap] and on a [PyDict.t]: [KeyError] when absent. *)
Definition subscript {A} (k : string) (o : option A) : M A :=
  match o with Some a => ret a | None => raise (KeyError k) end.

(** [await websocket.send_json(message)] outside any [try]. *)
Definition send_json (c : nat) (message : json) : M unit :=
  fun st =>
    match ws_send_json c message (world st) with
    | Some w => (Ok tt, with_world w st)
    | None => (Raise (ChannelError c), st)
    end.

(** [await manager.broadcast(...)], undisturbed: see [broadcast]. *)
Definition manager_broadcast (session_id : string) (message : json)
    (exclude : option string) : M unit :=
  fun st =>
    let '(conns, w) :=
      broadcast session_id message exclude (manager st) (world st) in
    (Ok tt, with_world w (with_manager conns st)).

(** *** Seeding *)

Definition seed_teams : PyDict.t TeamInfo :=
  PyDict.set "phoenix" (mkTeamInfo "phoenix" "Phoenix" 0 false None)
    (PyDict.set "gadzit" (mkTeamInfo "gadzit" "GadzIT" 0 false None) []).

Definition seed_session : SessionState :=
  mkSessionState "main" DISABLED None None 0.

(** The state after [seed_initial_data], for a given set of channels. *)
Definition initial_app (w : World) : App :=
  mkApp ∅ RateLimiter_default {["main" := seed_session]} seed_teams w.

(** *** Helpers *)

Definition get_session (session_id : string) : M SessionState :=
  st <- gets sessions ;;
  match st !! session_id with
  | Some s => ret s
  | None => raise (HTTPException 404 "Session not found")
  end.

Definition team_json (t : TeamInfo) : json :=
  JObj [("id", JStr (team_id t)); ("name", JStr (team_name t));
        ("score", JInt (score t)); ("is_connected", JBool (is_connected t))].

Definition get_duel_payload (teams : PyDict.t TeamInfo)
  : list (string * json) :=
  match PyDict.values teams with
  | ta :: tb :: _ => [("team_a", team_json ta); ("team_b", team_json tb)]
  | _ => []
  end.

(** [teams_db[w].team_name if w and w in teams_db else None]; the empty
    string is falsy. *)
Definition winner_name_of (winner : option string) (teams : PyDict.t TeamInfo)
  : option string :=
  match winner with
  | Some w =>
      if String.eqb w "" then None
      else match PyDict.get w teams with
           | Some t => Some (team_name t)
           | None => None
           end
  | None => None
  end.

Definition state_sync (session : SessionState) (teams : PyDict.t TeamInfo)
  : json :=
  JObj ([("type", JStr "state_sync");
         ("buzzer_state", JStr (BuzzerState_value (buzzer_state session)));
         ("buzzer_winner", json_opt JStr (buzzer_winner session));
         ("buzzer_winner_name",
            json_opt JStr (winner_name_of (buzzer_winner session) teams));
         ("buzzer_timestamp", json_opt JFloat (buzzer_timestamp session));
         ("question_number", JInt (question_number session))]
        ++ get_duel_payload teams)%list.

Definition broadcast_state (session_id : string) : M unit :=
  ss <- gets sessions ;;
  session <- subscript session_id (ss !! session_id) ;;
  teams <- gets teams_db ;;
  manager_broadcast session_id (state_sync session teams) None.

(** Assignment to attributes of the session object held in [sessions]. *)
Definition set_session (session_id : string) (s : SessionState) : M unit :=
  modify (fun st => with_sessions (<[session_id := s]> (sessions st)) st).

(** *** Administrative endpoints (the bodies, past [require_admin]) *)

Definition enable_buzzer (sid : string) : M json :=
  session <- get_session sid ;;
  if BuzzerState_eqb (buzzer_state session) LOCKED
  then raise (HTTPException 400 "Reset buzzer first")
  else
    let session' :=
      mkSessionState (session_id session) ENABLED None None
                     (question_number session + 1) in
    set_session sid session' ;;
    broadcast_state sid ;;
    ret (JObj [("status", JStr "enabled");
               ("question_number", JInt (question_number session'))]).

Definition disable_buzzer (sid : string) : M json :=
  ss <- gets sessions ;;
  session <- subscript sid (ss !! sid) ;;
  set_session sid
    (mkSessionState (session_id session) DISABLED (buzzer_winner session)
                    (buzzer_timestamp session) (question_number session)) ;;
  broadcast_state sid ;;
  ret (JObj [("status", JStr "disabled")]).

Definition reset_buzzer (sid : string) : M json :=
  ss <- gets sessions ;;
  session <- subscript sid (ss !! sid) ;;
  set_session sid
    (mkSessionState (session_id session) DISABLED None None
                    (question_number session)) ;;
  broadcast_state sid ;;
  ret (JObj [("status", JStr "reset")]).

Definition with_score (z : Z) (t : TeamInfo) : TeamInfo :=
  mkTeamInfo (team_id t) (team_name t) z (is_connected t) (joined_at t).

(** [req] is an [AdminScoreUpdate]: a team id and a delta. *)
Definition update_score (req_team_id : string) (req_delta : Z) : M json :=
  teams <- gets teams_db ;;
  match PyDict.get req_team_id teams with
  | None => raise (HTTPException 404 "Team not found")
  | Some team =>
      let team' := with_score (Z.max 0 (score team + req_delta)) team in
      modify (with_teams_db (PyDict.set req_team_id team' teams)) ;;
      broadcast_state "main" ;;
      ret (JObj [("team_id", JStr req_team_id);
                 ("new_score", JInt (score team'))])
  end.

Definition zero_scores (teams : PyDict.t TeamInfo) : PyDict.t TeamInfo :=
  map (fun kv => (fst kv, with_score 0 (snd kv))) teams.

Definition reset_scores : M json :=
  modify (fun st => with_teams_db (zero_scores (teams_db st)) st) ;;
  ss <- gets sessions ;;
  match ss !! "main" with
  | Some session =>
      set_session "main"
        (mkSessionState (session_id session) DISABLED None
                        (buzzer_timestamp session) 0)
  | None => ret tt
  end ;;
  broadcast_state "main" ;;
  ret (JObj [("status", JStr "reset")]).

(** [str.lower] on ASCII strings: there Python changes the letters [A] to
    [Z] and nothing else.  Python also lower-cases letters outside ASCII
    ([É] to [é]), which this function, working on bytes, does not follow:
    what is stated about lower-cased ids is stated for ASCII ids, see
    [is_ascii]. *)
Definition lower_ascii (c : Ascii.ascii) : Ascii.ascii :=
  let n := Ascii.N_of_ascii c in
  if ((65 <=? n) && (n <=? 90))%N then Ascii.ascii_of_N (n + 32) else c.

Fixpoint lower (s : string) : string :=
  match s with
  | EmptyString => EmptyString
  | String c s' => String (lower_ascii c) (lower s')
  end.

Definition set_teams (team_a_id team_a_name team_b_id team_b_name : string)
  : M json :=
  let a := lower team_a_id in
  let b := lower team_b_id in
  modify (with_teams_db
            (PyDict.set b (mkTeamInfo b team_b_name 0 false None)
               (PyDict.set a (mkTeamInfo a team_a_name 0 false None) []))) ;;
  ss <- gets sessions ;;
  match ss !! "main" with
  | Some session =>
      set_session "main"
        (mkSessionState (session_id session) DISABLED None
                        (buzzer_timestamp session) 0)
  | None => ret tt
  end ;;
  broadcast_state "main" ;;
  teams <- gets teams_db ;;
  ret (JObj (("status", JStr "teams_set") :: get_duel_payload teams)).

Definition panic_button : M json :=
  ss <- gets sessions ;;
  match ss !! "main" with
  | Some session =>
      set_session "main"
        (mkSessionState (session_id session) DISABLED None None
                        (question_number session))
  | None => ret tt
  end ;;
  broadcast_state "main" ;;
  ret (JObj [("status", JStr "panic_executed")]).

(** *** The WebSocket endpoint *)

(** What the handshake finds in the query string: no token, a token that
    [verify_ws_token] rejects, or a verified payload. *)
Inductive Token :=
| Missing
| Invalid
| Verified (sub role : string).

Definition close (c : nat) (code : Z) (reason : string) : M unit :=
  fun st =>
    match ws_close c code reason (world st) with
    | Some w => (Ok tt, with_world w st)
    | None => (Raise (ChannelError c), st)
    end.

Definition manager_connect (new_ws : nat) (sid client_id role : string)
  : M unit :=
  fun st =>
    let '(r, conns, w) :=
      connect new_ws sid client_id role (manager st) (world st) in
    (r, with_world w (with_manager conns st)).

Definition mark_connected (flag : bool) (joined : option float) (t : TeamInfo)
  : TeamInfo :=
  mkTeamInfo (team_id t) (team_name t) (score t) flag
             (match joined with Some q => Some q | None => joined_at t end).

Definition connected_msg (client_id role : string) (session : SessionState)
    (teams : PyDict.t TeamInfo) : json :=
  JObj ([("type", JStr "connected");
         ("client_id", JStr client_id);
         ("role", JStr role);
         ("buzzer_state", JStr (BuzzerState_value (buzzer_state session)));
         ("buzzer_winner", json_opt JStr (buzzer_winner session));
         ("buzzer_winner_name",
            json_opt JStr (winner_name_of (buzzer_winner session) teams));
         ("question_number", JInt (question_number session))]
        ++ get_duel_payload teams)%list.

(** The endpoint up to the receive loop; [true] when the loop is entered. *)
Definition websocket_open (websocket : nat) (sid : string) (token : Token)
    (now : float) : M bool :=
  match token with
  | Missing => close websocket 4001 "Missing token" ;; ret false
  | Invalid => close websocket 4003 "Invalid token" ;; ret false
  | Verified client_id role =>
      ss <- gets sessions ;;
      match ss !! sid with
      | None => close websocket 4004 "Session not found" ;; ret false
      | Some _ =>
          manager_connect websocket sid client_id role ;;
          teams <- gets teams_db ;;
          (if String.eqb role "participant"
           then match PyDict.get client_id teams with
                | Some t =>
                    modify (with_teams_db
                      (PyDict.set client_id
                         (mark_connected true (Some now) t) teams))
                | None => ret tt
                end
           else ret tt) ;;
          ss <- gets sessions ;;
          session <- subscript sid (ss !! sid) ;;
          teams <- gets teams_db ;;
          send_json websocket (connected_msg client_id role session teams) ;;
          (if String.eqb role "participant"
           then manager_broadcast sid
                  (JObj ([("type", JStr "opponent_connected");
                          ("team_id", JStr client_id)]
                         ++ get_duel_payload teams)%list)
                  (Some client_id)
           else ret tt) ;;
          ret true
      end
  end.

(** The clock readings of one loop iteration, in the order of the source
    lines that make them. *)
Record Clock := mkClock {
  t_is_limited : float;
  t_record : float;
  t_buzz : float;
  t_pong : float
}.

Definition msg_type_is (data : json) (name : string) : bool :=
  match field "type" data with
  | Some (JStr s) => String.eqb s name
  | _ => false
  end.

Definition rate_limited_msg : json :=
  JObj [("type", JStr "error"); ("message", JStr "Rate limited")].

Definition not_enabled_msg : json :=
  JObj [("type", JStr "buzz_rejected"); ("reason", JStr "not_enabled")].

Definition bad_json_msg : json :=
  JObj [("type", JStr "error"); ("message", JStr "Bad JSON")].

Definition buzzer_locked_msg (client_id winner_name : string)
    (loser : option TeamInfo) (ts : float) (teams : PyDict.t TeamInfo) : json :=
  JObj ([("type", JStr "buzzer_locked");
         ("winner_id", JStr client_id);
         ("winner_name", JStr winner_name);
         ("loser_id", json_opt (fun t => JStr (team_id t)) loser);
         ("loser_name", json_opt (fun t => JStr (team_name t)) loser);
         ("timestamp", JFloat ts);
         ("buzzer_state", JStr (BuzzerState_value LOCKED))]
        ++ get_duel_payload teams)%list.

(** The [buzz] branch of the receive loop. *)
Definition on_buzz (websocket : nat) (sid client_id : string) (clk : Clock)
  : M unit :=
  rl <- gets rate_limiter ;;
  let (limited, rl') := is_limited (t_is_limited clk) client_id rl in
  modify (with_rate_limiter rl') ;;
  if limited then send_json websocket rate_limited_msg
  else
    modify (with_rate_limiter (record (t_record clk) client_id rl')) ;;
    ss <- gets sessions ;;
    session <- subscript sid (ss !! sid) ;;
    if negb (BuzzerState_eqb (buzzer_state session) ENABLED)
    then send_json websocket not_enabled_msg
    else
      let ts := t_buzz clk in
      set_session sid
        (mkSessionState (session_id session) LOCKED (Some client_id)
                        (Some ts) (question_number session)) ;;
      teams <- gets teams_db ;;
      team <- subscript client_id (PyDict.get client_id teams) ;;
      let loser :=
        List.find (fun t => negb (String.eqb (team_id t) client_id))
                  (PyDict.values teams) in
      manager_broadcast sid
        (buzzer_locked_msg client_id (team_name team) loser ts teams) None.

(** One iteration of the receive loop on a received text; [raw] is what
    [json.loads] returns for it, [None] when it raises [JSONDecodeError].
    A text on which [json.loads] raises anything else (a [RecursionError]
    on deep nesting, say) is not an input of this function: the exception
    is not caught and the handler ends.  [Ok tt] is the next iteration; an
    exception leaves the loop. *)
Definition handle_message (websocket : nat) (sid client_id role : string)
    (clk : Clock) (raw : option json) : M unit :=
  match raw with
  | None => send_json websocket bad_json_msg
  | Some data =>
      match data with
      | JObj _ =>
          if msg_type_is data "buzz" && String.eqb role "participant"
          then on_buzz websocket sid client_id clk
          else if msg_type_is data "ping"
          then send_json websocket
                 (JObj [("type", JStr "pong"); ("ts", JFloat (t_pong clk))])
          else ret tt
      | _ => raise AttributeError
      end
  end.

(** The [except WebSocketDisconnect] handler. *)
Definition on_disconnect (sid client_id role : string) : M unit :=
  modify (fun st => with_manager (disconnect sid client_id (manager st)) st) ;;
  teams <- gets teams_db ;;
  (if String.eqb role "participant"
   then match PyDict.get client_id teams with
        | Some t =>
            modify (with_teams_db
              (PyDict.set client_id (mark_connected false None t) teams))
        | None => ret tt
        end
   else ret tt) ;;
  teams <- gets teams_db ;;
  manager_broadcast sid
    (JObj ([("type", JStr "opponent_disconnected");
            ("team_id", JStr client_id)]
           ++ get_duel_payload teams)%list)
    None.

(** The synchronous prefix of the [buzz] branch (up to the first [await])
    and the awaited output that follows it.  [on_buzz] is their
    composition; the split is used to interleave handlers. *)
Inductive BuzzIO :=
| Reply (message : json)
| Broadcast (message : json).

Definition buzz_decide (sid client_id : string) (clk : Clock) : M BuzzIO :=
  rl <- gets rate_limiter ;;
  let (limited, rl') := is_limited (t_is_limited clk) client_id rl in
  modify (with_rate_limiter rl') ;;
  if limited then ret (Reply rate_limited_msg)
  else
    modify (with_rate_limiter (record (t_record clk) client_id rl')) ;;
    ss <- gets sessions ;;
    session <- subscript sid (ss !! sid) ;;
    if negb (BuzzerState_eqb (buzzer_state session) ENABLED)
    then ret (Reply not_enabled_msg)
    else
      let ts := t_buzz clk in
      set_session sid
        (mkSessionState (session_id session) LOCKED (Some client_id)
                        (Some ts) (question_number session)) ;;
      teams <- gets teams_db ;;
      team <- subscript client_id (PyDict.get client_id teams) ;;
      let loser :=
        List.find (fun t => negb (String.eqb (team_id t) client_id))
                  (PyDict.values teams) in
      ret (Broadcast
             (buzzer_locked_msg client_id (team_name team) loser ts teams)).

Definition buzz_io (websocket : nat) (sid : string) (io : BuzzIO) : M unit :=
  match io with
  | Reply message => send_json websocket message
  | Broadcast message => manager_broadcast sid message None
  end.

(** ** The session as a transition system *)

(** Everything that can happen to a running server: an administrative
    call, a handshake, a received text, a disconnect, a peer going away. *)
Inductive Op :=
| OpEnable (sid : string)
| OpDisable (sid : string)
| OpReset (sid : string)
| OpUpdateScore (req_team_id : string) (req_delta : Z)
| OpResetScores
| OpSetTeams (team_a_id team_a_name team_b_id team_b_name : string)
| OpPanic
| OpOpen (websocket : nat) (sid : string) (token : Token) (now : float)
| OpMessage (websocket : nat) (sid client_id role : string) (clk : Clock)
            (raw : option json)
| OpDisconnect (sid client_id role : string)
| OpPeerGone (c : nat).

Definition peer_gone (c : nat) (w : World) : World :=
  match w !! c with
  | Some ch => <[c := mkChannel (accepted ch) (closed ch) true (sent ch)]> w
  | None => w
  end.

Definition exec (op : Op) (st : App) : App :=
  match op with
  | OpEnable sid => snd (enable_buzzer sid st)
  | OpDisable sid => snd (disable_buzzer sid st)
  | OpReset sid => snd (reset_buzzer sid st)
  | OpUpdateScore t d => snd (update_score t d st)
  | OpResetScores => snd (reset_scores st)
  | OpSetTeams a an b bn => snd (set_teams a an b bn st)
  | OpPanic => snd (panic_button st)
  | OpOpen c sid tok now => snd (websocket_open c sid tok now st)
  | OpMessage c sid cid r clk raw => snd (handle_message c sid cid r clk raw st)
  | OpDisconnect sid cid r => snd (on_disconnect sid cid r st)
  | OpPeerGone c => with_world (peer_gone c (world st)) st
  end.

Definition run (ops : list Op) (st : App) : App :=
  fold_left (fun s op => exec op s) ops st.

(** States the server can be in, from the seeded state over any set of
    channels. *)
Inductive reachable : App -> Prop :=
| reachable_init (w : World) : reachable (initial_app w)
| reachable_step (op : Op) (st : App) :
    reachable st -> reachable (exec op st).

(** The invariant the code maintains on a session. *)
Definition session_ok (s : SessionState) : Prop :=
  (buzzer_state s = ENABLED ->
     buzzer_winner s = None /\ buzzer_timestamp s = None) /\
  (buzzer_state s = LOCKED ->
     is_Some (buzzer_winner s) /\ is_Some (buzzer_timestamp s)) /\
  (is_Some (buzzer_winner s) -> is_Some (buzzer_timestamp s)).

(** The invariant as the data model words it. *)
Definition both_or_neither (s : SessionState) : Prop :=
  (is_Some (buzzer_winner s) <-> is_Some (buzzer_timestamp s)) /\
  (buzzer_state s = DISABLED \/ buzzer_state s = ENABLED ->
     buzzer_winner s = None /\ buzzer_timestamp s = None) /\
  (buzzer_state s = LOCKED ->
     is_Some (buzzer_winner s) /\ is_Some (buzzer_timestamp s)).

(** ** Interleaved buzz handlers

    The receive loops run as coroutines on one event loop: control changes
    hands only at an [await].  A handler that has received a [buzz] text
    therefore runs [buzz_decide] in one piece, and its output in a later
    piece.  A schedule names, piece by piece, the handler that runs. *)

Inductive Phase :=
| Waiting
| Decided (io : BuzzIO)
| Finished (io : BuzzIO)
| Crashed (io : option BuzzIO) (e : Exn).

Record Task := mkTask {
  tk_ws : nat;
  tk_client : string;
  tk_clock : Clock;
  tk_phase : Phase;
  (** set by the scheduler when the task's piece moved the session from
      [ENABLED] to [LOCKED] *)
  tk_won : bool
}.

Definition attempt (c : nat) (client_id : string) (clk : Clock) : Task :=
  mkTask c client_id clk Waiting false.

Definition state_of (sid : string) (st : App) : option BuzzerState :=
  buzzer_state <$> (sessions st !! sid).

Definition moved_to_locked (sid : string) (before after : App) : bool :=
  match state_of sid before, state_of sid after with
  | Some ENABLED, Some LOCKED => true
  | _, _ => false
  end.

Definition step_task (sid : string) (t : Task) (st : App) : Task * App :=
  match tk_phase t with
  | Waiting =>
      let (r, st') := buzz_decide sid (tk_client t) (tk_clock t) st in
      let won := moved_to_locked sid st st' in
      (mkTask (tk_ws t) (tk_client t) (tk_clock t)
              (match r with Ok io => Decided io | Raise e => Crashed None e end)
              won,
       st')
  | Decided io =>
      let (r, st') := buzz_io (tk_ws t) sid io st in
      (mkTask (tk_ws t) (tk_client t) (tk_clock t)
              (match r with
               | Ok _ => Finished io
               | Raise e => Crashed (Some io) e
               end)
              (tk_won t),
       st')
  | Finished _ | Crashed _ _ => (t, st)
  end.

Fixpoint run_schedule (sid : string) (schedule : list nat)
    (pool : list Task) (st : App) : list Task * App :=
  match schedule with
  | [] => (pool, st)
  | i :: rest =>
      match pool !! i with
      | Some t =>
          let (t', st') := step_task sid t st in
          run_schedule sid rest (<[i := t']> pool) st'
      | None => run_schedule sid rest pool st
      end
  end.

Definition winners (pool : list Task) : list Task :=
  List.filter tk_won pool.

(** What the first piece of a task decided, once it has run. *)
Definition decision (t : Task) : option BuzzIO :=
  match tk_phase t with
  | Waiting => None
  | Decided io | Finished io => Some io
  | Crashed io _ => io
  end.

Definition has_run (t : Task) : bool :=
  match tk_phase t with Waiting => false | _ => true end.

(** [st'] differs from [st] in the connection table and the channels only. *)
Definition same_core (st st' : App) : Prop :=
  sessions st' = sessions st /\
  teams_db st' = teams_db st /\
  rate_limiter st' = rate_limiter st.

(** The session after a successful enable. *)
Definition enabled_session (s : SessionState) : SessionState :=
  mkSessionState (session_id s) ENABLED None None (question_number s + 1).

(** A roster in which the first team has 30 points. *)
Definition roster_30 : PyDict.t TeamInfo :=
  PyDict.set "phoenix" (mkTeamInfo "phoenix" "Phoenix" 0 false None)
    (PyDict.set "gadzit" (mkTeamInfo "gadzit" "GadzIT" 30 false None) []).

(** The session after an accepted buzz. *)
Definition locked_session (s : SessionState) (client_id : string) (ts : float)
  : SessionState :=
  mkSessionState (session_id s) LOCKED (Some client_id) (Some ts)
                 (question_number s).

(** An inbound message is dispatched when it is a [buzz] from a
    participant or a [ping]. *)
Definition dispatched (role : string) (data : json) : bool :=
  (msg_type_is data "buzz" && String.eqb role "participant")
  || msg_type_is data "ping".

(** ** A concrete duel, for the examples *)

Definition fresh_channel : Channel := mkChannel false None false [].

Definition two_channels : World :=
  {[ 0%nat := fresh_channel; 1%nat := fresh_channel ]}.

Definition clock_at (t : float) : Clock := mkClock t t t t.

Definition buzz_text : json := JObj [("type", JStr "buzz")].

(** Both teams of the seeded roster have joined, on channels 0 and 1. *)
Definition duel_ready : App :=
  run [OpOpen 0 "main" (Verified "gadzit" "participant") 0;
       OpOpen 1 "main" (Verified "phoenix" "participant") 0]
      (initial_app two_channels).

Definition buzz_from (c : nat) (client_id : string) (t : float) : Op :=
  OpMessage c "main" client_id "participant" (clock_at t) (Some buzz_text).

(** ... the buzzer is opened and [gadzit] buzzes first. *)
Definition duel_locked : App :=
  run [OpEnable "main"; buzz_from 0 "gadzit" 1] duel_ready.

(** [st'] is [st] after one message to channel [c] and nothing else:
    no other channel, no session, no roster entry, no registration
    changed. *)
Definition unicast (st st' : App) (c : nat) (message : json) : Prop :=
  received (world st') c = (received (world st) c ++ [message])%list /\
  (forall c', c' <> c -> world st' !! c' = world st !! c') /\
  sessions st' = sessions st /\
  teams_db st' = teams_db st /\
  manager st' = manager st.

(** ** Vocabulary for [broadcast] *)

(** The registrations a broadcast addresses. *)
Definition targets (table : PyDict.t ConnInfo) (exclude : option string)
  : list (string * ConnInfo) :=
  List.filter (fun kv => negb (is_excluded (fst kv) exclude)) table.

(** How many of them sit on channel [c]. *)
Definition deliveries (c : nat) (tgts : list (string * ConnInfo)) : nat :=
  length (List.filter (fun kv => Nat.eqb (ws (snd kv)) c) tgts).

(** The clients among them whose channel cannot be sent to. *)
Definition unreachable (w : World) (tgts : list (string * ConnInfo))
  : list string :=
  map fst (List.filter (fun kv => negb (sendable w (ws (snd kv)))) tgts).

(** ** Invariants of statements *)

(** [m] maintains [I], whether it completes or raises. *)
Definition keeps {A} (I : App -> Prop) (m : M A) : Prop :=
  forall st, I st -> I (snd (m st)).

(** [m] does not change the component [proj] of the state. *)
Definition unchanged {A B} (proj : App -> B) (m : M A) : Prop :=
  forall st, proj (snd (m st)) = proj st.

Definition sessions_ok (st : App) : Prop :=
  forall sid s, sessions st !! sid = Some s -> session_ok s.

(** No client is registered twice in a session. *)
Definition manager_wf (st : App) : Prop :=
  forall sid table, manager st !! sid = Some table -> PyDict.wf table.


(** The duel with a third, still unused, channel: a second tab. *)
Definition three_channels : World :=
  {[ 0%nat := fresh_channel; 1%nat := fresh_channel; 2%nat := fresh_channel ]}.

Definition duel_with_spare : App :=
  run [OpOpen 0 "main" (Verified "gadzit" "participant") 0;
       OpOpen 1 "main" (Verified "phoenix" "participant") 0]
      (initial_app three_channels).

(** What holds of the handlers and the session at every point of a
    schedule started on the enabled session [s]: either nobody has won,
    the session is as it was and every handler that has run was refused by
    the limiter; or exactly one handler has won, the session is locked for
    it, and every other handler that has run was refused. *)
Definition pool_inv (sid : string) (s : SessionState) (pool : list Task)
    (st : App) : Prop :=
  (forall t, t ∈ pool -> has_run t = false -> tk_won t = false) /\
  ((sessions st !! sid = Some s /\
    length (winners pool) = 0%nat /\
    (forall t, t ∈ pool -> has_run t = true ->
               decision t = Some (Reply rate_limited_msg)))
   \/
   (exists c ts,
      sessions st !! sid = Some (locked_session s c ts) /\
      length (winners pool) = 1%nat /\
      (forall t, t ∈ pool -> tk_won t = true ->
                 tk_client t = c /\ t_buzz (tk_clock t) = ts) /\
      (forall t, t ∈ pool -> has_run t = true -> tk_won t = false ->
                 decision t = Some (Reply rate_limited_msg) \/
                 decision t = Some (Reply not_enabled_msg)))).

(** The handlers of a list of buzz texts that have just been received:
    channel, client and clock readings of each. *)
Definition pool_of (attempts : list (nat * string * Clock)) : list Task :=
  map (fun a => attempt (fst (fst a)) (snd (fst a)) (snd a)) attempts.

(** The second team buzzes three times while the buzzer is still closed,
    then the buzzer is opened. *)
Definition duel_open_after_spam : App :=
  run [buzz_from 1 "phoenix" 1; buzz_from 1 "phoenix" 2;
       buzz_from 1 "phoenix" 3; OpEnable "main"] duel_ready.

(** The buzzer is opened on the ready duel. *)
Definition duel_open : App := exec (OpEnable "main") duel_ready.

(** The session after reset and after disable. *)
Definition reset_session (s : SessionState) : SessionState :=
  mkSessionState (session_id s) DISABLED None None (question_number s).

Definition disabled_session (s : SessionState) : SessionState :=
  mkSessionState (session_id s) DISABLED (buzzer_winner s)
                 (buzzer_timestamp s) (question_number s).

(** The only session is [main], and clients are registered under it only. *)
Definition only_main (st : App) : Prop :=
  (forall sid, is_Some (sessions st !! sid) <-> sid = "main") /\
  (forall sid, is_Some (manager st !! sid) -> sid = "main") /\
  (forall s, sessions st !! "main" = Some s -> session_id s = "main").

(** What every roster the server builds satisfies: no id twice, every
    entry filed under its own id, no negative score, one or two teams. *)
Definition roster_ok (teams : PyDict.t TeamInfo) : Prop :=
  PyDict.wf teams /\
  (forall k t, PyDict.get k teams = Some t -> team_id t = k /\ 0 <= score t) /\
  (1 <= length teams <= 2)%nat.

Definition roster_inv (st : App) : Prop := roster_ok (teams_db st).

(** Ids and names of the roster, in its order. *)
Definition roster_labels (teams : PyDict.t TeamInfo)
  : list (string * string * string) :=
  map (fun kv => (fst kv, team_id (snd kv), team_name (snd kv))) teams.

Definition labels_are (l : list (string * string * string)) (st : App)
  : Prop :=
  roster_labels (teams_db st) = l.

(** No ledger is longer than the configured maximum. *)
Definition ledger_bounded (rl : RateLimiter) : Prop :=
  forall c, Z.of_nat (length (rl_events rl c)) <= max_events rl.

Definition rl_ok (rl : RateLimiter) : Prop :=
  max_events rl = 3 /\ window rl = 5%float /\ ledger_bounded rl.

Definition rl_inv (st : App) : Prop := rl_ok (rate_limiter st).

(** The strings on which [lower] is [str.lower]. *)
Fixpoint is_ascii (s : string) : bool :=
  match s with
  | EmptyString => true
  | String c s' => (Ascii.N_of_ascii c <? 128)%N && is_ascii s'
  end.

(** A new team as [set_teams] files it. *)
Definition new_team (id name : string) : TeamInfo :=
  mkTeamInfo id name 0 false None.

(** The reply to a [ping]. *)
Definition pong_msg (clk : Clock) : json :=
  JObj [("type", JStr "pong"); ("ts", JFloat (t_pong clk))].

(** The ready duel after the teams were replaced and the buzzer opened:
    the first connection still belongs to [gadzit], which is no longer in
    the roster. *)
Definition duel_renamed : App :=
  run [OpSetTeams "Red" "Red Team" "Blue" "Blue Team"; OpEnable "main"]
      duel_ready.

(** The team named as loser of a buzz by [client_id]. *)
Definition loser_of (client_id : string) (teams : PyDict.t TeamInfo)
  : option TeamInfo :=
  List.find (fun t => negb (String.eqb (team_id t) client_id))
            (PyDict.values teams).

(** Every client registered in session [sid] of [st] on a channel that
    can be written to has [message] as the last thing it was sent in
    [st'], and is still registered. *)
Definition announced (sid : string) (st st' : App) (message : json) : Prop :=
  forall k info,
    PyDict.get k (session_table (manager st) sid) = Some info ->
    sendable (world st) (ws info) = true ->
    last (received (world st') (ws info)) = Some message /\
    PyDict.get k (session_table (manager st') sid) = Some info.

Definition opponent_disconnected_msg (client_id : string)
    (teams : PyDict.t TeamInfo) : json :=
  JObj ([("type", JStr "opponent_disconnected"); ("team_id", JStr client_id)]
        ++ get_duel_payload teams)%list.

(** The roster after [client_id] has joined with [role] at time [now]. *)
Definition joined_roster (client_id r : string) (now : float)
    (teams : PyDict.t TeamInfo) : PyDict.t TeamInfo :=
  if String.eqb r "participant"
  then match PyDict.get client_id teams with
       | Some t => PyDict.set client_id (mark_connected true (Some now) t) teams
       | None => teams
       end
  else teams.

Definition opponent_connected_msg (client_id : string)
    (teams : PyDict.t TeamInfo) : json :=
  JObj ([("type", JStr "opponent_connected"); ("team_id", JStr client_id)]
        ++ get_duel_payload teams)%list.

(** ** [broadcast] among other coroutines

    [broadcast] waits on every send, and while it waits the event loop
    runs the other handlers.  What they may do to the registrations during
    one such wait is an [Interference]: nothing, a call of
    [manager.disconnect] (the [except WebSocketDisconnect] handler,
    main.py 373) or a call of [manager.connect] (the handshake, main.py
    301), each with the arguments of the call.  One call per wait is
    considered: a registration removed and another added during the same
    wait would leave the size as it was, and what the iterator does then
    depends on the slots of the dictionary, which are not modelled. *)

Inductive Interference :=
| Quiet
| Disconnects (session_id client_id : string)
| Connects (new_ws : nat) (session_id client_id role : string).

Definition interfere (e : Interference) (conns : Connections) (w : World)
  : Connections * World :=
  match e with
  | Quiet => (conns, w)
  | Disconnects sid client_id => (disconnect sid client_id conns, w)
  | Connects new_ws sid client_id r =>
      let '(_, conns', w') := connect new_ws sid client_id r conns w in
      (conns', w')
  end.

(** The [for] loop of [broadcast] on the table itself, which is what
    [self._connections[session_id].items()] walks: not a copy.  The
    iterator was made when the table had [used] items and stands at
    position [pos]; [left] items are still to come.  Asked for the next
    item, it first compares the size of the table with [used] and raises
    [RuntimeError] when they differ.  A client that is excluded is skipped
    without a wait; every send is a wait, during which the head of [env]
    happens. *)
Fixpoint broadcast_live_loop (left pos used : nat) (session_id : string)
    (message : json) (exclude : option string) (env : list Interference)
    (conns : Connections) (w : World) (dead : list string)
  : Result (list string) * Connections * World :=
  let table := session_table conns session_id in
  if negb (length table =? used)%nat
  then (Raise (RuntimeError "dictionary changed size during iteration"),
        conns, w)
  else
    match left with
    | O => (Ok dead, conns, w)
    | S left' =>
        match table !! pos with
        | None => (Ok dead, conns, w)
        | Some (client_id, info) =>
            if is_excluded client_id exclude
            then broadcast_live_loop left' (S pos) used session_id message
                                     exclude env conns w dead
            else
              let '(w1, dead1) :=
                match ws_send_json (ws info) message w with
                | Some w' => (w', dead)
                | None => (w, (dead ++ [client_id])%list)
                end in
              let '(conns2, w2) := interfere (hd Quiet env) conns w1 in
              broadcast_live_loop left' (S pos) used session_id message
                                  exclude (tl env) conns2 w2 dead1
        end
    end.

(** [ConnectionManager.broadcast] with [env] happening during its sends.
    An exception of the loop leaves the function: the [dead] clients are
    not removed then. *)
Definition broadcast_live (env : list Interference) (session_id : string)
    (message : json) (exclude : option string) (conns : Connections)
    (w : World) : Result unit * Connections * World :=
  match conns !! session_id with
  | None => (Ok tt, conns, w)
  | Some table =>
      match broadcast_live_loop (length table) 0 (length table) session_id
                                message exclude env conns w [] with
      | (Ok dead, conns', w') =>
          (Ok tt,
           <[session_id := pop_all dead (session_table conns' session_id)]>
             conns',
           w')
      | (Raise e, conns', w') => (Raise e, conns', w')
      end
  end.

(** A screen watches the ready duel on the third channel, and the peer of
    the first team goes away. *)
Definition duel_watched : App :=
  run [OpOpen 2 "main" (Verified "screen" "screen") 0; OpPeerGone 0]
      duel_with_spare.

(** The roster after the handler of [client_id], of role [r], has seen
    the disconnect. *)
Definition left_roster (client_id r : string) (teams : PyDict.t TeamInfo)
  : PyDict.t TeamInfo :=
  if String.eqb r "participant"
  then match PyDict.get client_id teams with
       | Some t => PyDict.set client_id (mark_connected false None t) teams
       | None => teams
       end
  else teams.

(** * Facts *)

(** ** Dictionaries *)

Module PyDictFacts.
Section Facts.
Context {V : Type}.
Implicit Types (d : PyDict.t V) (k : string) (v : V).

Lemma get_set_eq k v d : PyDict.get k (PyDict.set k v d) = Some v.
Proof.
  induction d as [|[k' v'] d IH]; simpl.
  - by rewrite String.eqb_refl.
  - destruct (String.eqb_spec k k') as [->|Hne]; simpl.
    + by rewrite String.eqb_refl.
    + by destruct (String.eqb_spec k k').
Qed.

Lemma get_set_ne k k' v d :
  k <> k' -> PyDict.get k' (PyDict.set k v d) = PyDict.get k' d.
Proof.
  intros Hne. induction d as [|[k0 v0] d IH]; simpl.
  - destruct (String.eqb_spec k' k); congruence.
  - destruct (String.eqb_spec k k0) as [->|Hk]; simpl.
    + destruct (String.eqb_spec k' k0); congruence.
    + by rewrite IH.
Qed.

Lemma get_None k d : PyDict.get k d = None <-> k ∉ PyDict.keys d.
Proof.
  induction d as [|[k' v'] d IH]; simpl.
  - split; [intros _; apply not_elem_of_nil | done].
  - rewrite not_elem_of_cons.
    destruct (String.eqb_spec k k') as [->|Hne].
    + split; [congruence | intros [Hk _]; congruence].
    + rewrite IH. tauto.
Qed.

Lemma get_Some_keys k v d : PyDict.get k d = Some v -> k ∈ PyDict.keys d.
Proof.
  intros H. destruct (decide (k ∈ PyDict.keys d)) as [|Hn]; [done|].
  apply get_None in Hn. congruence.
Qed.

Lemma keys_set_present k v d :
  k ∈ PyDict.keys d -> PyDict.keys (PyDict.set k v d) = PyDict.keys d.
Proof.
  induction d as [|[k' v'] d IH]; simpl.
  - intros H. by apply elem_of_nil in H.
  - rewrite elem_of_cons.
    destruct (String.eqb_spec k k') as [->|Hne]; simpl; [done|].
    intros [?|Hin]; [done|]. f_equal. by apply IH.
Qed.

Lemma keys_set_absent k v d :
  k ∉ PyDict.keys d ->
  PyDict.keys (PyDict.set k v d) = (PyDict.keys d ++ [k])%list.
Proof.
  induction d as [|[k' v'] d IH]; simpl; [done|].
  rewrite not_elem_of_cons. intros [Hne Hnin].
  destruct (String.eqb_spec k k'); [done|]. simpl. f_equal. by apply IH.
Qed.

Lemma wf_set k v d : PyDict.wf d -> PyDict.wf (PyDict.set k v d).
Proof.
  unfold PyDict.wf. intros Hwf.
  destruct (decide (k ∈ PyDict.keys d)) as [Hin|Hnin].
  - by rewrite keys_set_present.
  - rewrite keys_set_absent by done.
    apply NoDup_app. repeat split; [done| |apply NoDup_singleton].
    intros x Hx Hx'. apply list_elem_of_singleton in Hx'. by subst.
Qed.

Lemma keys_pop_subset k k' d :
  k' ∈ PyDict.keys (PyDict.pop k d) -> k' ∈ PyDict.keys d.
Proof.
  induction d as [|[k0 v0] d IH]; simpl; [done|].
  destruct (String.eqb_spec k k0) as [->|Hne]; simpl.
  - intros ?. by apply elem_of_cons; right.
  - rewrite !elem_of_cons. intros [->|Hin]; [by left | right; by apply IH].
Qed.

Lemma wf_pop k d : PyDict.wf d -> PyDict.wf (PyDict.pop k d).
Proof.
  unfold PyDict.wf. induction d as [|[k0 v0] d IH]; simpl; [done|].
  rewrite NoDup_cons. intros [Hnin Hnd].
  destruct (String.eqb_spec k k0) as [->|Hne]; simpl; [done|].
  apply NoDup_cons. split; [|by apply IH].
  intros Hin. apply Hnin. by eapply keys_pop_subset.
Qed.

Lemma get_pop_eq k d : PyDict.wf d -> PyDict.get k (PyDict.pop k d) = None.
Proof.
  unfold PyDict.wf. induction d as [|[k0 v0] d IH]; simpl; [done|].
  rewrite NoDup_cons. intros [Hnin Hnd].
  destruct (String.eqb_spec k k0) as [->|Hne]; simpl.
  - by apply get_None.
  - destruct (String.eqb_spec k k0); [done|]. by apply IH.
Qed.

Lemma get_pop_ne k k' d :
  k <> k' -> PyDict.get k' (PyDict.pop k d) = PyDict.get k' d.
Proof.
  intros Hne. induction d as [|[k0 v0] d IH]; simpl; [done|].
  destruct (String.eqb_spec k k0) as [->|Hk]; simpl.
  - destruct (String.eqb_spec k' k0); congruence.
  - by rewrite IH.
Qed.



End Facts.
End PyDictFacts.

(** ** Rate limiter *)

Lemma recent_events_elem (rl : RateLimiter) (now t : float) (events : list float) :
  t ∈ recent_events rl now events <->
  t ∈ events /\ (now - t <? window rl)%float = true.
Proof.
  unfold recent_events.
  rewrite !list_elem_of_In, filter_In. tauto.
Qed.

Lemma rl_events_is_limited (now : float) (client_id : string) (rl : RateLimiter) :
  rl_events (snd (is_limited now client_id rl)) client_id =
  recent_events rl now (rl_events rl client_id).
Proof. unfold is_limited, rl_events at 1. simpl. by rewrite lookup_insert_eq. Qed.

Lemma rl_events_record (now : float) (client_id : string) (rl : RateLimiter) :
  rl_events (record now client_id rl) client_id =
  (rl_events rl client_id ++ [now])%list.
Proof. unfold record, rl_events at 1. simpl. by rewrite lookup_insert_eq. Qed.

(** One pass through lines 340-343 seen on the client's ledger [ev]. *)
Lemma rl_attempt_ledger (t_check t_rec : float) (p : string) (rl : RateLimiter)
    (ev : list float) :
  rl_events rl p = ev ->
  let recent := List.filter (fun t => (t_check - t <? window rl)%float) ev in
  let limited := Z.of_nat (length recent) >=? max_events rl in
  let out := rl_attempt t_check t_rec p rl in
  fst out = limited /\
  rl_events (snd out) p =
    (if limited then recent else (recent ++ [t_rec])%list) /\
  max_events (snd out) = max_events rl /\
  window (snd out) = window rl.
Proof.
  intros Hev recent limited out.
  pose proof (rl_events_is_limited t_check p rl) as Hk.
  rewrite Hev in Hk. fold (recent_events rl t_check ev) in recent.
  unfold out, rl_attempt.
  destruct (is_limited t_check p rl) as [b rl'] eqn:Hlim.
  assert (Hb : b = limited).
  { unfold is_limited in Hlim. injection Hlim as <- _. by rewrite Hev. }
  assert (Hcfg : max_events rl' = max_events rl /\ window rl' = window rl).
  { unfold is_limited in Hlim. by injection Hlim as _ <-. }
  destruct Hcfg as [Hmax Hwin].
  simpl in Hk. subst b. destruct limited; simpl.
  - by split_and!.
  - rewrite rl_events_record, Hk. by split_and!.
Qed.

(** The subtraction of [is_limited] rounds: to the limiter an entry made
    at [2^-60], checked at 5, is five seconds old, and it is dropped. *)
Lemma is_limited_rounds (p : string) :
  let rl := record 0x1p-60 p (record 0x1p-60 p
              (record 0x1p-60 p RateLimiter_default)) in
  rl_events rl p = [0x1p-60; 0x1p-60; 0x1p-60]%float /\
  fst (is_limited 5 p rl) = false /\
  rl_events (snd (is_limited 5 p rl)) p = [].
Proof.
  intros rl.
  assert (Hev : rl_events rl p = [0x1p-60; 0x1p-60; 0x1p-60]%float).
  { unfold rl. rewrite !rl_events_record.
    unfold rl_events, RateLimiter_default, _log. by rewrite lookup_empty. }
  split; [done|]. rewrite rl_events_is_limited.
  unfold is_limited. simpl. by rewrite Hev.
Qed.

(** C5: [is_limited] keeps of the client's ledger exactly the entries [t]
    for which the source's test [now - t < window] holds, the difference
    being the rounded one of the floats; every other entry, so every entry
    older than the window, is dropped.  It writes the pruned ledger back,
    leaves the other ledgers and the configuration alone, and answers true
    exactly when the retained count reaches [max_events].  With the
    defaults (3 events, 5 seconds) and attempts at 0, 1, 2, the attempt at
    3 is limited and the one at 6 is admitted. *)
Theorem is_limited_window :
  (forall (now : float) (client_id : string) (rl : RateLimiter),
     let out := is_limited now client_id rl in
     let kept := rl_events (snd out) client_id in
     (forall t, t ∈ kept <->
                t ∈ rl_events rl client_id /\
                (now - t <? window rl)%float = true) /\
     (forall t, (now - t <? window rl)%float = false -> t ∉ kept) /\
     _log (snd out) !! client_id = Some kept /\
     (forall other, other <> client_id ->
                    _log (snd out) !! other = _log rl !! other) /\
     max_events (snd out) = max_events rl /\
     window (snd out) = window rl /\
     (fst out = true <-> max_events rl <= Z.of_nat (length kept))) /\
  (forall p : string,
     let a0 := rl_attempt 0 0 p RateLimiter_default in
     let a1 := rl_attempt 1 1 p (snd a0) in
     let a2 := rl_attempt 2 2 p (snd a1) in
     let a3 := rl_attempt 3 3 p (snd a2) in
     let a6 := rl_attempt 6 6 p (snd a3) in
     fst a0 = false /\ fst a1 = false /\ fst a2 = false /\
     fst a3 = true /\ fst a6 = false).
Proof.
  split.
  - intros now client_id rl out kept.
    assert (Hkept : kept = recent_events rl now (rl_events rl client_id))
      by apply rl_events_is_limited.
    split_and!.
    + intros t. rewrite Hkept. apply recent_events_elem.
    + intros t Hold. rewrite Hkept, recent_events_elem. intros [_ Hin].
      congruence.
    + rewrite Hkept. unfold out, is_limited. simpl.
      by rewrite lookup_insert_eq.
    + intros other Hne. unfold out, is_limited. simpl.
      by rewrite lookup_insert_ne.
    + done.
    + done.
    + unfold out at 1. unfold is_limited. simpl. rewrite Hkept.
      rewrite Z.geb_le. lia.
  - intros p a0 a1 a2 a3 a6.
    assert (H0 : rl_events RateLimiter_default p = []).
    { unfold rl_events, RateLimiter_default, _log. by rewrite lookup_empty. }
    destruct (rl_attempt_ledger 0 0 p _ _ H0) as (L0 & E0 & M0 & W0).
    fold a0 in L0, E0, M0, W0. simpl in M0, W0.
    destruct (rl_attempt_ledger 1 1 p _ _ E0) as (L1 & E1 & M1 & W1).
    fold a1 in L1, E1, M1, W1. rewrite M0, W0 in L1, E1. rewrite M0 in M1.
    rewrite W0 in W1.
    destruct (rl_attempt_ledger 2 2 p _ _ E1) as (L2 & E2 & M2 & W2).
    fold a2 in L2, E2, M2, W2. rewrite M1, W1 in L2, E2. rewrite M1 in M2.
    rewrite W1 in W2.
    destruct (rl_attempt_ledger 3 3 p _ _ E2) as (L3 & E3 & M3 & W3).
    fold a3 in L3, E3, M3, W3. rewrite M2, W2 in L3, E3. rewrite M2 in M3.
    rewrite W2 in W3.
    destruct (rl_attempt_ledger 6 6 p _ _ E3) as (L6 & _).
    fold a6 in L6. rewrite M3, W3 in L6.
    by rewrite L0, L1, L2, L3, L6.
Qed.

(** Unfold the plumbing of a statement, not what it operates on. *)
Ltac mrun :=
  cbv beta iota zeta delta
    [bind gets modify ret raise set_session subscript get_session].

(** ** Broadcasts leave sessions, roster and limiter alone *)

Lemma same_core_refl st : same_core st st.
Proof. by unfold same_core. Qed.

Lemma same_core_trans st1 st2 st3 :
  same_core st1 st2 -> same_core st2 st3 -> same_core st1 st3.
Proof. unfold same_core. intros (-> & -> & ->) (-> & -> & ->). done. Qed.

Lemma manager_broadcast_ok sid message exclude st :
  fst (manager_broadcast sid message exclude st) = Ok tt /\
  same_core st (snd (manager_broadcast sid message exclude st)).
Proof.
  unfold manager_broadcast.
  destruct (broadcast sid message exclude (manager st) (world st)) as [conns w].
  by unfold same_core.
Qed.

Lemma send_json_core c message st :
  same_core st (snd (send_json c message st)).
Proof.
  unfold send_json.
  destruct (ws_send_json c message (world st)); by unfold same_core.
Qed.

Lemma broadcast_state_core sid st :
  same_core st (snd (broadcast_state sid st)).
Proof.
  unfold broadcast_state, bind, gets, subscript, ret, raise.
  destruct (sessions st !! sid) as [s|]; [|apply same_core_refl].
  apply manager_broadcast_ok.
Qed.

Lemma broadcast_state_ok sid st :
  is_Some (sessions st !! sid) -> fst (broadcast_state sid st) = Ok tt.
Proof.
  intros [s Hs]. unfold broadcast_state, bind, gets, subscript, ret.
  rewrite Hs. apply manager_broadcast_ok.
Qed.

(** A statement followed by [broadcast_state] and a [return]. *)
Lemma then_broadcast_state {A} sid (a : A) st :
  is_Some (sessions st !! sid) ->
  exists st', (broadcast_state sid ;; ret a) st = (Ok a, st') /\ same_core st st'.
Proof.
  intros Hs. unfold bind, ret.
  pose proof (broadcast_state_ok sid st Hs) as Hok.
  pose proof (broadcast_state_core sid st) as Hcore.
  destruct (broadcast_state sid st) as [r st']. simpl in *. subst r.
  by exists st'.
Qed.

(** ** The enable endpoint *)

Lemma enable_buzzer_locked (sid : string) (st : App) (s : SessionState) :
  sessions st !! sid = Some s ->
  buzzer_state s = LOCKED ->
  enable_buzzer sid st = (Raise (HTTPException 400 "Reset buzzer first"), st).
Proof.
  intros Hs Hl. unfold enable_buzzer, get_session, bind, gets, ret, raise.
  rewrite Hs. simpl. by rewrite Hl.
Qed.

Lemma enable_buzzer_open (sid : string) (st : App) (s : SessionState) :
  sessions st !! sid = Some s ->
  buzzer_state s <> LOCKED ->
  exists st',
    enable_buzzer sid st =
      (Ok (JObj [("status", JStr "enabled");
                 ("question_number", JInt (question_number s + 1))]), st') /\
    sessions st' = <[sid := enabled_session s]> (sessions st) /\
    teams_db st' = teams_db st /\
    rate_limiter st' = rate_limiter st.
Proof.
  intros Hs Hnl.
  set (st1 := with_sessions (<[sid := enabled_session s]> (sessions st)) st).
  destruct (then_broadcast_state sid
              (JObj [("status", JStr "enabled");
                     ("question_number", JInt (question_number s + 1))]) st1)
    as (st' & Hrun & Hs' & Ht' & Hr').
  { subst st1. simpl. rewrite lookup_insert_eq. by eexists. }
  exists st'. split_and!; [|done..].
  unfold enable_buzzer, get_session. unfold bind at 1 2. unfold gets, ret.
  rewrite Hs.
  destruct (buzzer_state s) eqn:Hb; try done; simpl;
    unfold bind at 1; unfold set_session, modify; exact Hrun.
Qed.

(** C4: on an existing session, enable fails exactly when the buzzer is
    locked; the failure is the 400 response and nothing at all changes;
    from the other two states it opens the buzzer, clears winner and
    timestamp and adds exactly one to the question counter. *)
Theorem enable_buzzer_locked_iff (sid : string) (st : App) (s : SessionState) :
  sessions st !! sid = Some s ->
  ((exists e, fst (enable_buzzer sid st) = Raise e) <->
   buzzer_state s = LOCKED) /\
  (buzzer_state s = LOCKED ->
   enable_buzzer sid st =
     (Raise (HTTPException 400 "Reset buzzer first"), st)) /\
  (buzzer_state s <> LOCKED ->
   exists st',
     enable_buzzer sid st =
       (Ok (JObj [("status", JStr "enabled");
                  ("question_number", JInt (question_number s + 1))]), st') /\
     sessions st' = <[sid := enabled_session s]> (sessions st) /\
     teams_db st' = teams_db st /\
     rate_limiter st' = rate_limiter st).
Proof.
  intros Hs. split_and!.
  - split.
    + intros [e He]. destruct (buzzer_state s) eqn:Hb; [|  |done].
      * destruct (enable_buzzer_open sid st s Hs) as (st' & Hrun & _);
          [congruence|]. rewrite Hrun in He. discriminate.
      * destruct (enable_buzzer_open sid st s Hs) as (st' & Hrun & _);
          [congruence|]. rewrite Hrun in He. discriminate.
    + intros Hl. rewrite (enable_buzzer_locked sid st s Hs Hl). by eexists.
  - by apply enable_buzzer_locked.
  - by apply enable_buzzer_open.
Qed.

(** After the seeding, enable answers question number 1. *)
Lemma enable_buzzer_locked_iff_witness :
  sessions (initial_app ∅) !! "main" = Some seed_session /\
  exists st',
    enable_buzzer "main" (initial_app ∅) =
      (Ok (JObj [("status", JStr "enabled"); ("question_number", JInt 1)]),
       st') /\
    sessions st' = <["main" := enabled_session seed_session]>
                     (sessions (initial_app ∅)).
Proof.
  split; [reflexivity|].
  destruct (enable_buzzer_locked_iff "main" (initial_app ∅) seed_session
              eq_refl) as (_ & _ & Hopen).
  destruct Hopen as (st' & Hrun & Hs & _); [discriminate|].
  exists st'. split; [exact Hrun | exact Hs].
Defined.

(** ** Scores *)

Lemma get_zero_scores (k : string) (teams : PyDict.t TeamInfo) :
  PyDict.get k (zero_scores teams) = with_score 0 <$> PyDict.get k teams.
Proof.
  induction teams as [|[k' t] teams IH]; simpl; [done|].
  by destruct (String.eqb k k').
Qed.

Lemma keys_zero_scores (teams : PyDict.t TeamInfo) :
  PyDict.keys (zero_scores teams) = PyDict.keys teams.
Proof.
  unfold PyDict.keys, zero_scores. rewrite map_map. by apply map_ext.
Qed.

(** C9: a score adjustment stores [max 0 (old + delta)] for the party and
    touches no other party; for an identity that is not in the roster it
    answers 404 "Team not found" and changes nothing.  From 30, a delta of
    -100 gives 0. *)
Theorem update_score_floor :
  (forall (st : App) (req_team_id : string) (req_delta : Z),
     match PyDict.get req_team_id (teams_db st) with
     | None =>
         update_score req_team_id req_delta st =
           (Raise (HTTPException 404 "Team not found"), st)
     | Some team =>
         let new_score := Z.max 0 (score team + req_delta) in
         let st' := snd (update_score req_team_id req_delta st) in
         0 <= new_score /\
         PyDict.get req_team_id (teams_db st') =
           Some (with_score new_score team) /\
         (forall other, other <> req_team_id ->
            PyDict.get other (teams_db st') = PyDict.get other (teams_db st)) /\
         sessions st' = sessions st /\
         (is_Some (sessions st !! "main") ->
          fst (update_score req_team_id req_delta st) =
            Ok (JObj [("team_id", JStr req_team_id);
                      ("new_score", JInt new_score)]))
     end) /\
  (forall w : World,
     let st := with_teams_db roster_30 (initial_app w) in
     score <$> PyDict.get "gadzit"
                 (teams_db (snd (update_score "gadzit" (-100) st))) = Some 0).
Proof.
  assert (Hgen : forall st req_team_id req_delta team,
            PyDict.get req_team_id (teams_db st) = Some team ->
            let team' := with_score (Z.max 0 (score team + req_delta)) team in
            let st1 := with_teams_db
                         (PyDict.set req_team_id team' (teams_db st)) st in
            same_core st1 (snd (update_score req_team_id req_delta st)) /\
            (is_Some (sessions st !! "main") ->
             fst (update_score req_team_id req_delta st) =
               Ok (JObj [("team_id", JStr req_team_id);
                         ("new_score", JInt (score team'))]))).
  { intros st k delta team Hget team' st1.
    pose proof (broadcast_state_core "main" st1) as Hc.
    pose proof (broadcast_state_ok "main" st1) as Hok.
    unfold update_score. mrun. rewrite Hget. mrun.
    fold team' st1.
    destruct (broadcast_state "main" st1) as [[[]|e] st']; simpl in *;
      split; try done.
    intros Hmain. by specialize (Hok Hmain). }
  split.
  - intros st k delta. destruct (PyDict.get k (teams_db st)) as [team|] eqn:Hget.
    + destruct (Hgen st k delta team Hget) as [(Hs & Ht & _) Hok].
      cbv zeta. split_and!.
      * lia.
      * rewrite Ht. simpl. apply PyDictFacts.get_set_eq.
      * intros other Hne. rewrite Ht. simpl.
        by apply PyDictFacts.get_set_ne.
      * by rewrite Hs.
      * exact Hok.
    + unfold update_score, bind, gets, raise. by rewrite Hget.
  - intros w st.
    destruct (Hgen st "gadzit" (-100)
                (mkTeamInfo "gadzit" "GadzIT" 30 false None) eq_refl)
      as [(_ & Ht & _) _].
    rewrite Ht. reflexivity.
Qed.

(** C10: reset-scores sets every party's score to 0 and, on the session
    [main], sets the question counter to 0 and the buzzer to disabled and
    clears the winner, while the timestamp keeps its value.  So the
    question counter can go down: after one enable it is 1, after
    reset-scores it is 0. *)
Theorem reset_scores_resets_session :
  (forall (st : App),
     let st' := snd (reset_scores st) in
     (forall k, PyDict.get k (teams_db st') =
                with_score 0 <$> PyDict.get k (teams_db st)) /\
     PyDict.keys (teams_db st') = PyDict.keys (teams_db st) /\
     rate_limiter st' = rate_limiter st /\
     (forall s, sessions st !! "main" = Some s ->
        fst (reset_scores st) = Ok (JObj [("status", JStr "reset")]) /\
        sessions st' =
          <["main" := mkSessionState (session_id s) DISABLED None
                                     (buzzer_timestamp s) 0]> (sessions st))) /\
  (forall w : World,
     let st1 := exec (OpEnable "main") (initial_app w) in
     let st2 := exec OpResetScores st1 in
     question_number <$> (sessions st1 !! "main") = Some 1 /\
     question_number <$> (sessions st2 !! "main") = Some 0).
Proof.
  assert (Hgen : forall st,
            let st1 := with_teams_db (zero_scores (teams_db st)) st in
            match sessions st !! "main" with
            | Some s =>
                let st2 := with_sessions
                  (<["main" := mkSessionState (session_id s) DISABLED None
                                              (buzzer_timestamp s) 0]>
                     (sessions st)) st1 in
                same_core st2 (snd (reset_scores st)) /\
                fst (reset_scores st) = Ok (JObj [("status", JStr "reset")])
            | None => same_core st1 (snd (reset_scores st))
            end).
  { intros st st1. unfold reset_scores. mrun. fold st1.
    change (sessions st1) with (sessions st).
    destruct (sessions st !! "main") as [s|] eqn:Hs.
    - change (sessions st1) with (sessions st).
      set (st2 := with_sessions _ st1).
      pose proof (broadcast_state_core "main" st2) as Hc.
      pose proof (broadcast_state_ok "main" st2) as Hok.
      destruct (broadcast_state "main" st2) as [[[]|e] st']; simpl in *.
      + done.
      + exfalso. assert (Raise e = Ok ()) by (apply Hok;
          subst st2; simpl; rewrite lookup_insert_eq; by eexists).
        discriminate.
    - pose proof (broadcast_state_core "main" st1) as Hc.
      by destruct (broadcast_state "main" st1) as [[|] ?]. }
  split.
  - intros st st'. specialize (Hgen st). cbv zeta in Hgen.
    assert (Hcore : teams_db st' = zero_scores (teams_db st) /\
                    rate_limiter st' = rate_limiter st).
    { unfold st'. destruct (sessions st !! "main").
      - by destruct Hgen as [(_ & -> & ->) _].
      - by destruct Hgen as (_ & -> & ->). }
    destruct Hcore as [Ht Hr]. split_and!.
    + intros k. rewrite Ht. apply get_zero_scores.
    + rewrite Ht. apply keys_zero_scores.
    + done.
    + intros s Hs. rewrite Hs in Hgen. unfold st'.
      destruct Hgen as [(-> & _) ->]. done.
  - intros w st1 st2.
    destruct (enable_buzzer_open "main" (initial_app w) seed_session)
      as (st' & Hrun & Hs1 & _); [done..|].
    assert (Hst1 : sessions st1 !! "main" = Some (enabled_session seed_session)).
    { subst st1. simpl. rewrite Hrun. simpl. rewrite Hs1.
      apply lookup_insert_eq. }
    split; [by rewrite Hst1|].
    pose proof (Hgen st1) as H1. cbv zeta in H1. rewrite Hst1 in H1.
    destruct H1 as [(Hs2 & _) _].
    subst st2. simpl. rewrite Hs2. simpl. by rewrite lookup_insert_eq.
Qed.

(** ** Channels *)

Lemma ws_send_json_sendable c message w :
  sendable w c = true ->
  exists ch,
    w !! c = Some ch /\
    ws_send_json c message w =
      Some (<[c := mkChannel (accepted ch) (closed ch) (broken ch)
                             (sent ch ++ [message])]> w).
Proof.
  unfold sendable, ws_send_json. destruct (w !! c) as [ch|]; [|done].
  intros ->. by exists ch.
Qed.

Lemma ws_send_json_unsendable c message w :
  sendable w c = false -> ws_send_json c message w = None.
Proof.
  unfold sendable, ws_send_json. destruct (w !! c) as [ch|]; [|done].
  by intros ->.
Qed.

Lemma ws_send_json_effect c message w w' :
  ws_send_json c message w = Some w' ->
  sendable w c = true /\
  received w' c = (received w c ++ [message])%list /\
  (forall c', c' <> c -> w' !! c' = w !! c') /\
  (forall c', sendable w' c' = sendable w c').
Proof.
  unfold ws_send_json, sendable, received.
  destruct (w !! c) as [ch|] eqn:Hch; [|done].
  destruct (can_send ch) eqn:Hcan; [|done].
  intros [= <-]. split_and!.
  - done.
  - by rewrite lookup_insert_eq.
  - intros c' Hne. by rewrite lookup_insert_ne.
  - intros c'. destruct (decide (c' = c)) as [->|Hne].
    + by rewrite lookup_insert_eq, Hch.
    + by rewrite lookup_insert_ne.
Qed.

Lemma send_json_sendable c message st :
  sendable (world st) c = true ->
  exists w',
    ws_send_json c message (world st) = Some w' /\
    send_json c message st = (Ok tt, with_world w' st).
Proof.
  intros Hs. destruct (ws_send_json_sendable c message _ Hs) as (ch & _ & Hw).
  eexists. split; [exact Hw|]. unfold send_json. by rewrite Hw.
Qed.

(** ** The buzz branch *)

Lemma on_buzz_split websocket sid client_id clk st :
  on_buzz websocket sid client_id clk st =
  (io <- buzz_decide sid client_id clk ;; buzz_io websocket sid io) st.
Proof.
  unfold on_buzz, buzz_decide. mrun.
  destruct (is_limited (t_is_limited clk) client_id (rate_limiter st))
    as [[] rl']; [done|]. mrun. simpl.
  destruct (sessions st !! sid) as [s|]; [|done].
  destruct (buzzer_state s); simpl; try done.
  by destruct (PyDict.get client_id (teams_db st)).
Qed.

Section Decide.
Variables (sid client_id : string) (clk : Clock) (st : App).

Let lim := is_limited (t_is_limited clk) client_id (rate_limiter st).
Let admitted := with_rate_limiter (record (t_record clk) client_id (snd lim)) st.

Lemma buzz_decide_limited :
  fst lim = true ->
  buzz_decide sid client_id clk st =
    (Ok (Reply rate_limited_msg), with_rate_limiter (snd lim) st).
Proof.
  unfold buzz_decide. mrun. subst lim. intros H.
  destruct (is_limited _ _ _) as [b rl']. simpl in H. by subst b.
Qed.

Lemma buzz_decide_no_session :
  fst lim = false ->
  sessions st !! sid = None ->
  buzz_decide sid client_id clk st = (Raise (KeyError sid), admitted).
Proof.
  unfold buzz_decide. mrun. subst admitted lim. intros H Hs.
  destruct (is_limited _ _ _) as [b rl']. simpl in H. subst b. mrun.
  simpl. by rewrite Hs.
Qed.

Lemma buzz_decide_not_enabled s :
  fst lim = false ->
  sessions st !! sid = Some s ->
  buzzer_state s <> ENABLED ->
  buzz_decide sid client_id clk st = (Ok (Reply not_enabled_msg), admitted).
Proof.
  unfold buzz_decide. mrun. subst admitted lim. intros H Hs Hne.
  destruct (is_limited _ _ _) as [b rl']. simpl in H. subst b. mrun.
  simpl. rewrite Hs. by destruct (buzzer_state s).
Qed.

Lemma buzz_decide_enabled s :
  fst lim = false ->
  sessions st !! sid = Some s ->
  buzzer_state s = ENABLED ->
  buzz_decide sid client_id clk st =
    (match PyDict.get client_id (teams_db st) with
     | Some team =>
         Ok (Broadcast
               (buzzer_locked_msg client_id (team_name team)
                  (List.find
                     (fun t => negb (String.eqb (team_id t) client_id))
                     (PyDict.values (teams_db st)))
                  (t_buzz clk) (teams_db st)))
     | None => Raise (KeyError client_id)
     end,
     with_sessions
       (<[sid := locked_session s client_id (t_buzz clk)]> (sessions st))
       admitted).
Proof.
  unfold buzz_decide. mrun. subst admitted lim. intros H Hs He.
  destruct (is_limited _ _ _) as [b rl']. simpl in H. subst b. mrun.
  simpl. rewrite Hs, He. simpl.
  by destruct (PyDict.get client_id (teams_db st)).
Qed.

End Decide.

Lemma send_json_unicast c message st :
  sendable (world st) c = true ->
  fst (send_json c message st) = Ok tt /\
  unicast st (snd (send_json c message st)) c message /\
  rate_limiter (snd (send_json c message st)) = rate_limiter st.
Proof.
  intros Hs. destruct (send_json_sendable c message st Hs) as (w' & Hw & ->).
  destruct (ws_send_json_effect _ _ _ _ Hw) as (_ & Hr & Hother & _).
  by unfold unicast.
Qed.

Lemma handle_message_buzz websocket sid client_id clk fields st :
  msg_type_is (JObj fields) "buzz" = true ->
  handle_message websocket sid client_id "participant" clk
                 (Some (JObj fields)) st =
  on_buzz websocket sid client_id clk st.
Proof. unfold handle_message. by intros ->. Qed.




(** ** Messages that are not dispatched *)

Lemma handle_message_undispatched websocket sid client_id role clk fields st :
  dispatched role (JObj fields) = false ->
  handle_message websocket sid client_id role clk (Some (JObj fields)) st =
    (Ok tt, st).
Proof.
  unfold dispatched, handle_message. intros H.
  apply orb_false_iff in H as [-> ->]. done.
Qed.

(** C6 (as the code has it): a text that [json.loads] returns as an object
    and that is not dispatched (its type is neither [buzz] nor [ping], or
    it is a [buzz] on a connection that is not a participant's) leaves the
    loop running and is dropped: no reply is sent and nothing changes.  A
    text on which [json.loads] raises [JSONDecodeError] is answered on the
    same channel with the [Bad JSON] message, whose type is [error], and
    the loop goes on. *)
Theorem undispatched_message_is_dropped :
  (forall websocket sid client_id role clk fields st,
     dispatched role (JObj fields) = false ->
     handle_message websocket sid client_id role clk (Some (JObj fields)) st =
       (Ok tt, st)) /\
  (forall websocket sid client_id role clk st,
     sendable (world st) websocket = true ->
     let out := handle_message websocket sid client_id role clk None st in
     fst out = Ok tt /\ unicast st (snd out) websocket bad_json_msg) /\
  field "type" bad_json_msg = Some (JStr "error").
Proof.
  split_and!.
  - intros. by apply handle_message_undispatched.
  - intros websocket sid client_id role clk st Hs out.
    destruct (send_json_unicast websocket bad_json_msg st Hs) as (Hok & Hu & _).
    split; [exact Hok | exact Hu].
  - reflexivity.
Qed.

(** C6, refuted as worded: a message of the unknown type [answer] on a
    participant's open connection is followed by no reply at all. *)
Lemma unknown_type_gets_no_reply :
  let data := JObj [("type", JStr "answer")] in
  let out := handle_message 0 "main" "gadzit" "participant" (clock_at 1)
                            (Some data) duel_ready in
  sendable (world duel_ready) 0 = true /\
  msg_type_is data "buzz" = false /\
  msg_type_is data "ping" = false /\
  fst out = Ok tt /\
  received (world (snd out)) 0 = received (world duel_ready) 0 /\
  ~ (exists reply, received (world (snd out)) 0 =
                   (received (world duel_ready) 0 ++ [reply])%list).
Proof.
  cbv zeta.
  rewrite handle_message_undispatched by reflexivity. simpl.
  split_and!; try reflexivity.
  intros [reply Hr]. apply (f_equal length) in Hr.
  rewrite length_app in Hr. simpl in Hr. lia.
Qed.

(** ** Broadcast *)

Lemma get_Some_elem {V} (k : string) (v : V) (d : PyDict.t V) :
  PyDict.get k d = Some v -> (k, v) ∈ d.
Proof.
  induction d as [|[k' v'] d IH]; simpl; [done|].
  destruct (String.eqb_spec k k') as [->|Hne].
  - intros [= ->]. apply elem_of_cons. by left.
  - intros H. apply elem_of_cons. right. by apply IH.
Qed.

Lemma elem_get {V} (k : string) (v : V) (d : PyDict.t V) :
  PyDict.wf d -> (k, v) ∈ d -> PyDict.get k d = Some v.
Proof.
  unfold PyDict.wf. induction d as [|[k' v'] d IH]; simpl.
  - intros _ H. by apply elem_of_nil in H.
  - rewrite NoDup_cons, elem_of_cons. intros [Hnin Hnd] [Heq|Hin].
    + injection Heq as -> ->. by rewrite String.eqb_refl.
    + destruct (String.eqb_spec k k') as [->|Hne]; [|by apply IH].
      exfalso. apply Hnin. unfold PyDict.keys.
      apply list_elem_of_fmap. by exists (k', v).
Qed.

Lemma wf_pop_all dead (table : PyDict.t ConnInfo) :
  PyDict.wf table -> PyDict.wf (pop_all dead table).
Proof.
  revert table. induction dead as [|d dead IH]; intros table Hwf; [done|].
  simpl. apply IH. by apply PyDictFacts.wf_pop.
Qed.

Lemma get_pop_all k dead (table : PyDict.t ConnInfo) :
  PyDict.wf table ->
  PyDict.get k (pop_all dead table) =
    if bool_decide (k ∈ dead) then None else PyDict.get k table.
Proof.
  revert table. induction dead as [|d dead IH]; intros table Hwf; [done|].
  simpl. rewrite IH by by apply PyDictFacts.wf_pop.
  destruct (decide (d = k)) as [->|Hne].
  - rewrite PyDictFacts.get_pop_eq by done.
    rewrite (bool_decide_eq_true_2 (k ∈ k :: dead)) by (apply elem_of_cons; by left).
    by destruct (bool_decide (k ∈ dead)).
  - rewrite PyDictFacts.get_pop_ne by done.
    destruct (decide (k ∈ dead)) as [Hin|Hnin].
    + rewrite !bool_decide_eq_true_2; [done| |done]. apply elem_of_cons. by right.
    + rewrite !bool_decide_eq_false_2; [done| |done].
      rewrite elem_of_cons. intros [?|?]; congruence.
Qed.

(** The loop, from any world and any [dead] list collected so far. *)
Lemma broadcast_loop_effect items message exclude :
  forall (w : World) (dead : list string),
    let out := broadcast_loop items message exclude w dead in
    (forall c, sendable (fst out) c = sendable w c) /\
    (forall c, received (fst out) c =
               (received w c ++
                replicate (if sendable w c
                           then deliveries c (targets items exclude)
                           else 0%nat) message)%list) /\
    snd out = (dead ++ unreachable w (targets items exclude))%list.
Proof.
  induction items as [|[cid info] items IH]; intros w dead; simpl.
  - split_and!; intros; rewrite ?app_nil_r; try done.
    destruct (sendable w c); simpl; by rewrite app_nil_r.
  - unfold targets, deliveries, unreachable in *. simpl.
    destruct (is_excluded cid exclude) eqn:Hex; simpl; [apply IH|].
    destruct (ws_send_json (ws info) message w) as [w1|] eqn:Hsend.
    + destruct (ws_send_json_effect _ _ _ _ Hsend) as (Hs & Hr & Ho & Hsame).
      destruct (IH w1 dead) as (IH1 & IH2 & IH3). rewrite Hs. simpl.
      split_and!.
      * intros c. by rewrite IH1, Hsame.
      * intros c. rewrite IH2, Hsame.
        destruct (Nat.eqb_spec (ws info) c) as [<-|Hne]; simpl.
        -- rewrite Hr, Hs. simpl. by rewrite <- app_assoc.
        -- unfold received. by rewrite Ho.
      * rewrite IH3. do 2 f_equal. apply filter_ext. intros kv.
        by rewrite Hsame.
    + assert (Hs : sendable w (ws info) = false).
      { destruct (sendable w (ws info)) eqn:Hs; [|done].
        destruct (ws_send_json_sendable (ws info) message w Hs) as (? & _ & H).
        congruence. }
      destruct (IH w (dead ++ [cid])%list) as (IH1 & IH2 & IH3).
      rewrite Hs. simpl. split_and!.
      * done.
      * intros c. rewrite IH2.
        destruct (Nat.eqb_spec (ws info) c) as [<-|Hne]; simpl; [|done].
        by rewrite Hs.
      * rewrite IH3. by rewrite <- app_assoc.
Qed.

Lemma deliveries_pos c cid info tgts :
  (cid, info) ∈ tgts -> ws info = c -> (0 < deliveries c tgts)%nat.
Proof.
  intros Hin Hc. unfold deliveries.
  assert (Hf : In (cid, info)
                  (List.filter (fun kv => Nat.eqb (ws (snd kv)) c) tgts)).
  { apply filter_In. split; [by apply list_elem_of_In|].
    simpl. by apply Nat.eqb_eq. }
  destruct (List.filter _ tgts); [destruct Hf | simpl; lia].
Qed.

Lemma elem_of_targets cid info table exclude :
  (cid, info) ∈ targets table exclude <->
  (cid, info) ∈ table /\ is_excluded cid exclude = false.
Proof.
  unfold targets. rewrite !list_elem_of_In, filter_In. simpl.
  by rewrite negb_true_iff.
Qed.

Lemma elem_of_unreachable cid w tgts :
  cid ∈ unreachable w tgts <->
  exists info, (cid, info) ∈ tgts /\ sendable w (ws info) = false.
Proof.
  unfold unreachable. rewrite list_elem_of_fmap. split.
  - intros ([k info] & -> & Hin). exists info.
    apply list_elem_of_In, filter_In in Hin as [Hin Hs].
    split; [by apply list_elem_of_In|]. by apply negb_true_iff in Hs.
  - intros (info & Hin & Hs). exists (cid, info). split; [done|].
    apply list_elem_of_In, filter_In. split; [by apply list_elem_of_In|].
    simpl. by rewrite Hs.
Qed.


(** ** Rules for invariants *)

Section Keeps.
Context {A B : Type} (I : App -> Prop).

Lemma keeps_ret (a : A) : keeps I (ret a).
Proof. by intros st. Qed.

Lemma keeps_raise (e : Exn) : keeps I (raise (A := A) e).
Proof. by intros st. Qed.

Lemma keeps_gets (f : App -> A) : keeps I (gets f).
Proof. by intros st. Qed.

Lemma keeps_subscript (key : string) (o : option A) :
  keeps I (subscript key o).
Proof. destruct o; by intros st. Qed.

Lemma keeps_bind (m : M A) (k : A -> M B) :
  keeps I m -> (forall a, keeps I (k a)) -> keeps I (bind m k).
Proof.
  intros Hm Hk st HI. unfold bind. specialize (Hm st HI).
  destruct (m st) as [[a|e] st']; simpl in *; [by apply Hk | done].
Qed.

(** What is read from the state was read from a state satisfying [I]. *)
Lemma keeps_bind_gets (f : App -> A) (k : A -> M B) :
  (forall st0, I st0 -> keeps I (k (f st0))) -> keeps I (bind (gets f) k).
Proof. intros Hk st HI. unfold bind, gets. by apply (Hk st HI). Qed.

Lemma keeps_bind_subscript (key : string) (o : option A) (k : A -> M B) :
  (forall a, o = Some a -> keeps I (k a)) ->
  keeps I (bind (subscript key o) k).
Proof.
  intros Hk st HI. unfold bind, subscript. destruct o as [a|]; simpl; [|done].
  by apply Hk.
Qed.

Lemma keeps_modify (f : App -> App) :
  (forall st, I st -> I (f st)) -> keeps I (modify f).
Proof. intros Hf st HI. by apply Hf. Qed.

End Keeps.

Ltac keeps_step :=
  lazymatch goal with
  | |- keeps _ (bind (gets _) _) => apply keeps_bind_gets; intros ? ?
  | |- keeps _ (bind (subscript _ _) _) =>
      apply keeps_bind_subscript; intros ? ?
  | |- keeps _ (bind _ _) => apply keeps_bind; [ | intros ? ]
  | |- keeps _ (ret _) => apply keeps_ret
  | |- keeps _ (raise _) => apply keeps_raise
  | |- keeps _ (gets _) => apply keeps_gets
  | |- keeps _ (subscript _ _) => apply keeps_subscript
  | |- keeps _ (match ?x with _ => _ end) => destruct x eqn:?
  end.

(** *** What the input and output statements leave alone *)

Lemma unchanged_sessions_send_json c message :
  unchanged sessions (send_json c message).
Proof. intros st. apply send_json_core. Qed.

Lemma unchanged_manager_send_json c message :
  unchanged manager (send_json c message).
Proof.
  intros st. unfold send_json. by destruct (ws_send_json c message (world st)).
Qed.

Lemma unchanged_sessions_close c code reason :
  unchanged sessions (close c code reason).
Proof.
  intros st. unfold close. by destruct (ws_close c code reason (world st)).
Qed.

Lemma unchanged_manager_close c code reason :
  unchanged manager (close c code reason).
Proof.
  intros st. unfold close. by destruct (ws_close c code reason (world st)).
Qed.

Lemma unchanged_sessions_manager_broadcast sid message exclude :
  unchanged sessions (manager_broadcast sid message exclude).
Proof. intros st. apply manager_broadcast_ok. Qed.

Lemma unchanged_sessions_broadcast_state sid :
  unchanged sessions (broadcast_state sid).
Proof. intros st. apply broadcast_state_core. Qed.

Lemma unchanged_sessions_manager_connect c sid client_id role :
  unchanged sessions (manager_connect c sid client_id role).
Proof.
  intros st. unfold manager_connect.
  by destruct (connect c sid client_id role (manager st) (world st))
    as [[r conns] w].
Qed.

Lemma unchanged_manager_set_session sid s : unchanged manager (set_session sid s).
Proof. by intros st. Qed.

(** *** The session invariant *)

Lemma sessions_ok_eq st st' :
  sessions st' = sessions st -> sessions_ok st -> sessions_ok st'.
Proof. unfold sessions_ok. by intros ->. Qed.

Lemma keeps_sessions_ok_unchanged {A} (m : M A) :
  unchanged sessions m -> keeps sessions_ok m.
Proof. intros Hm st. apply sessions_ok_eq, Hm. Qed.

Lemma keeps_sessions_ok_set_session sid s :
  session_ok s -> keeps sessions_ok (set_session sid s).
Proof.
  intros Hs st Hst sid' s'. simpl.
  destruct (decide (sid = sid')) as [->|Hne].
  - rewrite lookup_insert_eq. by intros [= <-].
  - rewrite lookup_insert_ne by done. apply Hst.
Qed.

Ltac sessions_ok_leaf :=
  first
    [ apply keeps_sessions_ok_unchanged;
      first [ apply unchanged_sessions_send_json
            | apply unchanged_sessions_close
            | apply unchanged_sessions_manager_broadcast
            | apply unchanged_sessions_broadcast_state
            | apply unchanged_sessions_manager_connect
            | by intros ? ]
    | solve [ apply keeps_sessions_ok_set_session;
              unfold session_ok; simpl; split_and!;
              try done; try (intros [? [=]]); try (by eexists) ] ].

Ltac sessions_ok_auto := repeat first [ keeps_step | sessions_ok_leaf ].

Lemma keeps_sessions_ok_enable sid : keeps sessions_ok (enable_buzzer sid).
Proof. unfold enable_buzzer, get_session. sessions_ok_auto. Qed.

Lemma keeps_sessions_ok_disable sid : keeps sessions_ok (disable_buzzer sid).
Proof.
  unfold disable_buzzer. sessions_ok_auto.
  apply keeps_sessions_ok_set_session.
  match goal with
  | H0 : sessions_ok ?st0, H1 : sessions ?st0 !! sid = Some ?s |- _ =>
      destruct (H0 sid s H1) as (_ & _ & Hw)
  end.
  unfold session_ok. simpl. split_and!; done.
Qed.

Lemma keeps_sessions_ok_reset sid : keeps sessions_ok (reset_buzzer sid).
Proof. unfold reset_buzzer. sessions_ok_auto. Qed.

Lemma keeps_sessions_ok_update_score t d : keeps sessions_ok (update_score t d).
Proof. unfold update_score. sessions_ok_auto. Qed.

Lemma keeps_sessions_ok_reset_scores : keeps sessions_ok reset_scores.
Proof. unfold reset_scores. sessions_ok_auto. Qed.

Lemma keeps_sessions_ok_set_teams a an b bn :
  keeps sessions_ok (set_teams a an b bn).
Proof. unfold set_teams. sessions_ok_auto. Qed.

Lemma keeps_sessions_ok_panic : keeps sessions_ok panic_button.
Proof. unfold panic_button. sessions_ok_auto. Qed.

Lemma keeps_sessions_ok_open c sid token now :
  keeps sessions_ok (websocket_open c sid token now).
Proof. unfold websocket_open. sessions_ok_auto. Qed.

Lemma keeps_sessions_ok_on_buzz c sid client_id clk :
  keeps sessions_ok (on_buzz c sid client_id clk).
Proof. unfold on_buzz. sessions_ok_auto. Qed.

Lemma keeps_sessions_ok_message c sid client_id role clk raw :
  keeps sessions_ok (handle_message c sid client_id role clk raw).
Proof.
  unfold handle_message.
  destruct raw as [[]|]; sessions_ok_auto; apply keeps_sessions_ok_on_buzz.
Qed.

Lemma keeps_sessions_ok_disconnect sid client_id role :
  keeps sessions_ok (on_disconnect sid client_id role).
Proof. unfold on_disconnect. sessions_ok_auto. Qed.

Lemma exec_sessions_ok op st : sessions_ok st -> sessions_ok (exec op st).
Proof.
  destruct op; simpl.
  - apply keeps_sessions_ok_enable.
  - apply keeps_sessions_ok_disable.
  - apply keeps_sessions_ok_reset.
  - apply keeps_sessions_ok_update_score.
  - apply keeps_sessions_ok_reset_scores.
  - apply keeps_sessions_ok_set_teams.
  - apply keeps_sessions_ok_panic.
  - apply keeps_sessions_ok_open.
  - apply keeps_sessions_ok_message.
  - apply keeps_sessions_ok_disconnect.
  - by apply sessions_ok_eq.
Qed.

Lemma initial_sessions_ok w : sessions_ok (initial_app w).
Proof.
  intros sid s. simpl. intros [<- <-]%lookup_singleton_Some.
  unfold session_ok. simpl. by split_and!.
Qed.

Lemma reachable_sessions_ok st : reachable st -> sessions_ok st.
Proof.
  induction 1 as [w|op st _ IH];
    [apply initial_sessions_ok | by apply exec_sessions_ok].
Qed.

Lemma reachable_run ops st : reachable st -> reachable (run ops st).
Proof.
  revert st. induction ops as [|op ops IH]; intros st Hst; [done|].
  simpl. apply IH. by apply reachable_step.
Qed.

Lemma reachable_duel_ready : reachable duel_ready.
Proof. apply reachable_run, reachable_init. Qed.

Lemma reachable_duel_locked : reachable duel_locked.
Proof. apply reachable_run, reachable_duel_ready. Qed.

(** C2 (as the code has it): in every state the server can reach, a
    session whose buzzer is enabled has neither winner nor timestamp, a
    session whose buzzer is locked has both, and a winner never comes
    without a timestamp.  The seeded state satisfies this and every
    operation maintains it.  A disabled session may still carry the winner
    and timestamp of the last round. *)
Theorem session_invariant :
  (forall w, sessions_ok (initial_app w)) /\
  (forall op st, sessions_ok st -> sessions_ok (exec op st)) /\
  (forall st sid s,
     reachable st -> sessions st !! sid = Some s ->
     (buzzer_state s = ENABLED ->
        buzzer_winner s = None /\ buzzer_timestamp s = None) /\
     (buzzer_state s = LOCKED ->
        is_Some (buzzer_winner s) /\ is_Some (buzzer_timestamp s)) /\
     (is_Some (buzzer_winner s) -> is_Some (buzzer_timestamp s))).
Proof.
  split_and!.
  - apply initial_sessions_ok.
  - apply exec_sessions_ok.
  - intros st sid s Hr Hs. exact (reachable_sessions_ok st Hr sid s Hs).
Qed.

(** C2, refuted as worded: disabling the buzzer of the locked duel gives a
    reachable state whose session is disabled and still has its winner and
    timestamp; the state before the call satisfied the invariant as
    worded, the state after it does not. *)
Lemma disable_keeps_last_winner :
  let st := exec (OpDisable "main") duel_locked in
  reachable st /\
  (exists s, sessions duel_locked !! "main" = Some s /\ both_or_neither s) /\
  (exists s, sessions st !! "main" = Some s /\
             buzzer_state s = DISABLED /\
             buzzer_winner s = Some "gadzit" /\
             buzzer_timestamp s = Some 1%float /\
             ~ both_or_neither s).
Proof.
  cbv zeta. split_and!.
  - apply reachable_step, reachable_duel_locked.
  - exists (mkSessionState "main" LOCKED (Some "gadzit") (Some 1%float) 1).
    split; [vm_compute; reflexivity|].
    unfold both_or_neither. simpl. split_and!.
    + split; intros _; by eexists.
    + intros [|]; discriminate.
    + intros _. split; by eexists.
  - exists (mkSessionState "main" DISABLED (Some "gadzit") (Some 1%float) 1).
    split; [vm_compute; reflexivity|]. split_and!; try reflexivity.
    unfold both_or_neither. simpl. intros (_ & Hd & _).
    destruct Hd as [Hw _]; [by left | discriminate].
Qed.

(** ** The registry never holds a client twice *)

Lemma broadcast_wf sid message exclude (conns : Connections) w :
  (forall s t, conns !! s = Some t -> PyDict.wf t) ->
  forall s t, fst (broadcast sid message exclude conns w) !! s = Some t ->
              PyDict.wf t.
Proof.
  intros Hwf s t. unfold broadcast.
  destruct (conns !! sid) as [table|] eqn:Hsid; [|apply Hwf].
  destruct (broadcast_loop _ _ _ _ _) as [w' dead]. simpl.
  destruct (decide (sid = s)) as [->|Hne].
  - rewrite lookup_insert_eq. intros [= <-]. apply wf_pop_all. by eapply Hwf.
  - rewrite lookup_insert_ne by done. apply Hwf.
Qed.

Lemma session_table_wf (conns : Connections) sid :
  (forall s t, conns !! s = Some t -> PyDict.wf t) ->
  PyDict.wf (session_table conns sid).
Proof.
  intros Hwf. unfold session_table.
  destruct (conns !! sid) as [t|] eqn:Ht; simpl; [by eapply Hwf|].
  apply NoDup_nil_2.
Qed.

Lemma connect_wf c sid client_id role (conns : Connections) w :
  (forall s t, conns !! s = Some t -> PyDict.wf t) ->
  forall s t,
    snd (fst (connect c sid client_id role conns w)) !! s = Some t ->
    PyDict.wf t.
Proof.
  intros Hwf s t. unfold connect.
  destruct (ws_accept c w) as [w1|]; simpl; [|apply Hwf].
  destruct (decide (sid = s)) as [->|Hne].
  - rewrite lookup_insert_eq. intros [= <-].
    by apply PyDictFacts.wf_set, session_table_wf.
  - rewrite lookup_insert_ne by done. apply Hwf.
Qed.

Lemma disconnect_wf sid client_id (conns : Connections) :
  (forall s t, conns !! s = Some t -> PyDict.wf t) ->
  forall s t, disconnect sid client_id conns !! s = Some t -> PyDict.wf t.
Proof.
  intros Hwf s t. unfold disconnect.
  destruct (conns !! sid) as [table|] eqn:Hsid; [|apply Hwf].
  destruct (decide (sid = s)) as [->|Hne].
  - rewrite lookup_insert_eq. intros [= <-].
    apply PyDictFacts.wf_pop. by eapply Hwf.
  - rewrite lookup_insert_ne by done. apply Hwf.
Qed.

Lemma keeps_manager_wf_unchanged {A} (m : M A) :
  unchanged manager m -> keeps manager_wf m.
Proof. intros Hm st. unfold manager_wf. by rewrite Hm. Qed.

Lemma keeps_manager_wf_broadcast sid message exclude :
  keeps manager_wf (manager_broadcast sid message exclude).
Proof.
  intros st Hst. unfold manager_broadcast.
  pose proof (broadcast_wf sid message exclude (manager st) (world st) Hst).
  by destruct (broadcast sid message exclude (manager st) (world st)).
Qed.

Lemma keeps_manager_wf_connect c sid client_id role :
  keeps manager_wf (manager_connect c sid client_id role).
Proof.
  intros st Hst. unfold manager_connect.
  pose proof (connect_wf c sid client_id role (manager st) (world st) Hst).
  by destruct (connect c sid client_id role (manager st) (world st))
    as [[r conns] w].
Qed.

Lemma keeps_manager_wf_disconnect sid client_id :
  keeps manager_wf
    (modify (fun st => with_manager (disconnect sid client_id (manager st)) st)).
Proof. intros st Hst s t. simpl. by apply disconnect_wf. Qed.

Ltac manager_wf_leaf :=
  first
    [ apply keeps_manager_wf_broadcast
    | apply keeps_manager_wf_connect
    | apply keeps_manager_wf_disconnect
    | apply keeps_manager_wf_unchanged;
      first [ apply unchanged_manager_send_json
            | apply unchanged_manager_close
            | by intros ? ] ].

Ltac manager_wf_auto :=
  unfold broadcast_state, get_session;
  repeat first [ keeps_step | manager_wf_leaf ].

Lemma keeps_manager_wf_on_buzz c sid client_id clk :
  keeps manager_wf (on_buzz c sid client_id clk).
Proof. unfold on_buzz. manager_wf_auto. Qed.

Lemma exec_manager_wf op st : manager_wf st -> manager_wf (exec op st).
Proof.
  revert st.
  destruct op as [sid|sid|sid|t d| |a an b bn| |c sid tok now
                 |c sid cid r clk raw|sid cid r|c]; simpl;
    [ change (keeps manager_wf (enable_buzzer sid)); unfold enable_buzzer
    | change (keeps manager_wf (disable_buzzer sid)); unfold disable_buzzer
    | change (keeps manager_wf (reset_buzzer sid)); unfold reset_buzzer
    | change (keeps manager_wf (update_score t d)); unfold update_score
    | change (keeps manager_wf reset_scores); unfold reset_scores
    | change (keeps manager_wf (set_teams a an b bn)); unfold set_teams
    | change (keeps manager_wf panic_button); unfold panic_button
    | change (keeps manager_wf (websocket_open c sid tok now));
      unfold websocket_open
    | change (keeps manager_wf (handle_message c sid cid r clk raw));
      unfold handle_message; destruct raw as [[]|]
    | change (keeps manager_wf (on_disconnect sid cid r));
      unfold on_disconnect
    | done ];
    manager_wf_auto; apply keeps_manager_wf_on_buzz.
Qed.

Lemma reachable_manager_wf st : reachable st -> manager_wf st.
Proof.
  induction 1 as [w|op st _ IH]; [|by apply exec_manager_wf].
  intros sid table. simpl. by rewrite lookup_empty.
Qed.

(** ** Connecting *)





Lemma reachable_duel_with_spare : reachable duel_with_spare.
Proof. apply reachable_run, reachable_init. Qed.


(** ** Interleaved buzz handlers *)

Lemma winners_insert (pool : list Task) (i : nat) (t t' : Task) :
  pool !! i = Some t ->
  (length (winners (<[i := t']> pool)) + Nat.b2n (tk_won t) =
   length (winners pool) + Nat.b2n (tk_won t'))%nat.
Proof.
  revert i. induction pool as [|x pool IH]; intros i Hi; [done|].
  destruct i as [|i]; simpl in *.
  - injection Hi as ->. unfold winners. simpl.
    destruct (tk_won t), (tk_won t'); simpl; lia.
  - specialize (IH i Hi). unfold winners in *. simpl.
    destruct (tk_won x); simpl; lia.
Qed.

Lemma elem_of_insert_task (pool : list Task) (i : nat) (t' x : Task) :
  x ∈ <[i := t']> pool -> x = t' \/ x ∈ pool.
Proof.
  revert i. induction pool as [|y pool IH]; intros i; [by right|].
  destruct i as [|i]; simpl; rewrite !elem_of_cons.
  - intros [->|?]; auto.
  - intros [->|Hin]; [auto|]. destruct (IH i Hin); auto.
Qed.

Lemma elem_of_winners (pool : list Task) (t : Task) :
  t ∈ winners pool <-> t ∈ pool /\ tk_won t = true.
Proof. unfold winners. by rewrite !list_elem_of_In, filter_In. Qed.

Lemma winners_none (pool : list Task) :
  length (winners pool) = 0%nat ->
  forall t, t ∈ pool -> tk_won t = false.
Proof.
  intros Hlen t Hin. destruct (tk_won t) eqn:Hw; [|done].
  assert (Ht : t ∈ winners pool) by by apply elem_of_winners.
  destruct (winners pool); [by apply elem_of_nil in Ht | done].
Qed.

Lemma unchanged_sessions_buzz_io c sid io : unchanged sessions (buzz_io c sid io).
Proof.
  destruct io; simpl.
  - apply unchanged_sessions_send_json.
  - apply unchanged_sessions_manager_broadcast.
Qed.

Lemma moved_to_locked_same sid st st' :
  sessions st' = sessions st -> moved_to_locked sid st st' = false.
Proof.
  intros Hs. unfold moved_to_locked, state_of. rewrite Hs.
  by destruct (sessions st !! sid) as [[? [] ? ? ?]|].
Qed.

Section Pool.
Variables (sid : string) (s : SessionState).
Hypothesis s_enabled : buzzer_state s = ENABLED.

(** A handler is replaced by a later stage of itself that did not touch
    the session: it was refused, or it produced its output. *)
Lemma pool_inv_update pool st st' i t t' :
  pool_inv sid s pool st ->
  pool !! i = Some t ->
  sessions st' = sessions st ->
  tk_won t' = tk_won t ->
  tk_client t' = tk_client t ->
  tk_clock t' = tk_clock t ->
  has_run t' = true ->
  (has_run t = true -> decision t' = decision t) ->
  (has_run t = false ->
   decision t' = Some (Reply rate_limited_msg) \/
   (decision t' = Some (Reply not_enabled_msg) /\
    sessions st !! sid <> Some s)) ->
  pool_inv sid s (<[i := t']> pool) st'.
Proof.
  intros (Hq & Hcase) Hi Hs Hwon Hc Hk Hrun Hdec Hnew.
  assert (Hin : t ∈ pool) by (by eapply list_elem_of_lookup_2).
  pose proof (winners_insert pool i t t' Hi) as Hlen. rewrite Hwon in Hlen.
  assert (Hsame : length (winners (<[i := t']> pool)) = length (winners pool))
    by lia.
  split.
  - intros x [->|Hx]%elem_of_insert_task; [congruence | by apply Hq].
  - rewrite Hs, Hsame. destruct Hcase as [(Hsess & Hnone & Hrl)|Hlocked].
    + left. split_and!; [done..|].
      intros x [->|Hx]%elem_of_insert_task Hr; [|by apply Hrl].
      destruct (has_run t) eqn:Ht.
      * rewrite Hdec by done. by apply Hrl.
      * destruct Hnew as [?|[_ ?]]; done.
    + right. destruct Hlocked as (c & ts & Hsess & Hone & Hwin & Hrej).
      exists c, ts. split_and!; [done..| |].
      * intros x [->|Hx]%elem_of_insert_task Hw; [|by apply Hwin].
        rewrite Hc, Hk. apply Hwin; [done|congruence].
      * intros x [->|Hx]%elem_of_insert_task Hr Hw; [|by apply Hrej].
        destruct (has_run t) eqn:Ht.
        -- rewrite Hdec by done. apply Hrej; [done..|congruence].
        -- destruct Hnew as [?|[? _]]; auto.
Qed.

(** A handler that had not run takes the enabled session. *)
Lemma pool_inv_win pool st st' i t t' :
  pool_inv sid s pool st ->
  pool !! i = Some t ->
  has_run t = false ->
  sessions st !! sid = Some s ->
  sessions st' !! sid =
    Some (locked_session s (tk_client t) (t_buzz (tk_clock t))) ->
  tk_won t' = true ->
  tk_client t' = tk_client t ->
  tk_clock t' = tk_clock t ->
  has_run t' = true ->
  pool_inv sid s (<[i := t']> pool) st'.
Proof.
  intros (Hq & Hcase) Hi Ht Hsess Hsess' Hwon Hc Hk Hrun.
  assert (Hin : t ∈ pool) by (by eapply list_elem_of_lookup_2).
  pose proof (winners_insert pool i t t' Hi) as Hlen.
  rewrite Hwon, (Hq t Hin Ht) in Hlen. simpl in Hlen.
  destruct Hcase as [(_ & Hnone & Hrl)|(c & ts & Hl & _)].
  - split.
    + intros x [->|Hx]%elem_of_insert_task; [congruence | by apply Hq].
    + right. exists (tk_client t), (t_buzz (tk_clock t)).
      split_and!; [done|lia| |].
      * intros x [->|Hx]%elem_of_insert_task Hw; [by rewrite Hc, Hk|].
        rewrite (winners_none pool Hnone x Hx) in Hw. discriminate.
      * intros x [->|Hx]%elem_of_insert_task Hr Hw; [congruence|].
        left. by apply Hrl.
  - rewrite Hsess in Hl. injection Hl as Hl.
    apply (f_equal buzzer_state) in Hl. simpl in Hl. congruence.
Qed.

Lemma step_task_inv pool st i t :
  pool_inv sid s pool st ->
  pool !! i = Some t ->
  pool_inv sid s (<[i := fst (step_task sid t st)]> pool)
                 (snd (step_task sid t st)).
Proof.
  intros Hinv Hi. unfold step_task.
  destruct (tk_phase t) as [|io|io|io e] eqn:Hph.
  - assert (Ht : has_run t = false) by (unfold has_run; by rewrite Hph).
    destruct (fst (is_limited (t_is_limited (tk_clock t)) (tk_client t)
                              (rate_limiter st))) eqn:Hlim.
    + rewrite buzz_decide_limited by done.
      eapply pool_inv_update; eauto; simpl.
      * rewrite moved_to_locked_same by done. symmetry.
        destruct Hinv as [Hq _]. apply Hq; [by eapply list_elem_of_lookup_2|done].
      * congruence.
    + pose proof Hinv as (Hq & [(Hs0 & _)|(c & ts & Hs0 & _)]).
      * rewrite (buzz_decide_enabled sid _ _ st s) by done.
        eapply pool_inv_win; eauto; simpl.
        -- by rewrite lookup_insert_eq.
        -- unfold moved_to_locked, state_of. simpl.
           rewrite Hs0, lookup_insert_eq. simpl. by rewrite s_enabled.
        -- by destruct (PyDict.get _ _).
      * rewrite (buzz_decide_not_enabled sid _ _ st (locked_session s c ts))
          by done.
        eapply pool_inv_update; eauto; simpl.
        -- rewrite moved_to_locked_same by done. symmetry.
           apply Hq; [by eapply list_elem_of_lookup_2|done].
        -- congruence.
        -- intros _. right. split; [done|]. rewrite Hs0. intros [= Hl].
           apply (f_equal buzzer_state) in Hl. simpl in Hl. congruence.
  - assert (Ht : has_run t = true) by (unfold has_run; by rewrite Hph).
    pose proof (unchanged_sessions_buzz_io (tk_ws t) sid io st) as Hs.
    destruct (buzz_io (tk_ws t) sid io st) as [r st']. simpl in Hs.
    eapply pool_inv_update; eauto; simpl.
    + by destruct r.
    + intros _. unfold decision. rewrite Hph. simpl. by destruct r.
    + congruence.
  - simpl. by rewrite list_insert_id.
  - simpl. by rewrite list_insert_id.
Qed.

Lemma run_schedule_inv schedule :
  forall pool st,
    pool_inv sid s pool st ->
    pool_inv sid s (fst (run_schedule sid schedule pool st))
                   (snd (run_schedule sid schedule pool st)).
Proof.
  induction schedule as [|i schedule IH]; intros pool st Hinv; [done|].
  simpl. destruct (pool !! i) as [t|] eqn:Hi; [|by apply IH].
  pose proof (step_task_inv pool st i t Hinv Hi) as Hstep.
  destruct (step_task sid t st) as [t' st']. by apply IH.
Qed.

Lemma pool_inv_initial pool st :
  sessions st !! sid = Some s ->
  Forall (fun t => tk_phase t = Waiting /\ tk_won t = false) pool ->
  pool_inv sid s pool st.
Proof.
  intros Hs Hall. rewrite Forall_forall in Hall. split.
  - intros t Hin _. by apply Hall.
  - left. split_and!; [done| |].
    + unfold winners. induction pool as [|t pool IH]; [done|]. simpl.
      destruct (Hall t) as [_ ->]; [apply elem_of_cons; by left|].
      apply IH. intros x Hx. apply Hall. apply elem_of_cons. by right.
    + intros t Hin Hrun. destruct (Hall t Hin) as [Hph _].
      unfold has_run in Hrun. by rewrite Hph in Hrun.
Qed.

End Pool.

Lemma pool_of_waiting attempts :
  Forall (fun t => tk_phase t = Waiting /\ tk_won t = false) (pool_of attempts).
Proof.
  unfold pool_of. apply Forall_forall. intros t Hin.
  apply list_elem_of_fmap in Hin as (a & -> & _). done.
Qed.

(** C1 (as the code has it): buzz texts received while the session is
    enabled are handled by coroutines whose pieces interleave in any
    order.  Whatever the order, at most one handler takes the session; the
    session is then locked with that handler's client as winner and its
    clock reading as timestamp; every other handler that has run was
    refused, by the limiter or with [not_enabled], the latter only once
    somebody has won.  As long as nobody has won, the session is untouched
    and every handler that has run was refused by the limiter: the first
    buzz the limiter admits wins. *)
Theorem at_most_one_winner (sid : string) (st : App) (s : SessionState)
    (attempts : list (nat * string * Clock)) (schedule : list nat) :
  sessions st !! sid = Some s ->
  buzzer_state s = ENABLED ->
  let out := run_schedule sid schedule (pool_of attempts) st in
  (length (winners (fst out)) <= 1)%nat /\
  (forall t, t ∈ winners (fst out) ->
     sessions (snd out) !! sid =
       Some (locked_session s (tk_client t) (t_buzz (tk_clock t)))) /\
  (winners (fst out) = [] ->
     sessions (snd out) !! sid = Some s /\
     forall t, t ∈ fst out -> has_run t = true ->
               decision t = Some (Reply rate_limited_msg)) /\
  (forall t, t ∈ fst out -> has_run t = true -> tk_won t = false ->
     decision t = Some (Reply rate_limited_msg) \/
     (decision t = Some (Reply not_enabled_msg) /\
      length (winners (fst out)) = 1%nat)).
Proof.
  intros Hs He out.
  pose proof (run_schedule_inv sid s He schedule (pool_of attempts) st
                (pool_inv_initial sid s (pool_of attempts) st Hs
                   (pool_of_waiting attempts))) as (Hq & Hcase).
  fold out in Hq, Hcase.
  destruct Hcase as [(Hsess & Hnone & Hrl)|(c & ts & Hsess & Hone & Hwin & Hrej)].
  - split_and!.
    + lia.
    + intros t [Hin Hw]%elem_of_winners.
      rewrite (winners_none _ Hnone t Hin) in Hw. discriminate.
    + intros _. by split.
    + intros t Hin Hr _. left. by apply Hrl.
  - split_and!.
    + lia.
    + intros t [Hin Hw]%elem_of_winners.
      destruct (Hwin t Hin Hw) as [-> ->]. done.
    + intros Hnil. rewrite Hnil in Hone. discriminate.
    + intros t Hin Hr Hw. destruct (Hrej t Hin Hr Hw) as [?|?]; auto.
Qed.

(** Both teams buzz at once on the open duel and the second team's handler
    runs first: it is the one winner. *)
Lemma at_most_one_winner_witness :
  let attempts := [(0%nat, "gadzit", clock_at 1); (1%nat, "phoenix", clock_at 1)] in
  let out := run_schedule "main" [1; 0; 0; 1]%nat (pool_of attempts) duel_open in
  sessions duel_open !! "main" =
    Some (mkSessionState "main" ENABLED None None 1) /\
  (length (winners (fst out)) <= 1)%nat /\
  tk_client <$> winners (fst out) = ["phoenix"].
Proof.
  cbv zeta.
  assert (H1 : sessions duel_open !! "main" =
               Some (mkSessionState "main" ENABLED None None 1))
    by (vm_compute; reflexivity).
  split_and!; [exact H1| |vm_compute; reflexivity].
  exact (proj1 (at_most_one_winner "main" duel_open _
                  [(0%nat, "gadzit", clock_at 1); (1%nat, "phoenix", clock_at 1)]
                  [1; 0; 0; 1]%nat H1 eq_refl)).
Defined.

(** C1, refuted as worded: on a reachable state whose session is enabled,
    the one buzz that arrives is refused by the limiter; no attempt
    succeeds and the session stays enabled. *)
Lemma rate_limited_buzz_leaves_no_winner :
  let out := run_schedule "main" [0; 0]%nat
               (pool_of [(1%nat, "phoenix", clock_at 4)])
               duel_open_after_spam in
  reachable duel_open_after_spam /\
  state_of "main" duel_open_after_spam = Some ENABLED /\
  winners (fst out) = [] /\
  decision <$> fst out = [Some (Reply rate_limited_msg)] /\
  state_of "main" (snd out) = Some ENABLED /\
  last (received (world (snd out)) 1) = Some rate_limited_msg.
Proof.
  cbv zeta. split; [apply reachable_run, reachable_duel_ready|].
  split_and!; vm_compute; reflexivity.
Qed.

(** * Further properties of the connection manager *)

Lemma pop_absent {V} (k : string) (d : PyDict.t V) :
  k ∉ PyDict.keys d -> PyDict.pop k d = d.
Proof.
  induction d as [|[k' v'] d IH]; simpl; [done|].
  rewrite not_elem_of_cons. intros [Hne Hnin].
  destruct (String.eqb_spec k k'); [done|]. by rewrite IH.
Qed.

Lemma pop_set_absent {V} (k : string) (v : V) (d : PyDict.t V) :
  k ∉ PyDict.keys d -> PyDict.pop k (PyDict.set k v d) = d.
Proof.
  induction d as [|[k' v'] d IH]; simpl.
  - intros _. by rewrite String.eqb_refl.
  - rewrite not_elem_of_cons. intros [Hne Hnin].
    destruct (String.eqb_spec k k'); [done|]. simpl.
    destruct (String.eqb_spec k k'); [done|]. by rewrite IH.
Qed.

Lemma keys_pop_notin {V} (k : string) (d : PyDict.t V) :
  PyDict.wf d -> k ∉ PyDict.keys (PyDict.pop k d).
Proof.
  intros Hwf. apply PyDictFacts.get_None. by apply PyDictFacts.get_pop_eq.
Qed.

Lemma length_set {V} (k : string) (v : V) (d : PyDict.t V) :
  length (PyDict.set k v d) =
  (length d + (if PyDict.contains k d then 0 else 1))%nat.
Proof.
  unfold PyDict.contains. induction d as [|[k' v'] d IH]; simpl; [done|].
  destruct (String.eqb_spec k k'); simpl; [lia|]. rewrite IH.
  destruct (PyDict.get k d); lia.
Qed.

(** X1: [disconnect] removes the client's registration from the session
    and nothing else; for a client or a session that is not there it
    changes nothing, so a second call is a no-op. *)
Theorem disconnect_unregisters (sid client_id : string) (conns : Connections) :
  (forall s t, conns !! s = Some t -> PyDict.wf t) ->
  let conns' := disconnect sid client_id conns in
  PyDict.get client_id (session_table conns' sid) = None /\
  (forall other, other <> client_id ->
     PyDict.get other (session_table conns' sid) =
     PyDict.get other (session_table conns sid)) /\
  (forall s, s <> sid -> conns' !! s = conns !! s) /\
  (PyDict.get client_id (session_table conns sid) = None -> conns' = conns) /\
  disconnect sid client_id conns' = conns'.
Proof.
  intros Hwf conns'. unfold conns', disconnect, session_table.
  unfold PyDict.t in *.
  destruct (conns !! sid) as [table|] eqn:Hsid; simpl.
  - pose proof (Hwf sid table Hsid) as Ht.
    rewrite !lookup_insert_eq. simpl. split_and!.
    + by apply PyDictFacts.get_pop_eq.
    + intros other Hne. by apply PyDictFacts.get_pop_ne.
    + intros s Hne. by rewrite lookup_insert_ne.
    + intros Hnone. apply PyDictFacts.get_None in Hnone.
      rewrite pop_absent by done. by apply insert_id.
    + rewrite insert_insert_eq. f_equal.
      apply pop_absent. by apply keys_pop_notin.
  - rewrite Hsid. simpl. by split_and!.
Qed.

(** On the ready duel the second team's registration goes away and the
    first team's stays. *)
Lemma disconnect_unregisters_witness :
  let conns' := disconnect "main" "phoenix" (manager duel_ready) in
  PyDict.get "phoenix" (session_table conns' "main") = None /\
  PyDict.get "gadzit" (session_table conns' "main") =
    Some (mkConnInfo 0 "participant").
Proof.
  cbv zeta.
  destruct (disconnect_unregisters "main" "phoenix" (manager duel_ready)
              (reachable_manager_wf duel_ready reachable_duel_ready))
    as (Hgone & Hother & _).
  split; [exact Hgone|].
  rewrite (Hother "gadzit") by discriminate. vm_compute. reflexivity.
Defined.

(** X2: a successful [connect] of a client that was not registered adds
    it at the end of the session's client list and counts one more; a
    following [disconnect] gives the session's table back as it was.  A
    reconnect of a registered client keeps list and count. *)
Theorem connect_counts (new_ws : nat) (sid client_id r : string)
    (conns : Connections) (w : World) (ch : Channel) :
  w !! new_ws = Some ch ->
  can_io ch = true ->
  let conns' := snd (fst (connect new_ws sid client_id r conns w)) in
  match PyDict.get client_id (session_table conns sid) with
  | None =>
      get_connected_teams sid conns' =
        (get_connected_teams sid conns ++ [client_id])%list /\
      count sid conns' = count sid conns + 1 /\
      session_table (disconnect sid client_id conns') sid =
        session_table conns sid
  | Some _ =>
      get_connected_teams sid conns' = get_connected_teams sid conns /\
      count sid conns' = count sid conns
  end.
Proof.
  intros Hw Hio conns'.
  assert (Hc : conns' =
            <[sid := PyDict.set client_id (mkConnInfo new_ws r)
                       (session_table conns sid)]> conns).
  { unfold conns', connect, ws_accept. by rewrite Hw, Hio. }
  clearbody conns'. subst conns'.
  unfold get_connected_teams, count.
  assert (Ht : forall c : PyDict.t ConnInfo,
            session_table (<[sid := c]> conns) sid = c).
  { intros c. unfold session_table. by rewrite lookup_insert_eq. }
  rewrite !Ht, length_set. unfold PyDict.contains.
  destruct (PyDict.get client_id (session_table conns sid)) as [old|] eqn:Hget.
  - split; [|lia]. apply PyDictFacts.keys_set_present.
    by eapply PyDictFacts.get_Some_keys.
  - apply PyDictFacts.get_None in Hget. split_and!.
    + by apply PyDictFacts.keys_set_absent.
    + lia.
    + unfold disconnect. rewrite lookup_insert_eq, insert_insert_eq, Ht.
      by apply pop_set_absent.
Qed.

(** A spectator screen joins the ready duel on the spare channel. *)
Lemma connect_counts_witness :
  let conns := manager duel_with_spare in
  let conns' := snd (fst (connect 2 "main" "screen" "screen" conns
                                  (world duel_with_spare))) in
  get_connected_teams "main" conns' = ["gadzit"; "phoenix"; "screen"] /\
  count "main" conns' = 3 /\
  session_table (disconnect "main" "screen" conns') "main" =
    session_table conns "main".
Proof.
  cbv zeta.
  pose proof (connect_counts 2 "main" "screen" "screen"
                (manager duel_with_spare) (world duel_with_spare)
                fresh_channel ltac:(vm_compute; reflexivity) eq_refl) as H.
  cbv zeta in H.
  change (PyDict.get "screen" (session_table (manager duel_with_spare) "main"))
    with (@None ConnInfo) in H.
  destruct H as (Hk & Hc & Hd).
  split_and!; [rewrite Hk | rewrite Hc | exact Hd]; vm_compute; reflexivity.
Defined.

(** X3: [send_to] appends the message on the channel of the named client
    and touches no other channel; when the client is not registered in the
    session, or its channel cannot be written to, nothing happens and
    nothing is raised. *)
Theorem send_to_unicast (sid client_id : string) (message : json)
    (conns : Connections) (w : World) :
  let w' := send_to sid client_id message conns w in
  match PyDict.get client_id (session_table conns sid) with
  | Some conn =>
      if sendable w (ws conn)
      then received w' (ws conn) = (received w (ws conn) ++ [message])%list /\
           (forall c, c <> ws conn -> w' !! c = w !! c)
      else w' = w
  | None => w' = w
  end.
Proof.
  intros w'. unfold w', send_to.
  destruct (PyDict.get client_id (session_table conns sid)) as [conn|]; [|done].
  destruct (sendable w (ws conn)) eqn:Hs.
  - destruct (ws_send_json_sendable (ws conn) message w Hs) as (ch & _ & Hw).
    rewrite Hw. destruct (ws_send_json_effect _ _ _ _ Hw) as (_ & Hr & Ho & _).
    by split.
  - by rewrite ws_send_json_unsendable.
Qed.

(** * Further properties of the administrative endpoints *)

Lemma disable_buzzer_effect sid st s :
  sessions st !! sid = Some s ->
  exists st',
    disable_buzzer sid st = (Ok (JObj [("status", JStr "disabled")]), st') /\
    same_core
      (with_sessions (<[sid := disabled_session s]> (sessions st)) st) st'.
Proof.
  intros Hs. unfold disable_buzzer. mrun. rewrite Hs. mrun.
  fold (disabled_session s).
  set (st1 := with_sessions _ st).
  pose proof (broadcast_state_core sid st1) as Hc.
  pose proof (broadcast_state_ok sid st1) as Hok.
  destruct (broadcast_state sid st1) as [[[]|e] st']; simpl in *.
  - by exists st'.
  - exfalso. assert (Raise e = Ok ()); [|discriminate].
    apply Hok. subst st1. simpl. rewrite lookup_insert_eq. by eexists.
Qed.

Lemma reset_buzzer_effect sid st s :
  sessions st !! sid = Some s ->
  exists st',
    reset_buzzer sid st = (Ok (JObj [("status", JStr "reset")]), st') /\
    same_core
      (with_sessions (<[sid := reset_session s]> (sessions st)) st) st'.
Proof.
  intros Hs. unfold reset_buzzer. mrun. rewrite Hs. mrun.
  fold (reset_session s).
  set (st1 := with_sessions _ st).
  pose proof (broadcast_state_core sid st1) as Hc.
  pose proof (broadcast_state_ok sid st1) as Hok.
  destruct (broadcast_state sid st1) as [[[]|e] st']; simpl in *.
  - by exists st'.
  - exfalso. assert (Raise e = Ok ()); [|discriminate].
    apply Hok. subst st1. simpl. rewrite lookup_insert_eq. by eexists.
Qed.

(** X4: on an existing session, reset and disable both succeed from every
    buzzer state and leave the buzzer disabled with the question counter
    as it was; reset clears winner and timestamp, disable keeps them.
    After either of them enable succeeds, so a locked buzzer can be
    reopened through disable as well as through reset; the reopened
    session has no winner and the counter is one higher. *)
Theorem reset_and_disable_reopen (sid : string) (st : App) (s : SessionState) :
  sessions st !! sid = Some s ->
  let r := reset_buzzer sid st in
  let d := disable_buzzer sid st in
  fst r = Ok (JObj [("status", JStr "reset")]) /\
  sessions (snd r) = <[sid := reset_session s]> (sessions st) /\
  teams_db (snd r) = teams_db st /\
  fst d = Ok (JObj [("status", JStr "disabled")]) /\
  sessions (snd d) = <[sid := disabled_session s]> (sessions st) /\
  teams_db (snd d) = teams_db st /\
  (forall st1, st1 = snd r \/ st1 = snd d ->
     fst (enable_buzzer sid st1) =
       Ok (JObj [("status", JStr "enabled");
                 ("question_number", JInt (question_number s + 1))]) /\
     sessions (snd (enable_buzzer sid st1)) !! sid = Some (enabled_session s)).
Proof.
  intros Hs r d.
  destruct (reset_buzzer_effect sid st s Hs) as (sr & Hr & Hsr & Htr & _).
  destruct (disable_buzzer_effect sid st s Hs) as (sd & Hd & Hsd & Htd & _).
  unfold r, d. rewrite Hr, Hd. simpl in *. split_and!; try done.
  intros st1 [-> | ->].
  - destruct (enable_buzzer_open sid sr (reset_session s))
      as (st2 & -> & Hs2 & _); [by rewrite Hsr, lookup_insert_eq|done|].
    simpl. rewrite Hs2, lookup_insert_eq. done.
  - destruct (enable_buzzer_open sid sd (disabled_session s))
      as (st2 & -> & Hs2 & _); [by rewrite Hsd, lookup_insert_eq|done|].
    simpl. rewrite Hs2, lookup_insert_eq. done.
Qed.

(** On the locked duel, disable and then enable opens question 2. *)
Lemma reset_and_disable_reopen_witness :
  sessions duel_locked !! "main" =
    Some (mkSessionState "main" LOCKED (Some "gadzit") (Some 1%float) 1) /\
  fst (enable_buzzer "main" duel_locked) =
    Raise (HTTPException 400 "Reset buzzer first") /\
  fst (enable_buzzer "main" (snd (disable_buzzer "main" duel_locked))) =
    Ok (JObj [("status", JStr "enabled"); ("question_number", JInt 2)]).
Proof.
  assert (H1 : sessions duel_locked !! "main" =
               Some (mkSessionState "main" LOCKED (Some "gadzit") (Some 1%float) 1))
    by (vm_compute; reflexivity).
  split_and!; [exact H1 | |].
  - by rewrite (enable_buzzer_locked "main" duel_locked _ H1).
  - destruct (reset_and_disable_reopen "main" duel_locked _ H1)
      as (_ & _ & _ & _ & _ & _ & Hen).
    exact (proj1 (Hen _ (or_intror eq_refl))).
Defined.

(** X5: the panic button does to the state exactly what reset does to
    session [main], broadcast included; the two differ in the body of the
    answer only, and both end in a [KeyError] when there is no session
    [main]. *)
Theorem panic_is_reset_main (st : App) :
  snd (panic_button st) = snd (reset_buzzer "main" st) /\
  match sessions st !! "main" with
  | Some _ =>
      fst (panic_button st) = Ok (JObj [("status", JStr "panic_executed")]) /\
      fst (reset_buzzer "main" st) = Ok (JObj [("status", JStr "reset")])
  | None =>
      panic_button st = (Raise (KeyError "main"), st) /\
      reset_buzzer "main" st = (Raise (KeyError "main"), st)
  end.
Proof.
  destruct (sessions st !! "main") as [s|] eqn:Hs.
  - destruct (reset_buzzer_effect "main" st s Hs) as (sr & Hr & _).
    assert (Hp : panic_button st =
                 (Ok (JObj [("status", JStr "panic_executed")]), sr)).
    { revert Hr. unfold panic_button, reset_buzzer. mrun. rewrite Hs. mrun.
      destruct (broadcast_state "main" _) as [[[]|e] st']; simpl;
        intros [= <-]; done. }
    by rewrite Hp, Hr.
  - unfold panic_button, reset_buzzer, broadcast_state. mrun.
    repeat (rewrite Hs; mrun). done.
Qed.

(** * Sessions are neither created nor destroyed *)

Lemma only_main_eq st st' :
  sessions st' = sessions st -> manager st' = manager st ->
  only_main st -> only_main st'.
Proof. unfold only_main. by intros -> ->. Qed.

Lemma keeps_only_main_same {A} (m : M A) :
  unchanged sessions m -> unchanged manager m -> keeps only_main m.
Proof. intros Hs Hm st. apply only_main_eq; [apply Hs | apply Hm]. Qed.

Lemma keeps_only_main_set_session sid s' st0 a :
  only_main st0 -> sessions st0 !! sid = Some a ->
  session_id s' = session_id a ->
  keeps only_main (set_session sid s').
Proof.
  intros (Hdom0 & _ & Hid0) Ha Hs' st (Hdom & Hman & Hid).
  assert (sid = "main") as -> by (apply Hdom0; by eexists).
  unfold only_main. simpl. split_and!; [|done|].
  - intros k. destruct (decide (k = "main")) as [->|Hne].
    + rewrite lookup_insert_eq. split; [done|by eexists].
    + rewrite lookup_insert_ne by done. apply Hdom.
  - intros s. rewrite lookup_insert_eq. intros [= <-].
    rewrite Hs'. by apply Hid0.
Qed.

Lemma broadcast_dom sid message exclude (conns : Connections) w k :
  is_Some (fst (broadcast sid message exclude conns w) !! k) <->
  is_Some (conns !! k).
Proof.
  unfold broadcast. destruct (conns !! sid) as [table|] eqn:Hsid; [|done].
  destruct (broadcast_loop _ _ _ _ _) as [w' dead]. simpl.
  destruct (decide (sid = k)) as [->|Hne].
  - rewrite lookup_insert_eq, Hsid. split; by eexists.
  - by rewrite lookup_insert_ne.
Qed.

Lemma keeps_only_main_broadcast sid message exclude :
  keeps only_main (manager_broadcast sid message exclude).
Proof.
  intros st (Hdom & Hman & Hid). unfold manager_broadcast.
  pose proof (broadcast_dom sid message exclude (manager st) (world st)) as Hb.
  destruct (broadcast sid message exclude (manager st) (world st))
    as [conns w]. simpl in *. unfold only_main. simpl. split_and!; [done| |done].
  intros k Hk. apply Hman. by apply Hb.
Qed.

Lemma keeps_only_main_disconnect sid client_id :
  keeps only_main
    (modify (fun st => with_manager (disconnect sid client_id (manager st)) st)).
Proof.
  intros st (Hdom & Hman & Hid). unfold only_main. simpl.
  split_and!; [done| |done].
  intros k. unfold disconnect.
  destruct (manager st !! sid) as [table|] eqn:Hsid; [|apply Hman].
  destruct (decide (sid = k)) as [->|Hne].
  - intros _. apply Hman. by eexists.
  - rewrite lookup_insert_ne by done. apply Hman.
Qed.

Lemma keeps_only_main_connect c sid client_id r st0 a :
  only_main st0 -> sessions st0 !! sid = Some a ->
  keeps only_main (manager_connect c sid client_id r).
Proof.
  intros (Hdom0 & _) Ha st (Hdom & Hman & Hid).
  assert (sid = "main") as -> by (apply Hdom0; by eexists).
  unfold manager_connect, connect.
  destruct (ws_accept c (world st)) as [w1|]; simpl; [|done].
  unfold only_main. simpl. split_and!; [done| |done].
  intros k. destruct (decide (k = "main")) as [->|Hne]; [done|].
  rewrite lookup_insert_ne by done. apply Hman.
Qed.

Lemma keeps_bind_get_session {B} (I : App -> Prop) sid (k : SessionState -> M B) :
  (forall st0 a, I st0 -> sessions st0 !! sid = Some a -> keeps I (k a)) ->
  keeps I (bind (get_session sid) k).
Proof.
  intros Hk st HI. unfold get_session. mrun.
  destruct (sessions st !! sid) as [a|] eqn:Ha; simpl; [|done].
  by apply (Hk st a).
Qed.

Ltac only_main_leaf :=
  first
    [ apply keeps_only_main_broadcast
    | apply keeps_only_main_disconnect
    | apply keeps_only_main_same;
      [ first [ apply unchanged_sessions_send_json
              | apply unchanged_sessions_close
              | by intros ? ]
      | first [ apply unchanged_manager_send_json
              | apply unchanged_manager_close
              | by intros ? ] ]
    | solve [ eapply keeps_only_main_set_session; eauto ]
    | solve [ eapply keeps_only_main_connect; eauto ] ].

Ltac only_main_auto :=
  unfold broadcast_state;
  repeat first
    [ apply keeps_bind_get_session; intros ? ? ? ?
    | keeps_step
    | only_main_leaf ].

Lemma keeps_only_main_on_buzz c sid client_id clk :
  keeps only_main (on_buzz c sid client_id clk).
Proof. unfold on_buzz. only_main_auto. Qed.

Lemma exec_only_main op st : only_main st -> only_main (exec op st).
Proof.
  revert st.
  destruct op as [sid|sid|sid|t d| |a an b bn| |c sid tok now
                 |c sid cid r clk raw|sid cid r|c]; simpl;
    [ change (keeps only_main (enable_buzzer sid)); unfold enable_buzzer
    | change (keeps only_main (disable_buzzer sid)); unfold disable_buzzer
    | change (keeps only_main (reset_buzzer sid)); unfold reset_buzzer
    | change (keeps only_main (update_score t d)); unfold update_score
    | change (keeps only_main reset_scores); unfold reset_scores
    | change (keeps only_main (set_teams a an b bn)); unfold set_teams
    | change (keeps only_main panic_button); unfold panic_button
    | change (keeps only_main (websocket_open c sid tok now));
      unfold websocket_open
    | change (keeps only_main (handle_message c sid cid r clk raw));
      unfold handle_message; destruct raw as [[]|]
    | change (keeps only_main (on_disconnect sid cid r));
      unfold on_disconnect
    | done ];
    only_main_auto; apply keeps_only_main_on_buzz.
Qed.

Lemma initial_only_main w : only_main (initial_app w).
Proof.
  unfold only_main. simpl. split_and!.
  - intros sid. split.
    + intros [s [-> _]%lookup_singleton_Some]. done.
    + intros ->. rewrite lookup_singleton_eq. by eexists.
  - intros sid [t Ht]. by rewrite lookup_empty in Ht.
  - intros s. rewrite lookup_singleton_eq. by intros [= <-].
Qed.

Lemma reachable_only_main st : reachable st -> only_main st.
Proof.
  induction 1 as [w|op st _ IH];
    [apply initial_only_main | by apply exec_only_main].
Qed.

(** X6: in every state the server can reach, [main] is the one session
    and clients are registered under it only.  For any other session id,
    enable answers 404 "Session not found", disable and reset end in a
    [KeyError], and a WebSocket handshake never enters the loop: it
    registers nothing and closes a channel it can write to with code 4004.
    None of them changes the state otherwise. *)
Theorem unknown_session_is_refused (st : App) (sid : string) :
  reachable st ->
  sid <> "main" ->
  is_Some (sessions st !! "main") /\
  manager st !! sid = None /\
  enable_buzzer sid st = (Raise (HTTPException 404 "Session not found"), st) /\
  disable_buzzer sid st = (Raise (KeyError sid), st) /\
  reset_buzzer sid st = (Raise (KeyError sid), st) /\
  (forall c client_id r now,
     let out := websocket_open c sid (Verified client_id r) now st in
     fst out <> Ok true /\
     manager (snd out) = manager st /\
     sessions (snd out) = sessions st /\
     teams_db (snd out) = teams_db st /\
     (forall ch, world st !! c = Some ch -> can_io ch = true ->
        fst out = Ok false /\
        closed <$> (world (snd out) !! c) =
          Some (Some (4004, "Session not found")))).
Proof.
  intros Hr Hne. destruct (reachable_only_main st Hr) as (Hdom & Hman & _).
  assert (Hnone : sessions st !! sid = None).
  { destruct (sessions st !! sid) eqn:Hs; [|done].
    exfalso. apply Hne, Hdom. by eexists. }
  split_and!.
  - by apply Hdom.
  - destruct (manager st !! sid) eqn:Hm; [|done].
    exfalso. apply Hne, Hman. by eexists.
  - unfold enable_buzzer, get_session. mrun. by rewrite Hnone.
  - unfold disable_buzzer. mrun. by rewrite Hnone.
  - unfold reset_buzzer. mrun. by rewrite Hnone.
  - intros c client_id r now out.
    assert (Hout : out = (close c 4004 "Session not found" ;; ret false) st).
    { unfold out, websocket_open. mrun. by rewrite Hnone. }
    clearbody out. subst out. unfold close, ws_close. mrun.
    destruct (world st !! c) as [ch|] eqn:Hc; simpl.
    + destruct (can_io ch) eqn:Hio; simpl.
      * split_and!; try done. intros ch' [= <-] _.
        by rewrite lookup_insert_eq.
      * split_and!; try done. intros ch' [= <-]. congruence.
    + by split_and!.
Qed.

(** Nothing answers under the session id [final] on the ready duel. *)
Lemma unknown_session_is_refused_witness :
  enable_buzzer "final" duel_ready =
    (Raise (HTTPException 404 "Session not found"), duel_ready) /\
  disable_buzzer "final" duel_ready = (Raise (KeyError "final"), duel_ready).
Proof.
  destruct (unknown_session_is_refused duel_ready "final" reachable_duel_ready
              ltac:(discriminate)) as (_ & _ & He & Hd & _).
  split; [exact He | exact Hd].
Defined.

(** * Invariants over all operations *)

Lemma exec_keeps (I : App -> Prop) :
  (forall sid, keeps I (enable_buzzer sid)) ->
  (forall sid, keeps I (disable_buzzer sid)) ->
  (forall sid, keeps I (reset_buzzer sid)) ->
  (forall t d, keeps I (update_score t d)) ->
  keeps I reset_scores ->
  (forall a an b bn, keeps I (set_teams a an b bn)) ->
  keeps I panic_button ->
  (forall c sid tok now, keeps I (websocket_open c sid tok now)) ->
  (forall c sid cid r clk raw, keeps I (handle_message c sid cid r clk raw)) ->
  (forall sid cid r, keeps I (on_disconnect sid cid r)) ->
  (forall c st, I st -> I (with_world (peer_gone c (world st)) st)) ->
  forall op st, I st -> I (exec op st).
Proof.
  intros H1 H2 H3 H4 H5 H6 H7 H8 H9 H10 H11 op st.
  destruct op; simpl;
    [apply H1|apply H2|apply H3|apply H4|apply H5|apply H6|apply H7
    |apply H8|apply H9|apply H10|apply H11].
Qed.

Lemma unchanged_teams_send_json c message :
  unchanged teams_db (send_json c message).
Proof. intros st. apply send_json_core. Qed.

Lemma unchanged_rl_send_json c message :
  unchanged rate_limiter (send_json c message).
Proof. intros st. apply send_json_core. Qed.

Lemma unchanged_teams_close c code reason :
  unchanged teams_db (close c code reason).
Proof.
  intros st. unfold close. by destruct (ws_close c code reason (world st)).
Qed.

Lemma unchanged_rl_close c code reason :
  unchanged rate_limiter (close c code reason).
Proof.
  intros st. unfold close. by destruct (ws_close c code reason (world st)).
Qed.

Lemma unchanged_teams_manager_broadcast sid message exclude :
  unchanged teams_db (manager_broadcast sid message exclude).
Proof. intros st. apply manager_broadcast_ok. Qed.

Lemma unchanged_rl_manager_broadcast sid message exclude :
  unchanged rate_limiter (manager_broadcast sid message exclude).
Proof. intros st. apply manager_broadcast_ok. Qed.

Lemma unchanged_teams_manager_connect c sid client_id r :
  unchanged teams_db (manager_connect c sid client_id r).
Proof.
  intros st. unfold manager_connect.
  by destruct (connect c sid client_id r (manager st) (world st))
    as [[? ?] ?].
Qed.

Lemma unchanged_rl_manager_connect c sid client_id r :
  unchanged rate_limiter (manager_connect c sid client_id r).
Proof.
  intros st. unfold manager_connect.
  by destruct (connect c sid client_id r (manager st) (world st))
    as [[? ?] ?].
Qed.

(** ** The roster *)

Lemma roster_ok_set_existing (d : PyDict.t TeamInfo) k t t' :
  roster_ok d ->
  PyDict.get k d = Some t ->
  team_id t' = team_id t ->
  (0 <= score t -> 0 <= score t') ->
  roster_ok (PyDict.set k t' d).
Proof.
  intros (Hwf & Hent & Hlen) Hget Hid Hscore. split; [|split].
  - by apply PyDictFacts.wf_set.
  - intros k0 t0. destruct (decide (k = k0)) as [<-|Hne].
    + rewrite PyDictFacts.get_set_eq. intros [= <-].
      destruct (Hent k t Hget) as [<- Hs]. split; [done|by apply Hscore].
    + rewrite PyDictFacts.get_set_ne by done. apply Hent.
  - rewrite length_set. unfold PyDict.contains. rewrite Hget. lia.
Qed.

Lemma roster_ok_zero_scores (d : PyDict.t TeamInfo) :
  roster_ok d -> roster_ok (zero_scores d).
Proof.
  intros (Hwf & Hent & Hlen). split; [|split].
  - unfold PyDict.wf. by rewrite keys_zero_scores.
  - intros k t. rewrite get_zero_scores.
    destruct (PyDict.get k d) as [t0|] eqn:Hget; [|done].
    simpl. intros [= <-]. simpl. split; [by apply (Hent k t0)|done].
  - unfold zero_scores. by rewrite length_map.
Qed.

Lemma roster_ok_set_teams a an b bn :
  roster_ok
    (PyDict.set b (mkTeamInfo b bn 0 false None)
       (PyDict.set a (mkTeamInfo a an 0 false None) [])).
Proof.
  simpl. destruct (String.eqb_spec b a) as [->|Hne].
  - split; [|split]; simpl; [apply NoDup_singleton| |lia].
    intros k t. destruct (String.eqb_spec k a) as [->|?]; [|done].
    by intros [= <-].
  - split; [|split]; simpl; [| |lia].
    + apply NoDup_cons. split; [|apply NoDup_singleton].
      simpl. intros H. apply list_elem_of_singleton in H. congruence.
    + intros k t. destruct (String.eqb_spec k a) as [->|?].
      * by intros [= <-].
      * destruct (String.eqb_spec k b) as [->|?]; [|done]. by intros [= <-].
Qed.

Lemma keeps_roster_unchanged {A} (m : M A) :
  unchanged teams_db m -> keeps roster_inv m.
Proof. intros Hm st. unfold roster_inv. by rewrite Hm. Qed.

Ltac roster_leaf :=
  first
    [ apply keeps_roster_unchanged;
      first [ apply unchanged_teams_send_json
            | apply unchanged_teams_close
            | apply unchanged_teams_manager_broadcast
            | apply unchanged_teams_manager_connect
            | by intros ? ]
    | solve [ apply keeps_modify; intros ? ?; unfold roster_inv in *; simpl;
              first [ apply roster_ok_set_teams
                    | by apply roster_ok_zero_scores
                    | eapply roster_ok_set_existing; eauto; simpl; lia ] ] ].

Ltac roster_auto :=
  unfold broadcast_state, get_session;
  repeat first [ keeps_step | roster_leaf ].

Lemma keeps_roster_on_buzz c sid client_id clk :
  keeps roster_inv (on_buzz c sid client_id clk).
Proof. unfold on_buzz. roster_auto. Qed.

Lemma exec_roster op st : roster_inv st -> roster_inv (exec op st).
Proof.
  apply exec_keeps; intros.
  - unfold enable_buzzer. roster_auto.
  - unfold disable_buzzer. roster_auto.
  - unfold reset_buzzer. roster_auto.
  - unfold update_score. roster_auto.
  - unfold reset_scores. roster_auto.
  - unfold set_teams. roster_auto.
  - unfold panic_button. roster_auto.
  - unfold websocket_open. roster_auto.
  - unfold handle_message. destruct raw as [[]|]; roster_auto.
    apply keeps_roster_on_buzz.
  - unfold on_disconnect. roster_auto.
  - done.
Qed.

Lemma initial_roster w : roster_inv (initial_app w).
Proof.
  unfold roster_inv. simpl. apply (roster_ok_set_teams "gadzit" "GadzIT"
                                     "phoenix" "Phoenix").
Qed.

Lemma reachable_roster st : reachable st -> roster_inv st.
Proof.
  induction 1 as [w|op st _ IH]; [apply initial_roster | by apply exec_roster].
Qed.

(** X7: whatever has been done to the server, its roster holds one or two
    teams, no team id twice, every team filed under its own id, and no
    negative score. *)
Theorem roster_stays_well_formed (st : App) :
  reachable st ->
  NoDup (PyDict.keys (teams_db st)) /\
  (1 <= length (teams_db st) <= 2)%nat /\
  (forall k t, PyDict.get k (teams_db st) = Some t ->
               team_id t = k /\ 0 <= score t).
Proof.
  intros Hr. destruct (reachable_roster st Hr) as (Hwf & Hent & Hlen).
  split; [|split]; done.
Qed.

(** After a buzz on the open duel the roster is still the two seeded
    teams. *)
Lemma roster_stays_well_formed_witness :
  NoDup (PyDict.keys (teams_db duel_locked)) /\
  (1 <= length (teams_db duel_locked) <= 2)%nat.
Proof.
  destruct (roster_stays_well_formed duel_locked reachable_duel_locked)
    as (Hnd & Hlen & _).
  split; [exact Hnd | exact Hlen].
Defined.

(** ** Order and names of the roster *)

Lemma labels_set_existing (d : PyDict.t TeamInfo) k t t' :
  PyDict.get k d = Some t ->
  team_id t' = team_id t ->
  team_name t' = team_name t ->
  roster_labels (PyDict.set k t' d) = roster_labels d.
Proof.
  intros Hget Hid Hname. induction d as [|[k0 t0] d IH]; simpl in *; [done|].
  destruct (String.eqb_spec k k0) as [->|Hne]; simpl.
  - injection Hget as ->. by rewrite Hid, Hname.
  - f_equal. by apply IH.
Qed.

Lemma labels_zero_scores (d : PyDict.t TeamInfo) :
  roster_labels (zero_scores d) = roster_labels d.
Proof.
  unfold roster_labels, zero_scores. rewrite map_map. by apply map_ext.
Qed.

Lemma keeps_labels_unchanged {A} l (m : M A) :
  unchanged teams_db m -> keeps (labels_are l) m.
Proof. intros Hm st. unfold labels_are. by rewrite Hm. Qed.

Ltac labels_leaf :=
  first
    [ apply keeps_labels_unchanged;
      first [ apply unchanged_teams_send_json
            | apply unchanged_teams_close
            | apply unchanged_teams_manager_broadcast
            | apply unchanged_teams_manager_connect
            | by intros ? ]
    | solve [ apply keeps_modify; intros ? ?; unfold labels_are in *; simpl;
              first [ by rewrite labels_zero_scores
                    | erewrite labels_set_existing; eauto ] ] ].

Ltac labels_auto :=
  unfold broadcast_state, get_session;
  repeat first [ keeps_step | labels_leaf ].

Lemma keeps_labels_on_buzz l c sid client_id clk :
  keeps (labels_are l) (on_buzz c sid client_id clk).
Proof. unfold on_buzz. labels_auto. Qed.

(** X8: only a reconfiguration of the teams changes which team is
    [team_a] and which is [team_b]: every other operation leaves the ids
    and names of the roster, and their order, as they were. *)
Theorem roster_order_is_stable (op : Op) (st : App) :
  (forall a an b bn, op <> OpSetTeams a an b bn) ->
  roster_labels (teams_db (exec op st)) = roster_labels (teams_db st).
Proof.
  intros Hop.
  change (labels_are (roster_labels (teams_db st)) (exec op st)).
  assert (H0 : labels_are (roster_labels (teams_db st)) st) by done.
  revert H0. generalize (roster_labels (teams_db st)) as l. intros l.
  revert st.
  destruct op as [sid|sid|sid|t d| |a an b bn| |c sid tok now
                 |c sid cid r clk raw|sid cid r|c]; simpl;
    [ change (keeps (labels_are l) (enable_buzzer sid)); unfold enable_buzzer
    | change (keeps (labels_are l) (disable_buzzer sid)); unfold disable_buzzer
    | change (keeps (labels_are l) (reset_buzzer sid)); unfold reset_buzzer
    | change (keeps (labels_are l) (update_score t d)); unfold update_score
    | change (keeps (labels_are l) reset_scores); unfold reset_scores
    | by destruct (Hop a an b bn)
    | change (keeps (labels_are l) panic_button); unfold panic_button
    | change (keeps (labels_are l) (websocket_open c sid tok now));
      unfold websocket_open
    | change (keeps (labels_are l) (handle_message c sid cid r clk raw));
      unfold handle_message; destruct raw as [[]|]
    | change (keeps (labels_are l) (on_disconnect sid cid r));
      unfold on_disconnect
    | done ];
    labels_auto; apply keeps_labels_on_buzz.
Qed.

(** Taking 5 points from the first team leaves it the first team. *)
Lemma roster_order_is_stable_witness :
  roster_labels
    (teams_db (exec (OpUpdateScore "gadzit" (-5)) duel_ready)) =
  [("gadzit", "gadzit", "GadzIT"); ("phoenix", "phoenix", "Phoenix")].
Proof.
  rewrite (roster_order_is_stable (OpUpdateScore "gadzit" (-5)) duel_ready)
    by discriminate.
  vm_compute. reflexivity.
Defined.

(** ** The limiter's ledgers stay short *)

Lemma rl_events_is_limited_ne now c c' rl :
  c' <> c -> rl_events (snd (is_limited now c rl)) c' = rl_events rl c'.
Proof.
  intros Hne. unfold is_limited, rl_events. simpl.
  by rewrite lookup_insert_ne.
Qed.

Lemma rl_events_record_ne now c c' rl :
  c' <> c -> rl_events (record now c rl) c' = rl_events rl c'.
Proof.
  intros Hne. unfold record, rl_events at 1. simpl.
  by rewrite lookup_insert_ne.
Qed.

Lemma length_recent_events rl now ev :
  (length (recent_events rl now ev) <= length ev)%nat.
Proof.
  unfold recent_events.
  rewrite <- (List.filter_length (fun t => (now - t <? window rl)%float) ev).
  apply Nat.le_add_r.
Qed.

Lemma ledger_bounded_is_limited now c rl :
  ledger_bounded rl -> ledger_bounded (snd (is_limited now c rl)).
Proof.
  intros Hb c'. change (max_events (snd (is_limited now c rl)))
    with (max_events rl).
  destruct (decide (c' = c)) as [->|Hne].
  - rewrite rl_events_is_limited.
    pose proof (length_recent_events rl now (rl_events rl c)) as Hle.
    specialize (Hb c). revert Hle Hb.
    generalize (length (recent_events rl now (rl_events rl c))).
    generalize (length (rl_events rl c)). intros n m Hle Hb. lia.
  - rewrite rl_events_is_limited_ne by done. apply Hb.
Qed.

Lemma ledger_bounded_record now t c rl :
  ledger_bounded rl ->
  fst (is_limited now c rl) = false ->
  ledger_bounded (record t c (snd (is_limited now c rl))).
Proof.
  intros Hb Hlim c'.
  change (max_events (record t c (snd (is_limited now c rl))))
    with (max_events rl).
  destruct (decide (c' = c)) as [->|Hne].
  - rewrite rl_events_record, rl_events_is_limited, length_app. simpl.
    unfold is_limited in Hlim. simpl in Hlim.
    rewrite Z.geb_leb in Hlim. apply Z.leb_gt in Hlim.
    revert Hlim. generalize (length (recent_events rl now (rl_events rl c))).
    intros n Hlim. rewrite Nat.add_1_r. lia.
  - rewrite rl_events_record_ne, rl_events_is_limited_ne by done. apply Hb.
Qed.

Lemma rl_ok_pruned rl now c b r :
  is_limited now c rl = (b, r) -> rl_ok rl -> rl_ok r.
Proof.
  intros Heq (Hm & Hw & Hb).
  assert (r = snd (is_limited now c rl)) as -> by by rewrite Heq.
  split_and!; [done..|]. by apply ledger_bounded_is_limited.
Qed.

Lemma rl_ok_recorded rl now c r t :
  is_limited now c rl = (false, r) -> rl_ok rl -> rl_ok (record t c r).
Proof.
  intros Heq (Hm & Hw & Hb).
  assert (r = snd (is_limited now c rl)) as -> by by rewrite Heq.
  split_and!; [done..|]. apply ledger_bounded_record; [done|by rewrite Heq].
Qed.

Lemma keeps_rl_unchanged {A} (m : M A) :
  unchanged rate_limiter m -> keeps rl_inv m.
Proof. intros Hm st. unfold rl_inv. by rewrite Hm. Qed.

Ltac rl_leaf :=
  first
    [ apply keeps_rl_unchanged;
      first [ apply unchanged_rl_send_json
            | apply unchanged_rl_close
            | apply unchanged_rl_manager_broadcast
            | apply unchanged_rl_manager_connect
            | by intros ? ]
    | solve [ apply keeps_modify; intros ? ?; unfold rl_inv in *; simpl;
              first [ eapply rl_ok_recorded; [eassumption|assumption]
                    | eapply rl_ok_pruned; [eassumption|assumption] ] ] ].

Ltac rl_auto :=
  unfold broadcast_state, get_session;
  repeat first [ keeps_step | rl_leaf ].

Lemma keeps_rl_on_buzz c sid client_id clk :
  keeps rl_inv (on_buzz c sid client_id clk).
Proof. unfold on_buzz. rl_auto. Qed.

Lemma exec_rl op st : rl_inv st -> rl_inv (exec op st).
Proof.
  apply exec_keeps; intros.
  - unfold enable_buzzer. rl_auto.
  - unfold disable_buzzer. rl_auto.
  - unfold reset_buzzer. rl_auto.
  - unfold update_score. rl_auto.
  - unfold reset_scores. rl_auto.
  - unfold set_teams. rl_auto.
  - unfold panic_button. rl_auto.
  - unfold websocket_open. rl_auto.
  - unfold handle_message. destruct raw as [[]|]; rl_auto.
    apply keeps_rl_on_buzz.
  - unfold on_disconnect. rl_auto.
  - done.
Qed.

Lemma reachable_rl st : reachable st -> rl_inv st.
Proof.
  induction 1 as [w|op st _ IH]; [|by apply exec_rl].
  unfold rl_inv, rl_ok. simpl. split_and!; [done..|].
  intros c. unfold rl_events. simpl. by rewrite lookup_empty.
Qed.

(** X9: a pass through the limiter (check, then record when admitted)
    never leaves a ledger longer than the configured maximum if none was
    longer before, whatever the clock says.  So the running server keeps
    its default configuration and at most three timestamps per client, no
    matter how many buzzes a client sends. *)
Theorem ledgers_stay_bounded :
  (forall rl t_check t_rec c,
     ledger_bounded rl -> ledger_bounded (snd (rl_attempt t_check t_rec c rl))) /\
  (forall st,
     reachable st ->
     max_events (rate_limiter st) = 3 /\
     window (rate_limiter st) = 5%float /\
     forall c, (length (rl_events (rate_limiter st) c) <= 3)%nat).
Proof.
  split.
  - intros rl tc tr c Hb. unfold rl_attempt.
    destruct (is_limited tc c rl) as [b r] eqn:Heq.
    pose proof (ledger_bounded_is_limited tc c rl Hb) as Hp.
    pose proof (ledger_bounded_record tc tr c rl Hb) as Hrec.
    rewrite Heq in Hp, Hrec. simpl in *. destruct b; [done|by apply Hrec].
  - intros st Hr. destruct (reachable_rl st Hr) as (Hm & Hw & Hb).
    split_and!; [done..|]. intros c. specialize (Hb c). lia.
Qed.

(** ** Reconfiguring the teams *)

Lemma lower_ascii_idem c : lower_ascii (lower_ascii c) = lower_ascii c.
Proof.
  destruct c as [[] [] [] [] [] [] [] []]; reflexivity.
Qed.

Lemma lower_idem s : lower (lower s) = lower s.
Proof.
  induction s as [|c s IH]; simpl; [done|]. by rewrite lower_ascii_idem, IH.
Qed.

Lemma set_teams_effect a an b bn st :
  let teams := PyDict.set (lower b) (new_team (lower b) bn)
                 (PyDict.set (lower a) (new_team (lower a) an) []) in
  teams_db (snd (set_teams a an b bn st)) = teams /\
  rate_limiter (snd (set_teams a an b bn st)) = rate_limiter st /\
  forall s, sessions st !! "main" = Some s ->
    fst (set_teams a an b bn st) =
      Ok (JObj (("status", JStr "teams_set") :: get_duel_payload teams)) /\
    sessions (snd (set_teams a an b bn st)) =
      <["main" := mkSessionState (session_id s) DISABLED None
                                 (buzzer_timestamp s) 0]> (sessions st).
Proof.
  intros teams. unfold set_teams. mrun. fold (new_team (lower a) an).
  fold (new_team (lower b) bn). fold teams.
  change (sessions (with_teams_db teams st)) with (sessions st).
  destruct (sessions st !! "main") as [s|] eqn:Hs; cbv beta iota.
  - set (st1 := with_sessions _ _).
    pose proof (broadcast_state_core "main" st1) as (Hcs & Hct & Hcr).
    pose proof (broadcast_state_ok "main" st1) as Hok.
    destruct (broadcast_state "main" st1) as [[[]|e] st']; simpl in *.
    + split_and!; [done..|]. intros s0 [= <-]. by rewrite Hct.
    + exfalso. assert (Raise e = Ok ()); [|discriminate].
      apply Hok. subst st1. simpl. rewrite lookup_insert_eq. by eexists.
  - set (st1 := with_teams_db _ _).
    pose proof (broadcast_state_core "main" st1) as (Hcs & Hct & Hcr).
    destruct (broadcast_state "main" st1) as [[[]|e] st']; simpl in *;
      by split_and!.
Qed.

(** X10: for team ids made of ASCII characters, [set_teams] replaces the
    roster by the two new teams, filed under their lower-cased ids with
    score 0 and not connected, in the order given, and resets session
    [main] (disabled, no winner, question 0, timestamp kept); the limiter
    is not touched.  When the two ids are equal up to case only one team
    is left, the second name wins, and the payload of team pairs is
    empty. *)
Theorem set_teams_replaces_roster (a an b bn : string) (st : App) :
  is_ascii a = true ->
  is_ascii b = true ->
  let out := set_teams a an b bn st in
  let ta := new_team (lower a) an in
  let tb := new_team (lower b) bn in
  (lower a <> lower b ->
     teams_db (snd out) = [(lower a, ta); (lower b, tb)] /\
     get_duel_payload (teams_db (snd out)) =
       [("team_a", team_json ta); ("team_b", team_json tb)]) /\
  (lower a = lower b ->
     teams_db (snd out) = [(lower b, tb)] /\
     get_duel_payload (teams_db (snd out)) = []) /\
  (forall k, is_Some (PyDict.get k (teams_db (snd out))) -> lower k = k) /\
  rate_limiter (snd out) = rate_limiter st /\
  (forall s, sessions st !! "main" = Some s ->
     fst out = Ok (JObj (("status", JStr "teams_set")
                         :: get_duel_payload (teams_db (snd out)))) /\
     sessions (snd out) =
       <["main" := mkSessionState (session_id s) DISABLED None
                                  (buzzer_timestamp s) 0]> (sessions st)).
Proof.
  intros _ _ out ta tb.
  destruct (set_teams_effect a an b bn st) as (Ht & Hr & Hs).
  fold out ta tb in Ht, Hr, Hs. rewrite Ht. split_and!.
  - intros Hne. simpl. destruct (String.eqb_spec (lower b) (lower a));
      [congruence|done].
  - intros Heq. simpl. rewrite Heq, String.eqb_refl. done.
  - intros k. simpl.
    destruct (String.eqb_spec (lower b) (lower a)) as [Heq|Hne]; simpl.
    + destruct (String.eqb_spec k (lower b)) as [->|?];
        [intros _; apply lower_idem | by intros [? ?]].
    + destruct (String.eqb_spec k (lower a)) as [->|?];
        [intros _; apply lower_idem|].
      destruct (String.eqb_spec k (lower b)) as [->|?];
        [intros _; apply lower_idem | by intros [? ?]].
  - done.
  - exact Hs.
Qed.

(** The ready duel is reconfigured for [Red] against [Blue]. *)
Lemma set_teams_replaces_roster_witness :
  teams_db (snd (set_teams "Red" "Red Team" "Blue" "Blue Team" duel_ready)) =
    [("red", new_team "red" "Red Team"); ("blue", new_team "blue" "Blue Team")].
Proof.
  destruct (set_teams_replaces_roster "Red" "Red Team" "Blue" "Blue Team"
              duel_ready eq_refl eq_refl) as (Hdistinct & _).
  apply Hdistinct. discriminate.
Defined.

(** * Further properties of the WebSocket endpoint *)

Lemma msg_type_is_exclusive data a b :
  msg_type_is data a = true -> a <> b -> msg_type_is data b = false.
Proof.
  unfold msg_type_is. destruct (field "type" data) as [[]|]; try done.
  intros ->%String.eqb_eq Hne. by apply String.eqb_neq.
Qed.

(** X11: a [ping] is answered on any connection, whatever its role, with
    one [pong] carrying the clock reading, on the sender's channel only;
    no session, roster entry, registration or ledger changes. *)
Theorem ping_is_answered (websocket : nat) (sid client_id r : string)
    (clk : Clock) (fields : list (string * json)) (st : App) :
  msg_type_is (JObj fields) "ping" = true ->
  sendable (world st) websocket = true ->
  let out := handle_message websocket sid client_id r clk
                            (Some (JObj fields)) st in
  fst out = Ok tt /\
  unicast st (snd out) websocket (pong_msg clk) /\
  rate_limiter (snd out) = rate_limiter st.
Proof.
  intros Hping Hs out. unfold out, handle_message.
  rewrite (msg_type_is_exclusive _ "ping" "buzz") by done. simpl.
  rewrite Hping. apply send_json_unicast, Hs.
Qed.

(** The spectator-less ready duel: the first team pings at time 7. *)
Lemma ping_is_answered_witness :
  last (received
          (world (exec (OpMessage 0 "main" "gadzit" "participant" (clock_at 7)
                          (Some (JObj [("type", JStr "ping")]))) duel_ready))
          0) = Some (pong_msg (clock_at 7)).
Proof.
  destruct (ping_is_answered 0 "main" "gadzit" "participant" (clock_at 7)
              [("type", JStr "ping")] duel_ready eq_refl
              ltac:(vm_compute; reflexivity)) as (_ & (Hr & _) & _).
  unfold exec. rewrite Hr. apply last_snoc.
Defined.

(** X12: an admitted buzz on an enabled session from a participant whose
    id is not in the roster locks the session for that id and then ends in
    a [KeyError]: the loop is left and nobody is sent anything. *)
Theorem buzz_outside_roster_locks_silently (websocket : nat)
    (sid client_id : string) (clk : Clock) (fields : list (string * json))
    (st : App) (s : SessionState) :
  msg_type_is (JObj fields) "buzz" = true ->
  sessions st !! sid = Some s ->
  buzzer_state s = ENABLED ->
  fst (is_limited (t_is_limited clk) client_id (rate_limiter st)) = false ->
  PyDict.get client_id (teams_db st) = None ->
  let out := handle_message websocket sid client_id "participant" clk
                            (Some (JObj fields)) st in
  fst out = Raise (KeyError client_id) /\
  sessions (snd out) =
    <[sid := locked_session s client_id (t_buzz clk)]> (sessions st) /\
  world (snd out) = world st /\
  manager (snd out) = manager st /\
  teams_db (snd out) = teams_db st.
Proof.
  intros Hbuzz Hs He Hlim Hget out. unfold out.
  rewrite handle_message_buzz, on_buzz_split by done. unfold bind.
  rewrite (buzz_decide_enabled sid client_id clk st s) by done.
  by rewrite Hget.
Qed.

(** After the teams were replaced, the old first team's connection
    buzzes: the session is locked for [gadzit] and no channel hears of
    it. *)
Lemma buzz_outside_roster_locks_silently_witness :
  let out := handle_message 0 "main" "gadzit" "participant" (clock_at 9)
                            (Some buzz_text) duel_renamed in
  reachable duel_renamed /\
  fst out = Raise (KeyError "gadzit") /\
  (buzzer_winner <$> sessions (snd out) !! "main") = Some (Some "gadzit") /\
  world (snd out) = world duel_renamed.
Proof.
  cbv zeta.
  destruct (buzz_outside_roster_locks_silently 0 "main" "gadzit" (clock_at 9)
              [("type", JStr "buzz")] duel_renamed
              (mkSessionState "main" ENABLED None None 1)
              eq_refl ltac:(vm_compute; reflexivity) eq_refl
              ltac:(vm_compute; reflexivity) ltac:(vm_compute; reflexivity))
    as (Hr & Hs & Hw & _).
  split_and!; [apply reachable_run, reachable_duel_ready | exact Hr | | exact Hw].
  unfold buzz_text. rewrite Hs, lookup_insert_eq. reflexivity.
Defined.

(** ** Who hears a broadcast *)

Lemma last_app_replicate {A} (l : list A) (n : nat) (x : A) :
  last (l ++ replicate (S n) x) = Some x.
Proof. by rewrite replicate_S_end, (assoc_L (++)), last_snoc. Qed.

Lemma deliveries_none c tgts :
  (forall k info, (k, info) ∈ tgts -> ws info <> c) ->
  deliveries c tgts = 0%nat.
Proof.
  unfold deliveries. induction tgts as [|[k info] tgts IH]; intros H; [done|].
  simpl. destruct (Nat.eqb_spec (ws info) c) as [Heq|Hne].
  - exfalso. apply (H k info); [apply elem_of_cons; by left | done].
  - apply IH. intros k' info' Hin. apply (H k' info').
    apply elem_of_cons. by right.
Qed.

(** What [broadcast] does for the clients of the session, seen from one
    client and from one channel. *)
Lemma broadcast_delivers sid message exclude (conns : Connections) w table :
  conns !! sid = Some table ->
  PyDict.wf table ->
  let out := broadcast sid message exclude conns w in
  (forall k info,
     PyDict.get k table = Some info ->
     is_excluded k exclude = false ->
     sendable w (ws info) = true ->
     last (received (snd out) (ws info)) = Some message /\
     PyDict.get k (session_table (fst out) sid) = Some info) /\
  (forall c,
     (forall k info, PyDict.get k table = Some info ->
                     is_excluded k exclude = false -> ws info <> c) ->
     received (snd out) c = received w c) /\
  (forall k, PyDict.get k table = None ->
             PyDict.get k (session_table (fst out) sid) = None).
Proof.
  intros Hsid Hwf out.
  pose proof (broadcast_loop_effect table message exclude w [])
    as (Hsame & Hrecv & Hd).
  assert (Hout : out =
            (<[sid := pop_all (unreachable w (targets table exclude)) table]>
               conns,
             fst (broadcast_loop table message exclude w []))).
  { unfold out, broadcast, PyDict.items. rewrite Hsid.
    destruct (broadcast_loop table message exclude w []) as [w' dead].
    simpl in *. by subst dead. }
  clear Hd. clearbody out. subst out. simpl.
  unfold session_table. rewrite lookup_insert_eq. simpl. split_and!.
  - intros k info Hget Hex Hs. rewrite Hrecv, Hs, get_pop_all by done. split.
    + assert (Hpos : (0 < deliveries (ws info) (targets table exclude))%nat).
      { apply (deliveries_pos _ k info); [|done].
        apply elem_of_targets. split; [|done]. by apply get_Some_elem. }
      destruct (deliveries (ws info) (targets table exclude)) as [|n]; [lia|].
      apply last_app_replicate.
    + rewrite bool_decide_eq_false_2; [done|].
      rewrite elem_of_unreachable. intros (info' & Hin & Hs').
      apply elem_of_targets in Hin as [Hin _].
      apply (elem_get _ _ _ Hwf) in Hin. simplify_eq. congruence.
  - intros c Hc. rewrite Hrecv. rewrite deliveries_none.
    + destruct (sendable w c); simpl; by rewrite app_nil_r.
    + intros k info [Hin Hex]%elem_of_targets.
      apply (Hc k info); [by apply elem_get | done].
  - intros k Hnone. rewrite get_pop_all by done.
    rewrite Hnone. by destruct (bool_decide _).
Qed.

Lemma manager_broadcast_delivers sid message exclude st table :
  manager st !! sid = Some table ->
  PyDict.wf table ->
  let st' := snd (manager_broadcast sid message exclude st) in
  (forall k info,
     PyDict.get k table = Some info ->
     is_excluded k exclude = false ->
     sendable (world st) (ws info) = true ->
     last (received (world st') (ws info)) = Some message /\
     PyDict.get k (session_table (manager st') sid) = Some info) /\
  (forall c,
     (forall k info, PyDict.get k table = Some info ->
                     is_excluded k exclude = false -> ws info <> c) ->
     received (world st') c = received (world st) c) /\
  (forall k, PyDict.get k table = None ->
             PyDict.get k (session_table (manager st') sid) = None).
Proof.
  intros Hsid Hwf st'.
  pose proof (broadcast_delivers sid message exclude (manager st) (world st)
                table Hsid Hwf) as H.
  unfold st', manager_broadcast.
  by destruct (broadcast sid message exclude (manager st) (world st)).
Qed.

Lemma manager_broadcast_announced sid message st :
  manager_wf st ->
  announced sid st (snd (manager_broadcast sid message None st)) message.
Proof.
  intros Hwf k info Hget Hs. unfold session_table in Hget.
  destruct (manager st !! sid) as [table|] eqn:Hsid; [|done]. simpl in Hget.
  destruct (manager_broadcast_delivers sid message None st table Hsid
              (Hwf sid table Hsid)) as (Hd & _).
  by apply Hd.
Qed.

Lemma announced_from sid st0 st st' message :
  manager st = manager st0 -> world st = world st0 ->
  announced sid st st' message -> announced sid st0 st' message.
Proof. unfold announced. by intros -> ->. Qed.

Lemma broadcast_state_announced sid st s :
  manager_wf st ->
  sessions st !! sid = Some s ->
  announced sid st (snd (broadcast_state sid st)) (state_sync s (teams_db st)).
Proof.
  intros Hwf Hs. unfold broadcast_state. mrun. rewrite Hs. mrun.
  by apply manager_broadcast_announced.
Qed.

(** ** The loser of a buzz *)

Lemma loser_of_roster teams client_id team :
  roster_ok teams ->
  PyDict.get client_id teams = Some team ->
  match loser_of client_id teams with
  | Some t =>
      team_id t <> client_id /\
      PyDict.get (team_id t) teams = Some t /\
      length teams = 2%nat
  | None => teams = [(client_id, team)]
  end.
Proof.
  intros (Hwf & Hent & Hlen) Hget. unfold loser_of.
  destruct teams as [|[k1 t1] [|[k2 t2] [|? ?]]]; simpl in *; try lia.
  - destruct (String.eqb_spec client_id k1) as [->|?]; [|done].
    injection Hget as ->.
    destruct (Hent k1 team) as [-> _]; [by rewrite String.eqb_refl|].
    by rewrite String.eqb_refl.
  - assert (Hne : k1 <> k2).
    { unfold PyDict.wf in Hwf. simpl in Hwf. apply NoDup_cons in Hwf as [Hn _].
      intros ->. apply Hn. apply elem_of_cons. by left. }
    destruct (Hent k1 t1) as [Hid1 _]; [by rewrite String.eqb_refl|].
    destruct (Hent k2 t2) as [Hid2 _].
    { destruct (String.eqb_spec k2 k1); [congruence|].
      by rewrite String.eqb_refl. }
    rewrite Hid1, Hid2.
    destruct (String.eqb_spec client_id k1) as [->|Hc1].
    + rewrite String.eqb_refl. simpl.
      destruct (String.eqb_spec k2 k1); [congruence|]. simpl.
      rewrite Hid2. destruct (String.eqb_spec k2 k1); [congruence|].
      by rewrite String.eqb_refl.
    + destruct (String.eqb_spec k1 client_id); [congruence|]. simpl.
      rewrite Hid1. by rewrite String.eqb_refl.
Qed.

(** X13: when no other coroutine runs while the handler waits on its
    sends, a buzz that is admitted on an enabled session, from a team of
    the roster, completes: the session is locked for that team, and every
    client registered in the session on a channel that can be written to,
    the winner included, has the [buzzer_locked] message as the last thing
    it was sent.  The loser it names is the other team of the roster, and
    nobody when the roster has one team. *)
Theorem accepted_buzz_is_announced (websocket : nat) (sid client_id : string)
    (clk : Clock) (fields : list (string * json)) (st : App)
    (s : SessionState) (team : TeamInfo) :
  reachable st ->
  msg_type_is (JObj fields) "buzz" = true ->
  sessions st !! sid = Some s ->
  buzzer_state s = ENABLED ->
  fst (is_limited (t_is_limited clk) client_id (rate_limiter st)) = false ->
  PyDict.get client_id (teams_db st) = Some team ->
  let out := handle_message websocket sid client_id "participant" clk
                            (Some (JObj fields)) st in
  let loser := loser_of client_id (teams_db st) in
  fst out = Ok tt /\
  sessions (snd out) =
    <[sid := locked_session s client_id (t_buzz clk)]> (sessions st) /\
  announced sid st (snd out)
    (buzzer_locked_msg client_id (team_name team) loser (t_buzz clk)
                       (teams_db st)) /\
  match loser with
  | Some t =>
      team_id t <> client_id /\
      PyDict.get (team_id t) (teams_db st) = Some t /\
      length (teams_db st) = 2%nat
  | None => teams_db st = [(client_id, team)]
  end.
Proof.
  intros Hr Hbuzz Hs He Hlim Hget out loser. unfold out.
  rewrite handle_message_buzz, on_buzz_split by done. unfold bind.
  rewrite (buzz_decide_enabled sid client_id clk st s) by done.
  rewrite Hget. fold (loser_of client_id (teams_db st)). fold loser.
  cbn [buzz_io].
  set (st1 := with_sessions _ _).
  set (msg := buzzer_locked_msg _ _ _ _ _).
  pose proof (manager_broadcast_ok sid msg None st1) as (Hok & Hcs & _).
  split_and!.
  - done.
  - by rewrite Hcs.
  - apply (announced_from sid st st1); [done..|].
    apply manager_broadcast_announced.
    exact (reachable_manager_wf st Hr).
  - apply loser_of_roster; [|done]. exact (reachable_roster st Hr).
Qed.

Lemma reachable_duel_open : reachable duel_open.
Proof. apply reachable_step, reachable_duel_ready. Qed.

(** The first team's winning buzz on the open duel names the second team
    as loser and is announced to both. *)
Lemma accepted_buzz_is_announced_witness :
  let out := handle_message 0 "main" "gadzit" "participant" (clock_at 1)
                            (Some buzz_text) duel_open in
  fst out = Ok tt /\
  team_id <$> loser_of "gadzit" (teams_db duel_open) = Some "phoenix" /\
  announced "main" duel_open (snd out)
    (buzzer_locked_msg "gadzit" "GadzIT"
       (loser_of "gadzit" (teams_db duel_open)) 1 (teams_db duel_open)).
Proof.
  cbv zeta.
  destruct (accepted_buzz_is_announced 0 "main" "gadzit" (clock_at 1)
              [("type", JStr "buzz")] duel_open
              (mkSessionState "main" ENABLED None None 1)
              (mkTeamInfo "gadzit" "GadzIT" 0 true (Some 0%float))
              reachable_duel_open eq_refl
              ltac:(vm_compute; reflexivity) eq_refl
              ltac:(vm_compute; reflexivity) ltac:(vm_compute; reflexivity))
    as (Hok & _ & Hann & _).
  split_and!; [exact Hok | vm_compute; reflexivity | exact Hann].
Defined.

(** ** Snapshots after administrative calls *)

(** X14: when no other coroutine runs while they wait on their sends,
    enable (from a buzzer that is not locked), disable and reset each end
    with the snapshot of the session they have just written: every client
    registered in the session on a channel that can be written to has that
    [state_sync] message as the last thing it was sent. *)
Theorem snapshot_follows_mutation (sid : string) (st : App) (s : SessionState) :
  reachable st ->
  sessions st !! sid = Some s ->
  (buzzer_state s <> LOCKED ->
   announced sid st (snd (enable_buzzer sid st))
             (state_sync (enabled_session s) (teams_db st))) /\
  announced sid st (snd (disable_buzzer sid st))
            (state_sync (disabled_session s) (teams_db st)) /\
  announced sid st (snd (reset_buzzer sid st))
            (state_sync (reset_session s) (teams_db st)) /\
  (forall s' teams,
     field "buzzer_state" (state_sync s' teams) =
       Some (JStr (BuzzerState_value (buzzer_state s'))) /\
     field "buzzer_winner" (state_sync s' teams) =
       Some (json_opt JStr (buzzer_winner s')) /\
     field "question_number" (state_sync s' teams) =
       Some (JInt (question_number s'))).
Proof.
  intros Hr Hs. pose proof (reachable_manager_wf st Hr) as Hwf.
  assert (Hgen : forall s',
            announced sid st
              (snd (broadcast_state sid
                      (with_sessions (<[sid := s']> (sessions st)) st)))
              (state_sync s' (teams_db st))).
  { intros s'. set (st1 := with_sessions _ st).
    apply (announced_from sid st st1); [done..|].
    apply (broadcast_state_announced sid st1 s'); [done|].
    subst st1. simpl. by rewrite lookup_insert_eq. }
  split_and!.
  - intros Hnl. specialize (Hgen (enabled_session s)).
    unfold enable_buzzer, get_session. mrun. rewrite Hs. mrun.
    destruct (buzzer_state s) eqn:Hb; try done; simpl; mrun;
      fold (enabled_session s);
      by destruct (broadcast_state sid _) as [[[]|?] ?].
  - specialize (Hgen (disabled_session s)).
    unfold disable_buzzer. mrun. rewrite Hs. mrun.
    fold (disabled_session s).
    by destruct (broadcast_state sid _) as [[[]|?] ?].
  - specialize (Hgen (reset_session s)).
    unfold reset_buzzer. mrun. rewrite Hs. mrun. fold (reset_session s).
    by destruct (broadcast_state sid _) as [[[]|?] ?].
  - intros s' teams. by split_and!.
Qed.

(** Opening the buzzer on the ready duel tells both teams about
    question 1. *)
Lemma snapshot_follows_mutation_witness :
  announced "main" duel_ready duel_open
    (state_sync (mkSessionState "main" ENABLED None None 1)
                (teams_db duel_ready)).
Proof.
  destruct (snapshot_follows_mutation "main" duel_ready seed_session
              reachable_duel_ready ltac:(vm_compute; reflexivity))
    as (Hen & _).
  exact (Hen ltac:(discriminate)).
Defined.

(** ** Leaving *)

Lemma session_table_None (conns : Connections) sid :
  conns !! sid = None -> session_table conns sid = [].
Proof. unfold session_table, PyDict.t in *. by intros ->. Qed.

Lemma session_table_Some (conns : Connections) sid table :
  conns !! sid = Some table -> session_table conns sid = table.
Proof. unfold session_table, PyDict.t in *. by intros ->. Qed.

(** X15: when no other coroutine runs while it waits on its sends, the
    disconnect handler does not raise.  It removes the client's
    registration in the session, whatever channel it was on; for a
    participant of the roster it clears the connected flag and keeps name,
    score and join time; it touches no other team and no session; and it
    tells every remaining client whose channel can be written to, with
    [opponent_disconnected] and the client's id, also when the client that
    left was not a participant. *)
Theorem disconnect_cleans_up (sid client_id r : string) (st : App) :
  reachable st ->
  let out := on_disconnect sid client_id r st in
  let teams' := teams_db (snd out) in
  fst out = Ok tt /\
  sessions (snd out) = sessions st /\
  PyDict.get client_id (session_table (manager (snd out)) sid) = None /\
  (forall t, PyDict.get client_id (teams_db st) = Some t ->
     PyDict.get client_id teams' =
       Some (if String.eqb r "participant"
             then mark_connected false None t else t)) /\
  (forall other, other <> client_id ->
     PyDict.get other teams' = PyDict.get other (teams_db st)) /\
  (forall k info,
     PyDict.get k (session_table (manager st) sid) = Some info ->
     k <> client_id ->
     sendable (world st) (ws info) = true ->
     last (received (world (snd out)) (ws info)) =
       Some (opponent_disconnected_msg client_id teams')).
Proof.
  intros Hr out teams'.
  set (st1 := with_manager (disconnect sid client_id (manager st)) st).
  set (teams1 :=
         if String.eqb r "participant"
         then match PyDict.get client_id (teams_db st) with
              | Some t => PyDict.set client_id (mark_connected false None t)
                                     (teams_db st)
              | None => teams_db st
              end
         else teams_db st).
  set (st2 := with_teams_db teams1 st1).
  assert (Hout : out =
            manager_broadcast sid (opponent_disconnected_msg client_id teams1)
                              None st2).
  { unfold out, on_disconnect. mrun. fold st1.
    change (teams_db st1) with (teams_db st).
    unfold st2, teams1, opponent_disconnected_msg.
    destruct (String.eqb r "participant"); [|reflexivity].
    destruct (PyDict.get client_id (teams_db st)); reflexivity. }
  pose proof (manager_broadcast_ok sid
                (opponent_disconnected_msg client_id teams1) None st2)
    as (Hok & Hcs & Hct & _).
  rewrite <- Hout in Hok, Hcs, Hct.
  assert (Hteams : teams' = teams1) by done.
  pose proof (reachable_manager_wf st Hr) as Hwf.
  pose proof (disconnect_wf sid client_id (manager st) Hwf) as Hwf1.
  split_and!.
  - done.
  - done.
  - destruct (manager st2 !! sid) as [table|] eqn:Hsid.
    + destruct (manager_broadcast_delivers sid
                  (opponent_disconnected_msg client_id teams1) None st2 table
                  Hsid (Hwf1 sid table Hsid)) as (_ & _ & Hnone).
      rewrite Hout. apply Hnone.
      revert Hsid. simpl. unfold disconnect.
      destruct (manager st !! sid) as [t0|] eqn:H0.
      * rewrite lookup_insert_eq. intros [= <-].
        apply PyDictFacts.get_pop_eq. by eapply Hwf.
      * congruence.
    + assert (Hm : manager (snd out) !! sid = None).
      { apply eq_None_not_Some. rewrite Hout. unfold manager_broadcast.
        pose proof (broadcast_dom sid
                      (opponent_disconnected_msg client_id teams1) None
                      (manager st2) (world st2) sid) as Hb.
        destruct (broadcast _ _ _ _ _) as [conns w]. simpl in *.
        rewrite Hb, Hsid. by intros [? ?]. }
      by rewrite (session_table_None _ _ Hm).
  - intros t Ht. rewrite Hteams. unfold teams1. rewrite Ht.
    destruct (String.eqb r "participant"); [|done].
    apply PyDictFacts.get_set_eq.
  - intros other Hne. rewrite Hteams. unfold teams1.
    destruct (String.eqb r "participant"); [|done].
    destruct (PyDict.get client_id (teams_db st)); [|done].
    by apply PyDictFacts.get_set_ne.
  - intros k info Hget Hne Hs. rewrite Hteams.
    destruct (manager st !! sid) as [t0|] eqn:H0;
      [|by rewrite (session_table_None _ _ H0) in Hget].
    rewrite (session_table_Some _ _ _ H0) in Hget.
    assert (Hsid : manager st2 !! sid = Some (PyDict.pop client_id t0)).
    { simpl. unfold disconnect. unfold PyDict.t in *.
      by rewrite H0, lookup_insert_eq. }
    destruct (manager_broadcast_delivers sid
                (opponent_disconnected_msg client_id teams1) None st2 _
                Hsid (Hwf1 sid _ Hsid)) as (Hd & _).
    rewrite Hout. apply (Hd k info); [|done|done].
    by rewrite PyDictFacts.get_pop_ne.
Qed.

(** The second team leaves the ready duel: the first team is told. *)
Lemma disconnect_cleans_up_witness :
  let out := on_disconnect "main" "phoenix" "participant" duel_ready in
  PyDict.get "phoenix" (session_table (manager (snd out)) "main") = None /\
  (is_connected <$> PyDict.get "phoenix" (teams_db (snd out))) = Some false /\
  last (received (world (snd out)) 0) =
    Some (opponent_disconnected_msg "phoenix" (teams_db (snd out))).
Proof.
  cbv zeta.
  destruct (disconnect_cleans_up "main" "phoenix" "participant" duel_ready
              reachable_duel_ready) as (_ & _ & Hgone & Hflag & _ & Hsent).
  split_and!; [exact Hgone | |].
  - rewrite (Hflag (mkTeamInfo "phoenix" "Phoenix" 0 true (Some 0%float)))
      by (vm_compute; reflexivity).
    reflexivity.
  - apply (Hsent "gadzit" (mkConnInfo 0 "participant"));
      [vm_compute; reflexivity | discriminate | vm_compute; reflexivity].
Defined.

(** ** Joining *)

(** Read a component of a state that was built by the [with_] updates. *)
Ltac app_simpl :=
  cbn [teams_db sessions manager world rate_limiter
       with_world with_manager with_teams_db with_sessions with_rate_limiter].

Section Join.
Variables (c : nat) (sid client_id r : string) (now : float) (st : App).
Variables (s : SessionState) (ch : Channel).
Hypothesis Hs : sessions st !! sid = Some s.
Hypothesis Hch : world st !! c = Some ch.
Hypothesis Hio : can_io ch = true.
Hypothesis Hnew : PyDict.get client_id (session_table (manager st) sid) = None.

Let table := session_table (manager st) sid.
Let w1 : World :=
  <[c := mkChannel true (closed ch) (broken ch) (sent ch)]> (world st).
Let teams1 := joined_roster client_id r now (teams_db st).
Let msg := connected_msg client_id r s teams1.
Let w2 : World :=
  <[c := mkChannel true (closed ch) (broken ch) (sent ch ++ [msg])]> w1.
Let st3 : App :=
  mkApp (<[sid := PyDict.set client_id (mkConnInfo c r) table]> (manager st))
        (rate_limiter st) (sessions st) teams1 w2.

Lemma websocket_open_first :
  websocket_open c sid (Verified client_id r) now st =
  if String.eqb r "participant"
  then (let (_, st') :=
          manager_broadcast sid (opponent_connected_msg client_id teams1)
                            (Some client_id) st3 in
        (Ok true, st'))
  else (Ok true, st3).
Proof.
  assert (Hconn : manager_connect c sid client_id r st =
                  (Ok tt, with_world w1
                            (with_manager
                               (<[sid := PyDict.set client_id (mkConnInfo c r)
                                           table]> (manager st)) st))).
  { unfold manager_connect, connect, ws_accept, table.
    by rewrite Hch, Hio, Hnew. }
  assert (Hsend : forall m st0, world st0 = w1 ->
            send_json c m st0 =
              (Ok tt,
               with_world
                 (<[c := mkChannel true (closed ch) (broken ch)
                                   (sent ch ++ [m])]> w1) st0)).
  { intros m st0 Hw. unfold send_json, ws_send_json. rewrite Hw.
    unfold w1 at 1. rewrite lookup_insert_eq. unfold can_send.
    cbn [accepted andb].
    change (can_io (mkChannel true (closed ch) (broken ch) (sent ch)))
      with (can_io ch).
    by rewrite Hio. }
  unfold websocket_open. mrun. rewrite Hs. mrun. rewrite Hconn. mrun.
  unfold st3, w2, msg, teams1, joined_roster, opponent_connected_msg.
  destruct (String.eqb r "participant") eqn:Hr; app_simpl.
  - destruct (PyDict.get client_id (teams_db st)) as [t|] eqn:Ht; mrun;
      app_simpl; rewrite Hs; mrun; app_simpl;
      rewrite Hsend by done; unfold manager_broadcast; app_simpl;
      by destruct (broadcast _ _ _ _ _) as [? ?].
  - mrun. app_simpl. rewrite Hs. mrun. app_simpl.
    rewrite Hsend by done. reflexivity.
Qed.

End Join.

Lemma broadcast_keeps_excluded sid message exclude (conns : Connections) w
    table k info :
  conns !! sid = Some table ->
  PyDict.wf table ->
  PyDict.get k table = Some info ->
  is_excluded k exclude = true ->
  PyDict.get k (session_table (fst (broadcast sid message exclude conns w)) sid)
    = Some info.
Proof.
  intros Hsid Hwf Hget Hex.
  pose proof (broadcast_loop_effect table message exclude w []) as (_ & _ & Hd).
  unfold broadcast, PyDict.items. rewrite Hsid.
  destruct (broadcast_loop table message exclude w []) as [w' dead].
  simpl in *. subst dead. unfold session_table. rewrite lookup_insert_eq.
  simpl. rewrite get_pop_all by done.
  rewrite bool_decide_eq_false_2; [done|].
  rewrite elem_of_unreachable. intros (info' & Hin & _).
  apply elem_of_targets in Hin as [_ Hin]. congruence.
Qed.

(** X16: when no other coroutine runs while the handshake waits on its
    calls, the first connection of a client to an existing session, on a
    channel that accepts and that no registration of the session uses,
    enters the loop: the client is registered on the channel, the channel
    is sent the [connected] message and nothing else, and no session
    changes.  A participant of the roster is marked connected with the
    join time, and every other registered client that can be written to is
    told [opponent_connected]; for any other role the roster is as before
    and no other channel is sent anything. *)
Theorem first_join (c : nat) (sid client_id r : string) (now : float) (st : App)
    (s : SessionState) (ch : Channel) :
  reachable st ->
  sessions st !! sid = Some s ->
  world st !! c = Some ch ->
  can_io ch = true ->
  PyDict.get client_id (session_table (manager st) sid) = None ->
  (forall k info, PyDict.get k (session_table (manager st) sid) = Some info ->
                  ws info <> c) ->
  let out := websocket_open c sid (Verified client_id r) now st in
  let teams' := joined_roster client_id r now (teams_db st) in
  fst out = Ok true /\
  sessions (snd out) = sessions st /\
  teams_db (snd out) = teams' /\
  PyDict.get client_id (session_table (manager (snd out)) sid) =
    Some (mkConnInfo c r) /\
  received (world (snd out)) c =
    (received (world st) c ++ [connected_msg client_id r s teams'])%list /\
  (if String.eqb r "participant"
   then forall k info,
          PyDict.get k (session_table (manager st) sid) = Some info ->
          sendable (world st) (ws info) = true ->
          last (received (world (snd out)) (ws info)) =
            Some (opponent_connected_msg client_id teams')
   else forall c', c' <> c ->
          received (world (snd out)) c' = received (world st) c').
Proof.
  intros Hr Hs Hch Hio Hnew Hfree out teams'.
  pose proof (session_table_wf (manager st) sid (reachable_manager_wf st Hr))
    as Hwf.
  set (table := session_table (manager st) sid) in *.
  set (table3 := PyDict.set client_id (mkConnInfo c r) table).
  set (msg := connected_msg client_id r s teams').
  set (w1 := <[c := mkChannel true (closed ch) (broken ch) (sent ch)]>
               (world st)).
  set (w2 := <[c := mkChannel true (closed ch) (broken ch) (sent ch ++ [msg])]>
               w1).
  set (st3 := mkApp (<[sid := table3]> (manager st)) (rate_limiter st)
                    (sessions st) teams' w2).
  assert (Hout : out =
            if String.eqb r "participant"
            then (let (_, st') :=
                    manager_broadcast sid
                      (opponent_connected_msg client_id teams')
                      (Some client_id) st3 in (Ok true, st'))
            else (Ok true, st3)).
  { unfold out. by rewrite (websocket_open_first c sid client_id r now st s ch). }
  assert (Hrc2 : received w2 c = (received (world st) c ++ [msg])%list).
  { unfold received, w2. by rewrite lookup_insert_eq, Hch. }
  assert (Hother : forall c', c' <> c -> w2 !! c' = world st !! c').
  { intros c' Hne. unfold w2, w1. by rewrite !lookup_insert_ne. }
  assert (Hm3 : manager st3 !! sid = Some table3)
    by (simpl; apply lookup_insert_eq).
  assert (Hwf3 : PyDict.wf table3) by by apply PyDictFacts.wf_set.
  clearbody out. subst out.
  destruct (String.eqb r "participant") eqn:Hrole.
  - pose proof (manager_broadcast_ok sid
                  (opponent_connected_msg client_id teams') (Some client_id)
                  st3) as (_ & Hcs & Hct & _).
    pose proof (manager_broadcast_delivers sid
                  (opponent_connected_msg client_id teams') (Some client_id)
                  st3 table3 Hm3 Hwf3) as (Hd & Hskip & _).
    pose proof (broadcast_keeps_excluded sid
                  (opponent_connected_msg client_id teams') (Some client_id)
                  (manager st3) (world st3) table3 client_id
                  (mkConnInfo c r) Hm3 Hwf3) as Hkeep.
    unfold manager_broadcast in *.
    destruct (broadcast sid _ (Some client_id) (manager st3) (world st3))
      as [conns w]. simpl in *. split_and!; try done.
    + apply Hkeep; [apply PyDictFacts.get_set_eq | apply String.eqb_refl].
    + rewrite Hskip; [done|]. intros k info Hget Hex.
      apply String.eqb_neq in Hex. unfold table3 in Hget.
      rewrite PyDictFacts.get_set_ne in Hget by done. by eapply Hfree.
    + intros k info Hget Hsend.
      assert (Hk : k <> client_id) by (intros ->; congruence).
      apply (Hd k info).
      * unfold table3. by rewrite PyDictFacts.get_set_ne.
      * by apply String.eqb_neq.
      * unfold sendable in *. rewrite Hother; [done|by eapply Hfree].
  - simpl. split_and!; try done.
    + unfold session_table. rewrite lookup_insert_eq. simpl.
      apply PyDictFacts.get_set_eq.
    + intros c' Hne. unfold received. by rewrite Hother.
Qed.

(** A spectator screen joins the ready duel on the spare channel: it is
    registered and neither team is sent anything. *)
Lemma first_join_witness :
  let out := websocket_open 2 "main" (Verified "screen" "screen") 5
                            duel_with_spare in
  fst out = Ok true /\
  PyDict.get "screen" (session_table (manager (snd out)) "main") =
    Some (mkConnInfo 2 "screen") /\
  received (world (snd out)) 0 = received (world duel_with_spare) 0.
Proof.
  cbv zeta.
  destruct (first_join 2 "main" "screen" "screen" 5 duel_with_spare
              (mkSessionState "main" DISABLED None None 0) fresh_channel
              reachable_duel_with_spare
              ltac:(vm_compute; reflexivity) ltac:(vm_compute; reflexivity)
              eq_refl ltac:(vm_compute; reflexivity))
    as (Hok & _ & _ & Hreg & _ & Hquiet).
  { intros k info.
    change (session_table (manager duel_with_spare) "main")
      with [("gadzit", mkConnInfo 0 "participant");
            ("phoenix", mkConnInfo 1 "participant")].
    simpl. destruct (String.eqb k "gadzit"); [by intros [= <-]|].
    destruct (String.eqb k "phoenix"); [by intros [= <-]|done]. }
  split_and!; [exact Hok | exact Hreg |].
  simpl in Hquiet. apply Hquiet. discriminate.
Defined.

(** * [broadcast] among other coroutines *)





Lemma length_pop_present {V} (k : string) (d : PyDict.t V) :
  is_Some (PyDict.get k d) -> S (length (PyDict.pop k d)) = length d.
Proof.
  induction d as [|[k' v'] d IH]; simpl; [by intros [? ?]|].
  destruct (String.eqb_spec k k'); [done|]. intros H. simpl. by rewrite IH.
Qed.

(** The iterator's size check: a table of another size than the one the
    iteration began with ends the loop, whatever is left to do. *)
Lemma broadcast_live_loop_resized left pos used sid message exclude env
    (conns : Connections) w dead :
  length (session_table conns sid) <> used ->
  broadcast_live_loop left pos used sid message exclude env conns w dead =
  (Raise (RuntimeError "dictionary changed size during iteration"), conns, w).
Proof.
  intros Hne. apply Nat.eqb_neq in Hne.
  destruct left; simpl; by rewrite Hne.
Qed.

Lemma session_table_disconnect sid k (conns : Connections) :
  session_table (disconnect sid k conns) sid =
  PyDict.pop k (session_table conns sid).
Proof.
  unfold disconnect.
  destruct (conns !! sid) as [table|] eqn:Hsid.
  - rewrite (session_table_Some conns sid table Hsid).
    apply session_table_Some, lookup_insert_eq.
  - by rewrite (session_table_None conns sid Hsid).
Qed.



(** The loop when the wait of its send number [n] sees a registered
    client disconnected, the earlier waits being quiet: it ends at the next
    item, after the sends to the first [n + 1] addressed clients. *)
Lemma broadcast_live_loop_disturbed sid message exclude (conns : Connections)
    (table : PyDict.t ConnInfo) leaver env :
  conns !! sid = Some table ->
  is_Some (PyDict.get leaver table) ->
  forall rest pos n w dead,
    drop pos table = rest ->
    (n < length (targets rest exclude))%nat ->
    broadcast_live_loop (length rest) pos (length table) sid message exclude
      (replicate n Quiet ++ Disconnects sid leaver :: env) conns w dead =
    (Raise (RuntimeError "dictionary changed size during iteration"),
     disconnect sid leaver conns,
     fst (broadcast_loop (take (S n) (targets rest exclude)) message exclude
                         w dead)).
Proof.
  intros Hsid Hleaver.
  pose proof (session_table_Some conns sid table Hsid) as Htable.
  assert (Hsize : length (session_table (disconnect sid leaver conns) sid) <>
                  length table).
  { rewrite session_table_disconnect, Htable.
    pose proof (length_pop_present leaver table Hleaver) as Hlen.
    unfold PyDict.t in *. intros Heq. rewrite Heq in Hlen. lia. }
  induction rest as [|[cid info] rest IH]; intros pos n w dead Hdrop Hn;
    [simpl in Hn; lia|].
  unfold PyDict.t in *.
  assert (Hpos : table !! pos = Some (cid, info)).
  { pose proof (lookup_drop table pos 0) as H.
    rewrite Nat.add_0_r, Hdrop in H. by rewrite <- H. }
  assert (Hnext : drop (S pos) table = rest).
  { pose proof (drop_drop table 1 pos) as H.
    rewrite Hdrop, Nat.add_1_r in H. by rewrite <- H. }
  cbn [length broadcast_live_loop]. rewrite Htable, Nat.eqb_refl.
  cbn [negb]. unfold PyDict.t in *. rewrite Hpos.
  unfold targets in *. cbn [List.filter fst] in *.
  destruct (is_excluded cid exclude) eqn:Hex; cbn [negb] in *; [by apply IH|].
  destruct n as [|n]; cbn [replicate app hd tl interfere take];
    cbn [broadcast_loop]; rewrite Hex.
  - destruct (ws_send_json (ws info) message w) as [w1|];
      by rewrite broadcast_live_loop_resized by exact Hsize.
  - cbn [length] in Hn.
    destruct (ws_send_json (ws info) message w) as [w1|];
      apply IH; (done || lia).
Qed.

(** X18: a registered client that is disconnected while [broadcast] waits
    on one of its sends, the waits before it being quiet, ends the
    broadcast with a [RuntimeError] at the next item: the clients that
    were addressed up to that send have been written to and nobody else,
    and the table is left as the disconnect made it, without the removal
    of the clients whose send failed. *)
Theorem disconnect_during_send_aborts_broadcast (sid : string)
    (message : json) (exclude : option string) (n : nat)
    (env : list Interference) (conns : Connections) (w : World)
    (table : PyDict.t ConnInfo) (leaver : string) :
  conns !! sid = Some table ->
  (n < length (targets table exclude))%nat ->
  is_Some (PyDict.get leaver table) ->
  let out := broadcast_live (replicate n Quiet ++ Disconnects sid leaver :: env)
                            sid message exclude conns w in
  let addressed := take (S n) (targets table exclude) in
  fst (fst out) =
    Raise (RuntimeError "dictionary changed size during iteration") /\
  snd out = fst (broadcast_loop addressed message exclude w []) /\
  (forall c, (forall k info, (k, info) ∈ addressed -> ws info <> c) ->
             received (snd out) c = received w c) /\
  snd (fst out) = disconnect sid leaver conns.
Proof.
  intros Hsid Hn Hleaver out addressed.
  assert (Hout : out =
            (Raise (RuntimeError "dictionary changed size during iteration"),
             disconnect sid leaver conns,
             fst (broadcast_loop addressed message exclude w []))).
  { unfold out, broadcast_live. unfold PyDict.t in *. rewrite Hsid.
    by rewrite (broadcast_live_loop_disturbed sid message exclude conns table
                  leaver env Hsid Hleaver table 0 n w [] eq_refl Hn). }
  rewrite Hout. cbn [fst snd]. split_and!; [done|done| |done].
  intros c Hc.
  pose proof (broadcast_loop_effect addressed message exclude w [])
    as (_ & Hrecv & _).
  rewrite Hrecv, deliveries_none; [by destruct (sendable w c); rewrite app_nil_r|].
  intros k info [Hin _]%elem_of_targets. by apply (Hc k info).
Qed.

(** On the watched duel the send to the first team fails; its handler
    unregisters it during the send to the second team: the screen is sent
    nothing. *)
Lemma disconnect_during_send_aborts_broadcast_witness :
  let message := state_sync seed_session (teams_db duel_watched) in
  let out := broadcast_live [Quiet; Disconnects "main" "gadzit"] "main" message
                            None (manager duel_watched) (world duel_watched) in
  fst (fst out) =
    Raise (RuntimeError "dictionary changed size during iteration") /\
  received (snd out) 2 = received (world duel_watched) 2.
Proof.
  cbv zeta.
  destruct (disconnect_during_send_aborts_broadcast "main"
              (state_sync seed_session (teams_db duel_watched)) None 1 []
              (manager duel_watched) (world duel_watched)
              [("gadzit", mkConnInfo 0 "participant");
               ("phoenix", mkConnInfo 1 "participant");
               ("screen", mkConnInfo 2 "screen")] "gadzit"
              ltac:(vm_compute; reflexivity) ltac:(simpl; lia)
              ltac:(by eexists))
    as (Hraise & _ & Hquiet & _).
  split; [exact Hraise|]. apply Hquiet.
  intros k info Hin. simpl in Hin.
  apply elem_of_cons in Hin as [Hin|Hin%list_elem_of_singleton];
    injection Hin as -> ->; discriminate.
Defined.

Lemma reachable_duel_watched : reachable duel_watched.
Proof. apply reachable_run, reachable_duel_with_spare. Qed.

(** C8, which the code breaks: the peer of the first team is gone, and
    the second team and the screen are registered on channels that can be
    written to.  Undisturbed, a broadcast drops the first team and reaches
    the other two.  But the loop walks the table itself and waits on each
    send: the send to the first team fails and is caught, and when the
    handler of the first team unregisters its client during the send to
    the second team, the loop ends in a [RuntimeError], which leaves
    [broadcast]; the screen is sent nothing. *)
Theorem broadcast_aborts_when_a_client_leaves :
  let st := duel_watched in
  let message := state_sync seed_session (teams_db st) in
  let undisturbed :=
    broadcast_live [] "main" message None (manager st) (world st) in
  let out :=
    broadcast_live [Quiet; Disconnects "main" "gadzit"] "main" message None
                   (manager st) (world st) in
  reachable st /\
  manager st !! "main" =
    Some [("gadzit", mkConnInfo 0 "participant");
          ("phoenix", mkConnInfo 1 "participant");
          ("screen", mkConnInfo 2 "screen")] /\
  sendable (world st) 0 = false /\
  sendable (world st) 1 = true /\
  sendable (world st) 2 = true /\
  fst (fst undisturbed) = Ok tt /\
  received (snd undisturbed) 1 = (received (world st) 1 ++ [message])%list /\
  received (snd undisturbed) 2 = (received (world st) 2 ++ [message])%list /\
  PyDict.get "gadzit" (session_table (snd (fst undisturbed)) "main") = None /\
  fst (fst out) =
    Raise (RuntimeError "dictionary changed size during iteration") /\
  received (snd out) 1 = (received (world st) 1 ++ [message])%list /\
  received (snd out) 2 = received (world st) 2 /\
  PyDict.get "screen" (session_table (snd (fst out)) "main") =
    Some (mkConnInfo 2 "screen").
Proof.
  cbv zeta. split; [exact reachable_duel_watched|].
  split_and!; vm_compute; reflexivity.
Qed.


(** * A reconnect and the handler it replaces *)

Lemma broadcast_sendable sid message exclude (conns : Connections) w c :
  sendable (snd (broadcast sid message exclude conns w)) c = sendable w c.
Proof.
  unfold broadcast. destruct (conns !! sid) as [table|]; [|done].
  pose proof (broadcast_loop_effect (PyDict.items table) message exclude w [])
    as (Hsame & _).
  destruct (broadcast_loop _ _ _ _ _) as [w' dead]. apply Hsame.
Qed.

(** [broadcast] registers nobody. *)
Lemma broadcast_shrinks sid message exclude (conns : Connections) w k info :
  PyDict.wf (session_table conns sid) ->
  PyDict.get k (session_table (fst (broadcast sid message exclude conns w)) sid)
    = Some info ->
  PyDict.get k (session_table conns sid) = Some info.
Proof.
  intros Hwf. unfold broadcast.
  destruct (conns !! sid) as [table|] eqn:Hsid; [|done].
  rewrite (session_table_Some conns sid table Hsid) in *.
  destruct (broadcast_loop _ _ _ _ _) as [w' dead]. simpl.
  rewrite (session_table_Some _ sid (pop_all dead table))
    by apply lookup_insert_eq.
  rewrite get_pop_all by done. by destruct (bool_decide _).
Qed.

Lemma manager_broadcast_sendable sid message exclude st c :
  sendable (world (snd (manager_broadcast sid message exclude st))) c =
  sendable (world st) c.
Proof.
  unfold manager_broadcast.
  pose proof (broadcast_sendable sid message exclude (manager st) (world st) c).
  by destruct (broadcast _ _ _ _ _).
Qed.

Lemma manager_broadcast_shrinks sid message exclude st k info :
  manager_wf st ->
  PyDict.get k (session_table
                  (manager (snd (manager_broadcast sid message exclude st)))
                  sid) = Some info ->
  PyDict.get k (session_table (manager st) sid) = Some info.
Proof.
  intros Hwf. unfold manager_broadcast.
  pose proof (broadcast_shrinks sid message exclude (manager st) (world st)
                k info (session_table_wf _ _ Hwf)).
  by destruct (broadcast _ _ _ _ _).
Qed.

(** A channel on which no addressed client is registered is not written
    to. *)
Lemma manager_broadcast_skips sid message exclude st c :
  manager_wf st ->
  (forall k info,
     PyDict.get k (session_table (manager st) sid) = Some info ->
     is_excluded k exclude = false -> ws info <> c) ->
  received (world (snd (manager_broadcast sid message exclude st))) c =
  received (world st) c.
Proof.
  intros Hwf Hfree.
  destruct (manager st !! sid) as [table|] eqn:Hsid.
  - rewrite (session_table_Some _ _ _ Hsid) in Hfree.
    destruct (manager_broadcast_delivers sid message exclude st table Hsid
                (Hwf sid table Hsid)) as (_ & Hskip & _).
    by apply Hskip.
  - unfold manager_broadcast, broadcast. unfold PyDict.t in *.
    by rewrite Hsid.
Qed.

Lemma on_disconnect_eq sid client_id r st :
  on_disconnect sid client_id r st =
  manager_broadcast sid
    (opponent_disconnected_msg client_id (left_roster client_id r (teams_db st)))
    None
    (with_teams_db (left_roster client_id r (teams_db st))
       (with_manager (disconnect sid client_id (manager st)) st)).
Proof.
  unfold on_disconnect. mrun.
  change (teams_db (with_manager (disconnect sid client_id (manager st)) st))
    with (teams_db st).
  unfold left_roster, opponent_disconnected_msg.
  destruct (String.eqb r "participant"); [|reflexivity].
  destruct (PyDict.get client_id (teams_db st)); reflexivity.
Qed.

Section Enter.
Variables (c : nat) (sid client_id r : string) (now : float) (st : App).
Variables (s : SessionState) (ch : Channel).
Hypothesis Hs : sessions st !! sid = Some s.
Hypothesis Hch : world st !! c = Some ch.
Hypothesis Hio : can_io ch = true.
Hypothesis Hfree :
  forall k info,
    PyDict.get k (session_table (manager st) sid) = Some info -> ws info <> c.

Let table := session_table (manager st) sid.
Let accepted_c := mkChannel true (closed ch) (broken ch) (sent ch).
Let w1 : World := snd (connect c sid client_id r (manager st) (world st)).
Let teams1 := joined_roster client_id r now (teams_db st).
Let msg := connected_msg client_id r s teams1.
Let w2 : World :=
  <[c := mkChannel true (closed ch) (broken ch) (sent ch ++ [msg])]> w1.
Let st3 : App :=
  mkApp (<[sid := PyDict.set client_id (mkConnInfo c r) table]> (manager st))
        (rate_limiter st) (sessions st) teams1 w2.

Lemma connect_enters :
  connect c sid client_id r (manager st) (world st) =
    (Ok tt, <[sid := PyDict.set client_id (mkConnInfo c r) table]> (manager st),
     w1) /\
  w1 !! c = Some accepted_c.
Proof.
  unfold w1, connect, ws_accept. rewrite Hch, Hio. fold table. fold accepted_c.
  split; [done|]. cbn [snd].
  destruct (PyDict.get client_id table) as [old|] eqn:Hold;
    [|apply lookup_insert_eq].
  unfold ws_close. rewrite lookup_insert_ne by (symmetry; by eapply Hfree).
  destruct (world st !! ws old) as [ch_old|]; [|apply lookup_insert_eq].
  destruct (can_io ch_old); [|apply lookup_insert_eq].
  rewrite lookup_insert_ne by (by eapply Hfree). apply lookup_insert_eq.
Qed.

(** The handshake of a verified client on a channel that accepts and that
    no registration uses, whether the client is registered or not. *)
Lemma websocket_open_enters :
  websocket_open c sid (Verified client_id r) now st =
  if String.eqb r "participant"
  then (let (_, st') :=
          manager_broadcast sid (opponent_connected_msg client_id teams1)
                            (Some client_id) st3 in
        (Ok true, st'))
  else (Ok true, st3).
Proof.
  destruct connect_enters as [Hc Hw1].
  assert (Hconn : manager_connect c sid client_id r st =
                  (Ok tt, with_world w1
                            (with_manager
                               (<[sid := PyDict.set client_id (mkConnInfo c r)
                                           table]> (manager st)) st))).
  { unfold manager_connect. by rewrite Hc. }
  assert (Hsend : forall m st0, world st0 = w1 ->
            send_json c m st0 =
              (Ok tt,
               with_world
                 (<[c := mkChannel true (closed ch) (broken ch)
                                   (sent ch ++ [m])]> w1) st0)).
  { intros m st0 Hw. unfold send_json, ws_send_json. rewrite Hw, Hw1.
    unfold accepted_c, can_send. cbn [accepted andb sent closed broken].
    change (can_io (mkChannel true (closed ch) (broken ch) (sent ch)))
      with (can_io ch).
    by rewrite Hio. }
  clearbody w1.
  unfold websocket_open. mrun. rewrite Hs. mrun. rewrite Hconn. mrun.
  unfold st3, w2, msg, teams1, joined_roster, opponent_connected_msg.
  destruct (String.eqb r "participant") eqn:Hr; app_simpl.
  - destruct (PyDict.get client_id (teams_db st)) as [t|] eqn:Ht; mrun;
      app_simpl; rewrite Hs; mrun; app_simpl;
      rewrite Hsend by done; unfold manager_broadcast; app_simpl;
      by destruct (broadcast _ _ _ _ _) as [? ?].
  - mrun. app_simpl. rewrite Hs. mrun. app_simpl.
    rewrite Hsend by done. reflexivity.
Qed.

(** After it, the client is registered on the channel, the channel can be
    written to, and it is the only registration on it. *)
Lemma websocket_open_registers :
  manager_wf st ->
  let out := websocket_open c sid (Verified client_id r) now st in
  fst out = Ok true /\
  PyDict.get client_id (session_table (manager (snd out)) sid) =
    Some (mkConnInfo c r) /\
  sendable (world (snd out)) c = true /\
  (forall k info,
     PyDict.get k (session_table (manager (snd out)) sid) = Some info ->
     k <> client_id -> ws info <> c).
Proof.
  intros Hwf out. unfold out. rewrite websocket_open_enters.
  pose proof (session_table_wf (manager st) sid Hwf) as Hwft. fold table in Hwft.
  assert (Hm3 : manager st3 !! sid =
                Some (PyDict.set client_id (mkConnInfo c r) table))
    by (simpl; apply lookup_insert_eq).
  assert (Hwf3 : manager_wf st3).
  { intros sid' t. simpl. destruct (decide (sid = sid')) as [<-|Hne].
    - rewrite lookup_insert_eq. intros [= <-]. by apply PyDictFacts.wf_set.
    - rewrite lookup_insert_ne by done. apply Hwf. }
  assert (Hs3 : sendable (world st3) c = true).
  { unfold sendable. simpl. unfold w2. rewrite lookup_insert_eq.
    unfold can_send. cbn [accepted andb].
    change (can_io (mkChannel true (closed ch) (broken ch) (sent ch ++ [msg])))
      with (can_io ch). exact Hio. }
  assert (Hothers : forall k info,
            PyDict.get k (session_table (manager st3) sid) = Some info ->
            k <> client_id -> ws info <> c).
  { intros k info. rewrite (session_table_Some _ _ _ Hm3).
    intros Hget Hne. rewrite PyDictFacts.get_set_ne in Hget by done.
    by eapply Hfree. }
  destruct (String.eqb r "participant").
  - pose proof (manager_broadcast_ok sid
                  (opponent_connected_msg client_id teams1) (Some client_id)
                  st3) as [Hok _].
    pose proof (manager_broadcast_sendable sid
                  (opponent_connected_msg client_id teams1) (Some client_id)
                  st3 c) as Hsame.
    pose proof (fun k info =>
                  manager_broadcast_shrinks sid
                    (opponent_connected_msg client_id teams1) (Some client_id)
                    st3 k info Hwf3) as Hshrink.
    pose proof (broadcast_keeps_excluded sid
                  (opponent_connected_msg client_id teams1) (Some client_id)
                  (manager st3) (world st3) _ client_id (mkConnInfo c r)
                  Hm3 (Hwf3 sid _ Hm3) (PyDictFacts.get_set_eq _ _ _)
                  (String.eqb_refl client_id)) as Hkeep.
    unfold manager_broadcast in *.
    destruct (broadcast sid _ (Some client_id) (manager st3) (world st3))
      as [conns w]. simpl in *. split_and!; [done|done|congruence|].
    intros k info Hget Hne. apply (Hothers k info); [|done].
    by apply Hshrink.
  - cbn [fst snd]. split_and!; [done| |done|done].
    rewrite (session_table_Some _ _ _ Hm3). apply PyDictFacts.get_set_eq.
Qed.

End Enter.


(** X19: a registered client connects again on a new channel, and the
    handler of the channel it replaces then sees the disconnect, each
    taken in one piece.  The handshake registers the client on the new
    channel; the cleanup of the replaced handler removes that very
    registration.  The client is then not registered although its new
    channel can be written to, the roster shows a participant as not
    connected, and no later broadcast is sent to the new channel. *)
Theorem replaced_handler_unregisters_new_channel (c : nat)
    (sid client_id r : string) (now : float) (st : App) (s : SessionState)
    (old : ConnInfo) (ch : Channel) :
  reachable st ->
  sessions st !! sid = Some s ->
  PyDict.get client_id (session_table (manager st) sid) = Some old ->
  world st !! c = Some ch ->
  can_io ch = true ->
  (forall k info,
     PyDict.get k (session_table (manager st) sid) = Some info ->
     ws info <> c) ->
  let opened := websocket_open c sid (Verified client_id r) now st in
  let st' := snd (on_disconnect sid client_id (role old) (snd opened)) in
  fst opened = Ok true /\
  PyDict.get client_id (session_table (manager (snd opened)) sid) =
    Some (mkConnInfo c r) /\
  PyDict.get client_id (session_table (manager st') sid) = None /\
  sendable (world st') c = true /\
  (role old = "participant" ->
   forall t, PyDict.get client_id (teams_db st') = Some t ->
             is_connected t = false) /\
  (forall message exclude,
     received (world (snd (manager_broadcast sid message exclude st'))) c =
     received (world st') c).
Proof.
  intros Hr Hs _ Hch Hio Hfree opened st'.
  destruct (websocket_open_registers c sid client_id r now st s ch Hs Hch Hio
              Hfree (reachable_manager_wf st Hr))
    as (Hok & Hreg & Hsend & Hothers).
  fold opened in Hok, Hreg, Hsend, Hothers.
  assert (Hr1 : reachable (snd opened))
    by exact (reachable_step (OpOpen c sid (Verified client_id r) now) st Hr).
  assert (Hr' : reachable st')
    by exact (reachable_step (OpDisconnect sid client_id (role old))
                             (snd opened) Hr1).
  pose proof (reachable_manager_wf _ Hr1) as Hwf1.
  pose proof (reachable_manager_wf _ Hr') as Hwf'.
  set (st1 := snd opened) in *.
  set (teams2 := left_roster client_id (role old) (teams_db st1)).
  set (st2 := with_teams_db teams2
                (with_manager (disconnect sid client_id (manager st1)) st1)).
  set (msg := opponent_disconnected_msg client_id teams2).
  assert (Hst' : st' = snd (manager_broadcast sid msg None st2)).
  { unfold st'. by rewrite on_disconnect_eq. }
  assert (Hwf2 : manager_wf st2)
    by exact (disconnect_wf sid client_id (manager st1) Hwf1).
  assert (Ht2 : session_table (manager st2) sid =
                PyDict.pop client_id (session_table (manager st1) sid))
    by apply session_table_disconnect.
  assert (Hgone2 : PyDict.get client_id (session_table (manager st2) sid) = None).
  { rewrite Ht2. apply PyDictFacts.get_pop_eq, session_table_wf, Hwf1. }
  assert (Hfree2 : forall k info,
            PyDict.get k (session_table (manager st2) sid) = Some info ->
            ws info <> c).
  { intros k info. destruct (decide (k = client_id)) as [->|Hne];
      [by rewrite Hgone2|].
    rewrite Ht2, PyDictFacts.get_pop_ne by done.
    intros Hget. by apply (Hothers k info). }
  assert (Hshrink : forall k info,
            PyDict.get k (session_table (manager st') sid) = Some info ->
            PyDict.get k (session_table (manager st2) sid) = Some info).
  { intros k info. rewrite Hst'. by apply manager_broadcast_shrinks. }
  pose proof (manager_broadcast_ok sid msg None st2) as (_ & _ & Hteams & _).
  rewrite <- Hst' in Hteams.
  split_and!.
  - exact Hok.
  - exact Hreg.
  - destruct (PyDict.get client_id (session_table (manager st') sid))
      as [info|] eqn:Hget; [|done].
    apply Hshrink in Hget. congruence.
  - rewrite Hst', manager_broadcast_sendable. exact Hsend.
  - intros Hrole t. rewrite Hteams. unfold st2, teams2, left_roster.
    cbn [teams_db with_teams_db]. rewrite Hrole, String.eqb_refl.
    destruct (PyDict.get client_id (teams_db st1)) as [t0|] eqn:Ht0.
    + rewrite PyDictFacts.get_set_eq. by intros [= <-].
    + congruence.
  - intros message exclude. apply manager_broadcast_skips; [exact Hwf'|].
    intros k info Hget _. apply (Hfree2 k info). by apply Hshrink.
Qed.

(** The first team opens a second tab on the spare channel; then the
    handler of its first tab sees the close. *)
Lemma replaced_handler_unregisters_new_channel_witness :
  let opened := websocket_open 2 "main" (Verified "gadzit" "participant") 5
                               duel_with_spare in
  let st' := snd (on_disconnect "main" "gadzit" "participant" (snd opened)) in
  PyDict.get "gadzit" (session_table (manager (snd opened)) "main") =
    Some (mkConnInfo 2 "participant") /\
  PyDict.get "gadzit" (session_table (manager st') "main") = None /\
  sendable (world st') 2 = true.
Proof.
  cbv zeta.
  destruct (replaced_handler_unregisters_new_channel 2 "main" "gadzit"
              "participant" 5 duel_with_spare
              (mkSessionState "main" DISABLED None None 0)
              (mkConnInfo 0 "participant") fresh_channel
              reachable_duel_with_spare
              ltac:(vm_compute; reflexivity) ltac:(vm_compute; reflexivity)
              ltac:(vm_compute; reflexivity) eq_refl)
    as (_ & Hreg & Hgone & Hopen & _).
  { intros k info.
    change (session_table (manager duel_with_spare) "main")
      with [("gadzit", mkConnInfo 0 "participant");
            ("phoenix", mkConnInfo 1 "participant")].
    simpl. destruct (String.eqb k "gadzit"); [by intros [= <-]|].
    destruct (String.eqb k "phoenix"); [by intros [= <-]|done]. }
  split_and!; [exact Hreg | exact Hgone | exact Hopen].
Defined.
